(** * LinkedIn OAuth bootstrap ([token_gen.py]): a shallow embedding

    The script obtains an OAuth2 authorization code through a local
    callback listener, exchanges it for an access token, fetches the
    user's profile and keeps the token record in [linkedin_tokens.json].

    Conventions of the embedding.
    - A Python [str] is the list of its code points ([str := list Z]);
      [lit "..."] turns an ASCII literal into such a list.
    - A parsed JSON document is a [json] value; a Python [dict] is an
      association list in insertion order, as [json.dump] prints it.
      Floating point numbers are carried as their lexeme ([JFloat]).
    - Effects (the token file, [print], the browser, the listener, the
      [requests] calls) are threaded through a [World]; a computation
      returns, raises, or stays blocked waiting for a callback.
    - The standard-library functions the script calls are transcribed
      from CPython 3.12 ([json], [urllib.parse]).  What depends on the
      Unicode database or on floating point is a parameter of the
      development (Section [Script]).
    - [print] and the [requests] calls are performed on every text, and
      integers are read and written whatever their length.  The real
      calls raise on a lone surrogate (standard output and the request
      form are UTF-8, a header is Latin-1) and on an integer of more
      than 4300 digits; [goes_through], [carried_out] and the limits
      defined with them say which events and values the real calls
      take, and the properties that promise a result are stated for
      those. *)

From Stdlib Require Import String Ascii.
From Stdlib Require Import Decimal DecimalFacts DecimalPos DecimalN DecimalZ.
From Stdlib Require Import ZArith List Bool Lia.
Import ListNotations.
Open Scope Z_scope.

(** ** Text *)

Definition str := list Z.

Definition lit (s : string) : str :=
  map (fun a => Z.of_N (N_of_ascii a)) (list_ascii_of_string s).
Arguments lit s%_string.

Fixpoint str_eqb (a b : str) : bool :=
  match a, b with
  | [], [] => true
  | x :: a', y :: b' => (x =? y) && str_eqb a' b'
  | _, _ => false
  end.

(** [p] is a prefix of [s] ([s.startswith(p)]). *)
Fixpoint startswith (p s : str) : bool :=
  match p, s with
  | [], _ => true
  | x :: p', y :: s' => (x =? y) && startswith p' s'
  | _ :: _, [] => false
  end.

(** [sub in s] for two strings. *)
Fixpoint str_contains (sub s : str) : bool :=
  startswith sub s || match s with [] => false | _ :: s' => str_contains sub s' end.

Definition has_char (c : Z) (s : str) : bool := existsb (Z.eqb c) s.

(** [s.split(c, 1)] when [c] occurs in [s]: the text before and after
    its first occurrence. *)
Fixpoint split_once (c : Z) (s : str) : option (str * str) :=
  match s with
  | [] => None
  | x :: r =>
      if x =? c then Some ([], r)
      else match split_once c r with
           | Some (a, b) => Some (x :: a, b)
           | None => None
           end
  end.

(** [s.split(c)] for a one-character separator. *)
Fixpoint split_on (c : Z) (s : str) : list str :=
  match s with
  | [] => [[]]
  | x :: r =>
      if x =? c then [] :: split_on c r
      else match split_on c r with
           | h :: t => (x :: h) :: t
           | [] => [[x]]
           end
  end.

(** [s.replace(a, b)] for single characters. *)
Definition replace_char (a b : Z) (s : str) : str :=
  map (fun x => if x =? a then b else x) s.

Definition is_digit (c : Z) : bool := (48 <=? c) && (c <=? 57).
Definition is_ascii_alpha (c : Z) : bool :=
  ((65 <=? c) && (c <=? 90)) || ((97 <=? c) && (c <=? 122)).
Definition lower (c : Z) : Z :=
  if (65 <=? c) && (c <=? 90) then c + 32 else c.

(** The longest prefix of decimal digits, and what follows it. *)
Fixpoint span_digits (s : str) : str * str :=
  match s with
  | c :: r =>
      if is_digit c then let (d, r') := span_digits r in (c :: d, r')
      else ([], s)
  | [] => ([], [])
  end.

(** *** Decimal and hexadecimal numerals *)

Fixpoint digits_of_uint (u : Decimal.uint) : str :=
  match u with
  | Nil => []
  | D0 u => 48 :: digits_of_uint u
  | D1 u => 49 :: digits_of_uint u
  | D2 u => 50 :: digits_of_uint u
  | D3 u => 51 :: digits_of_uint u
  | D4 u => 52 :: digits_of_uint u
  | D5 u => 53 :: digits_of_uint u
  | D6 u => 54 :: digits_of_uint u
  | D7 u => 55 :: digits_of_uint u
  | D8 u => 56 :: digits_of_uint u
  | D9 u => 57 :: digits_of_uint u
  end.

Definition digit_cons (c : Z) (u : Decimal.uint) : Decimal.uint :=
  if c =? 48 then D0 u else if c =? 49 then D1 u else if c =? 50 then D2 u
  else if c =? 51 then D3 u else if c =? 52 then D4 u else if c =? 53 then D5 u
  else if c =? 54 then D6 u else if c =? 55 then D7 u else if c =? 56 then D8 u
  else D9 u.

Fixpoint uint_of_digits (ds : str) : Decimal.uint :=
  match ds with
  | [] => Nil
  | c :: r => digit_cons c (uint_of_digits r)
  end.

(** [repr(n)] of a Python [int], as CPython writes it for an integer of
    at most 4300 digits; on a longer one [repr], [str] and [json.dump]
    raise [ValueError] ([int_fits] below). *)
Definition int_repr (n : Z) : str :=
  match Z.to_int n with
  | Decimal.Pos u => digits_of_uint u
  | Decimal.Neg u => 45 :: digits_of_uint u
  end.

(** [int(ds)] for a string of at most 4300 decimal digits; on a longer
    one [int], and with it [json.loads], raises [ValueError]
    ([text_within_limits] below). *)
Definition int_of_digits (ds : str) : Z := Z.of_uint (uint_of_digits ds).

Definition hexdigit (d : Z) : Z := if d <? 10 then 48 + d else 87 + d.

(** ['{0:04x}'.format(n)] for [0 <= n < 0x10000]. *)
Definition hex4 (n : Z) : str :=
  [hexdigit (n / 4096 mod 16); hexdigit (n / 256 mod 16);
   hexdigit (n / 16 mod 16); hexdigit (n mod 16)].

Definition hexval (c : Z) : option Z :=
  if (48 <=? c) && (c <=? 57) then Some (c - 48)
  else if (97 <=? c) && (c <=? 102) then Some (c - 87)
  else if (65 <=? c) && (c <=? 70) then Some (c - 55)
  else None.

(** [int(h1 h2 h3 h4, 16)], the four digits of a [\uXXXX] escape. *)
Definition decode_uXXXX (h1 h2 h3 h4 : Z) : option Z :=
  match hexval h1, hexval h2, hexval h3, hexval h4 with
  | Some a, Some b, Some c, Some d => Some (((a * 16 + b) * 16 + c) * 16 + d)
  | _, _, _, _ => None
  end.

(** *** UTF-8, for [str.encode()] *)

Definition is_surrogate (c : Z) : bool := (55296 <=? c) && (c <=? 57343).

Definition utf8_char (c : Z) : option (list Z) :=
  if c <? 128 then Some [c]
  else if c <? 2048 then
    Some [Z.lor 192 (Z.shiftr c 6); Z.lor 128 (Z.land c 63)]
  else if is_surrogate c then None
  else if c <? 65536 then
    Some [Z.lor 224 (Z.shiftr c 12); Z.lor 128 (Z.land (Z.shiftr c 6) 63);
          Z.lor 128 (Z.land c 63)]
  else
    Some [Z.lor 240 (Z.shiftr c 18); Z.lor 128 (Z.land (Z.shiftr c 12) 63);
          Z.lor 128 (Z.land (Z.shiftr c 6) 63); Z.lor 128 (Z.land c 63)].

(** [s.encode()]; [None] is [UnicodeEncodeError] (a lone surrogate). *)
Fixpoint utf8_encode (s : str) : option (list Z) :=
  match s with
  | [] => Some []
  | c :: r =>
      match utf8_char c, utf8_encode r with
      | Some b, Some bs => Some (b ++ bs)
      | _, _ => None
      end
  end.

(** ** Python dictionaries, in insertion order *)

Section Dict.
Context {V : Type}.

Fixpoint dict_get (k : str) (d : list (str * V)) : option V :=
  match d with
  | [] => None
  | (k', v) :: r => if str_eqb k k' then Some v else dict_get k r
  end.

(** [d[k] = v]: an existing key keeps its place, a new one goes last. *)
Fixpoint dict_set (k : str) (v : V) (d : list (str * V)) : list (str * V) :=
  match d with
  | [] => [(k, v)]
  | (k', v') :: r =>
      if str_eqb k k' then (k', v) :: r else (k', v') :: dict_set k v r
  end.

(** [dict(pairs)]. *)
Definition dict_of_pairs (pairs : list (str * V)) : list (str * V) :=
  fold_left (fun d kv => dict_set (fst kv) (snd kv) d) pairs [].

Definition dict_has (k : str) (d : list (str * V)) : bool :=
  match dict_get k d with Some _ => true | None => false end.
End Dict.

(** ** JSON values *)

#[local] Unset Elimination Schemes.
Inductive json : Type :=
| JNull
| JBool (b : bool)
| JInt (n : Z)
| JFloat (lexeme : str)
| JStr (s : str)
| JArr (items : list json)
| JObj (fields : list (str * json)).
#[local] Set Elimination Schemes.

(** Induction on a value with the hypothesis available for every item
    of a list and every value of a dict. *)
Section JsonInduction.
Variable P : json -> Prop.
Hypothesis Hnull : P JNull.
Hypothesis Hbool : forall b, P (JBool b).
Hypothesis Hint : forall n, P (JInt n).
Hypothesis Hfloat : forall x, P (JFloat x).
Hypothesis Hstr : forall s, P (JStr s).
Hypothesis Harr : forall l, Forall P l -> P (JArr l).
Hypothesis Hobj : forall d, Forall (fun kv => P (snd kv)) d -> P (JObj d).

Fixpoint json_nested_ind (v : json) : P v :=
  match v with
  | JNull => Hnull
  | JBool b => Hbool b
  | JInt n => Hint n
  | JFloat x => Hfloat x
  | JStr s => Hstr s
  | JArr l =>
      Harr l
        ((fix all (l : list json) : Forall P l :=
            match l with
            | [] => Forall_nil P
            | x :: r => Forall_cons x (json_nested_ind x) (all r)
            end) l)
  | JObj d =>
      Hobj d
        ((fix all (d : list (str * json)) : Forall (fun kv => P (snd kv)) d :=
            match d with
            | [] => Forall_nil _
            | kv :: r =>
                Forall_cons (P := fun kv => P (snd kv)) kv
                  (json_nested_ind (snd kv)) (all r)
            end) d)
  end.
End JsonInduction.

(** *** [json.loads] *)

Definition is_ws (c : Z) : bool :=
  (c =? 32) || (c =? 9) || (c =? 10) || (c =? 13).

Fixpoint skip_ws (s : str) : str :=
  match s with
  | c :: r => if is_ws c then skip_ws r else s
  | [] => []
  end.

Definition is_high_surrogate (c : Z) : bool := (55296 <=? c) && (c <=? 56319).
Definition is_low_surrogate (c : Z) : bool := (56320 <=? c) && (c <=? 57343).

(** The [BACKSLASH] table of [json.decoder]. *)
Definition backslash (e : Z) : option Z :=
  if e =? 34 then Some 34 else if e =? 92 then Some 92
  else if e =? 47 then Some 47 else if e =? 98 then Some 8
  else if e =? 102 then Some 12 else if e =? 110 then Some 10
  else if e =? 114 then Some 13 else if e =? 116 then Some 9
  else None.

(** [scanstring] (strict): [s] starts just after the opening quote; the
    result is the decoded string and the text after the closing quote. *)
Fixpoint scanstring (s : str) : option (str * str) :=
  match s with
  | [] => None
  | c :: r =>
      if c =? 34 then Some ([], r)
      else if c =? 92 then
        match r with
        | [] => None
        | e :: r1 =>
            if e =? 117 then
              match r1 with
              | h1 :: h2 :: h3 :: h4 :: r2 =>
                  match decode_uXXXX h1 h2 h3 h4 with
                  | None => None
                  | Some uni =>
                      let single :=
                        match scanstring r2 with
                        | Some (t, r') => Some (uni :: t, r')
                        | None => None
                        end in
                      if is_high_surrogate uni && startswith [92; 117] r2 then
                        match r2 with
                        | _ :: _ :: k1 :: k2 :: k3 :: k4 :: r3 =>
                            match decode_uXXXX k1 k2 k3 k4 with
                            | None => None
                            | Some uni2 =>
                                if is_low_surrogate uni2 then
                                  match scanstring r3 with
                                  | Some (t, r') =>
                                      Some (65536 + Z.lor (Z.shiftl (uni - 55296) 10)
                                                          (uni2 - 56320) :: t, r')
                                  | None => None
                                  end
                                else single
                            end
                        | _ => None
                        end
                      else single
                  end
              | _ => None
              end
            else
              match backslash e, scanstring r1 with
              | Some ch, Some (t, r') => Some (ch :: t, r')
              | _, _ => None
              end
        end
      else if (0 <=? c) && (c <? 32) then None
      else
        match scanstring r with
        | Some (t, r') => Some (c :: t, r')
        | None => None
        end
  end.

(** [NUMBER_RE] of [json.scanner]: an optional minus sign, then a lone
    zero or a digit string that starts with a non-zero digit; then an
    optional fraction (a dot and digits) and an optional exponent (e or
    E, an optional sign, digits). *)
Definition lex_int (s : str) : str * str :=
  match s with
  | d :: r => if d =? 48 then ([48], r) else span_digits s
  | [] => ([], [])
  end.

Definition lex_frac (s : str) : str * str :=
  match s with
  | c :: t =>
      if c =? 46 then
        match span_digits t with
        | ([], _) => ([], s)
        | (ds, t') => (46 :: ds, t')
        end
      else ([], s)
  | [] => ([], [])
  end.

Definition lex_exp (s : str) : str * str :=
  match s with
  | c :: t =>
      if (c =? 101) || (c =? 69) then
        let (sg, t1) :=
          match t with
          | x :: t' => if (x =? 45) || (x =? 43) then ([x], t') else ([], t)
          | [] => ([], t)
          end in
        match span_digits t1 with
        | ([], _) => ([], s)
        | (ds, t') => (c :: sg ++ ds, t')
        end
      else ([], s)
  | [] => ([], [])
  end.

Definition match_number (s : str) : option (json * str) :=
  let (sg, s1) :=
    match s with
    | c :: r => if c =? 45 then ([45], r) else ([], s)
    | [] => ([], s)
    end in
  let (ip, r1) := lex_int s1 in
  match ip with
  | [] => None
  | _ :: _ =>
      let (frac, r2) := lex_frac r1 in
      let (ex, r3) := lex_exp r2 in
      match frac, ex with
      | [], [] =>
          Some (JInt (match sg with
                      | [] => int_of_digits ip
                      | _ => - int_of_digits ip
                      end), r3)
      | _, _ => Some (JFloat (sg ++ ip ++ frac ++ ex), r3)
      end
  end.

(** [scan_once], [JSONObject] and [JSONArray] of [json.decoder] /
    [json.scanner].  [fuel] bounds the nesting of the calls. *)
Fixpoint scan_once (fuel : nat) (s : str) {struct fuel} : option (json * str) :=
  match fuel with
  | O => None
  | S n =>
      match s with
      | [] => None
      | c :: r =>
          if c =? 34 then
            match scanstring r with
            | Some (x, r') => Some (JStr x, r')
            | None => None
            end
          else if c =? 123 then
            match skip_ws r with
            | q :: r1 =>
                if q =? 125 then Some (JObj [], r1)
                else if q =? 34 then
                  match JSONObject_pairs n r1 with
                  | Some (pairs, r2) => Some (JObj (dict_of_pairs pairs), r2)
                  | None => None
                  end
                else None
            | [] => None
            end
          else if c =? 91 then
            match skip_ws r with
            | q :: r1 =>
                if q =? 93 then Some (JArr [], r1)
                else
                  match JSONArray_values n (q :: r1) with
                  | Some (values, r2) => Some (JArr values, r2)
                  | None => None
                  end
            | [] => None
            end
          else if startswith (lit "null") s then Some (JNull, skipn 4 s)
          else if startswith (lit "true") s then Some (JBool true, skipn 4 s)
          else if startswith (lit "false") s then Some (JBool false, skipn 5 s)
          else
            match match_number s with
            | Some res => Some res
            | None =>
                if startswith (lit "NaN") s then Some (JFloat (lit "NaN"), skipn 3 s)
                else if startswith (lit "Infinity") s then
                  Some (JFloat (lit "Infinity"), skipn 8 s)
                else if startswith (lit "-Infinity") s then
                  Some (JFloat (lit "-Infinity"), skipn 9 s)
                else None
            end
      end
  end

(** [s] starts just after the opening quote of a key. *)
with JSONObject_pairs (fuel : nat) (s : str) {struct fuel}
  : option (list (str * json) * str) :=
  match fuel with
  | O => None
  | S n =>
      match scanstring s with
      | None => None
      | Some (key, s1) =>
          match skip_ws s1 with
          | c :: s2 =>
              if c =? 58 then
                match scan_once n (skip_ws s2) with
                | None => None
                | Some (value, s3) =>
                    match skip_ws s3 with
                    | d :: s4 =>
                        if d =? 125 then Some ([(key, value)], s4)
                        else if d =? 44 then
                          match skip_ws s4 with
                          | q :: s5 =>
                              if q =? 34 then
                                match JSONObject_pairs n s5 with
                                | Some (pairs, s6) => Some ((key, value) :: pairs, s6)
                                | None => None
                                end
                              else None
                          | [] => None
                          end
                        else None
                    | [] => None
                    end
                end
              else None
          | [] => None
          end
      end
  end

(** [s] starts at the first character of a value. *)
with JSONArray_values (fuel : nat) (s : str) {struct fuel}
  : option (list json * str) :=
  match fuel with
  | O => None
  | S n =>
      match scan_once n s with
      | None => None
      | Some (value, s1) =>
          match skip_ws s1 with
          | c :: s2 =>
              if c =? 93 then Some ([value], s2)
              else if c =? 44 then
                match JSONArray_values n (skip_ws s2) with
                | Some (values, s3) => Some (value :: values, s3)
                | None => None
                end
              else None
          | [] => None
          end
      end
  end.

(** [json.loads(s)]; [None] is [JSONDecodeError]. *)
Definition json_loads (s : str) : option json :=
  if startswith [65279] s then None
  else
    match scan_once (S (length s)) (skip_ws s) with
    | Some (v, r) => match skip_ws r with [] => Some v | _ :: _ => None end
    | None => None
    end.

(** ** [urllib.parse]: the parts that do not decode text *)

Record ParseResult := {
  scheme : str;
  netloc : str;
  path : str;
  params : str;
  query : str;
  fragment : str
}.

Definition scheme_char (c : Z) : bool :=
  is_ascii_alpha c || is_digit c || (c =? 43) || (c =? 45) || (c =? 46).

(** [url.lstrip(_WHATWG_C0_CONTROL_OR_SPACE)]. *)
Fixpoint lstrip_c0 (s : str) : str :=
  match s with
  | c :: r => if (0 <=? c) && (c <=? 32) then lstrip_c0 r else s
  | [] => []
  end.

(** Tab, carriage return and line feed are removed from the URL. *)
Definition remove_unsafe (s : str) : str :=
  filter (fun c => negb ((c =? 9) || (c =? 13) || (c =? 10))) s.

(** The text up to the first character satisfying [p], and the rest. *)
Fixpoint span_until (p : Z -> bool) (s : str) : str * str :=
  match s with
  | [] => ([], [])
  | c :: r =>
      if p c then ([], s)
      else let (a, b) := span_until p r in (c :: a, b)
  end.

Definition split_scheme (url : str) : str * str :=
  match split_once 58 url with
  | Some (c0 :: pre, post) =>
      if is_ascii_alpha c0 && forallb scheme_char (c0 :: pre)
      then (map lower (c0 :: pre), post)
      else ([], url)
  | _ => ([], url)
  end.

(** [_splitnetloc(url, 2)] when [url] starts with two slashes. *)
Definition split_netloc (url : str) : str * str :=
  if startswith [47; 47] url then
    span_until (fun c => (c =? 47) || (c =? 63) || (c =? 35)) (skipn 2 url)
  else ([], url).

Definition uses_params : list str :=
  [[]; lit "ftp"; lit "hdl"; lit "prospero"; lit "http"; lit "imap";
   lit "https"; lit "shttp"; lit "rtsp"; lit "rtspu"; lit "sip"; lit "sips";
   lit "mms"; lit "sftp"; lit "tel"].

(** [_splitparams]: the parameters of the last path segment. *)
Definition splitparams (url : str) : str * str :=
  let (last_rev, front_rev) := span_until (Z.eqb 47) (rev url) in
  match split_once 59 (rev last_rev) with
  | Some (a, b) => (rev front_rev ++ a, b)
  | None => (url, [])
  end.

(** [[value]] appended under [name], as [parse_qs] fills its result. *)
Fixpoint qs_add (name value : str) (d : list (str * list str)) : list (str * list str) :=
  match d with
  | [] => [(name, [value])]
  | (k, vs) :: r =>
      if str_eqb name k then (k, vs ++ [value]) :: r
      else (k, vs) :: qs_add name value r
  end.

(** ** Exceptions, events and the world *)

(** The exceptions the script can meet; all derive from [Exception]. *)
Inductive exn :=
| Exception (msg : str)
| KeyError (key : str)
| TypeError
| AttributeError
| JSONDecodeError
| ConnectionError
| OSError.

(** What [do_GET] sends: the status line, the headers it sets itself and
    the bytes it writes. *)
Record response := {
  status : Z;
  headers : list (str * str);
  body : list Z
}.

(** One connection accepted by the listener: a parsed request line
    ([self.command], [self.path]) or something the server rejects. *)
Inductive connection :=
| Request (command target : str)
| Malformed.

(** The outcome of one [requests] call. *)
Inductive reply :=
| Reply (status_code : Z) (text : str)
| NoReply.

Inductive event :=
| Print (line : str)
| OpenBrowser (url : str)
| Bind (host : str) (port : Z)
| Served (target : str) (r : option response)
| Rejected (c : connection) (code : Z)
| Post (url : str) (data : list (str * option str)) (hdrs : list (str * str))
| Get (url : str) (hdrs : list (str * str))
| WriteFile (name : str) (content : str).

(** [token_file]: the content of [linkedin_tokens.json], if it exists.
    [port_free]: whether port 8000 can be bound.  [inbound]: the
    connections that will reach the listener, in order.  [replies]: the
    outcomes of the coming [requests] calls, in order.  [trace]: what the
    script has done so far, most recent event first. *)
Record World := {
  token_file : option str;
  port_free : bool;
  inbound : list connection;
  replies : list reply;
  trace : list event
}.

Definition log (e : event) (w : World) : World :=
  {| token_file := token_file w; port_free := port_free w;
     inbound := inbound w; replies := replies w; trace := e :: trace w |}.

Definition set_replies (rs : list reply) (w : World) : World :=
  {| token_file := token_file w; port_free := port_free w;
     inbound := inbound w; replies := rs; trace := trace w |}.

Definition set_inbound (cs : list connection) (w : World) : World :=
  {| token_file := token_file w; port_free := port_free w;
     inbound := cs; replies := replies w; trace := trace w |}.

Definition set_token_file (content : str) (w : World) : World :=
  {| token_file := Some content; port_free := port_free w;
     inbound := inbound w; replies := replies w; trace := trace w |}.

Inductive result (A : Type) :=
| Ret (a : A)
| Raise (e : exn)
| Blocked.
Arguments Ret {A} a.
Arguments Raise {A} e.
Arguments Blocked {A}.

Definition M (A : Type) := World -> result A * World.

Definition ret {A} (a : A) : M A := fun w => (Ret a, w).
Definition raise {A} (e : exn) : M A := fun w => (Raise e, w).
Definition bind {A B} (m : M A) (k : A -> M B) : M B :=
  fun w =>
    match m w with
    | (Ret a, w') => k a w'
    | (Raise e, w') => (Raise e, w')
    | (Blocked, w') => (Blocked, w')
    end.

(** [try: m  except Exception: h]. *)
Definition try_except {A} (m : M A) (h : M A) : M A :=
  fun w =>
    match m w with
    | (Raise _, w') => h w'
    | r => r
    end.

Notation "x <- c1 ;; c2" := (bind c1 (fun x => c2))
  (at level 61, c1 at next level, right associativity).
Notation "c1 ;; c2" := (bind c1 (fun _ => c2))
  (at level 61, right associativity).

Definition emit (e : event) : M unit := fun w => (Ret tt, log e w).

(** [print(line)] on a standard output that writes the line.  A
    standard output in UTF-8 has no encoding for a lone surrogate and
    raises [UnicodeEncodeError] on a line that holds one; which lines it
    takes is said by [goes_through] below. *)
Definition print (line : str) : M unit := emit (Print line).

(** The next outcome of a [requests] call; with no outcome left the call
    fails to connect. *)
Definition next_reply : M (Z * str) :=
  fun w =>
    match replies w with
    | Reply code text :: rest => (Ret (code, text), set_replies rest w)
    | NoReply :: rest => (Raise ConnectionError, set_replies rest w)
    | [] => (Raise ConnectionError, w)
    end.

Definition requests_post (url : str) (data : list (str * option str))
    (hdrs : list (str * str)) : M (Z * str) :=
  emit (Post url data hdrs) ;; next_reply.

Definition requests_get (url : str) (hdrs : list (str * str)) : M (Z * str) :=
  emit (Get url hdrs) ;; next_reply.

(** [response.json()]. *)
Definition response_json (text : str) : M json :=
  match json_loads text with
  | Some v => ret v
  | None => raise JSONDecodeError
  end.

(** ** Reference instances of the library parameters

    Simple stand-ins with which the development is run on concrete
    inputs.  [unquote_ascii] decodes the percent escapes of ASCII
    characters and leaves the others as they are; it agrees with
    [urllib.parse.unquote] on every string whose escapes are all below
    [%80]. *)

Fixpoint unquote_ascii (s : str) : str :=
  match s with
  | [] => []
  | c :: r =>
      match r with
      | h1 :: h2 :: r' =>
          match (if c =? 37 then hexval h1 else None), hexval h2 with
          | Some a, Some b =>
              if a * 16 + b <? 128 then a * 16 + b :: unquote_ascii r'
              else c :: unquote_ascii r
          | _, _ => c :: unquote_ascii r
          end
      | _ => c :: unquote_ascii r
      end
  end.

(** The bracket test of [urlsplit]. *)
Definition unbalanced_brackets (loc : str) : bool :=
  xorb (has_char 91 loc) (has_char 93 loc).

Definition opaque_repr (v : json) : str := lit "<object>".
Definition lexeme_repr (x : str) : str := x.

(** [bool(float(x))] for a float lexeme [x] of JSON.  [NaN] and the
    infinities are not zero.  A number with the digits [m] and the
    decimal exponent [k] is read as zero when [m] is zero or when
    [m * 10 ^ k] is at most [2 ^ -1075], half the smallest positive
    double, which rounds to zero. *)
Definition lexeme_truthy (x : str) : bool :=
  let s := match x with
           | c :: r => if c =? 45 then r else x
           | [] => x
           end in
  let (ip, r1) := span_digits s in
  match ip with
  | [] => true
  | _ :: _ =>
      let (frac, r2) :=
        match r1 with
        | c :: t => if c =? 46 then span_digits t else ([], r1)
        | [] => ([], r1)
        end in
      let e :=
        match r2 with
        | _ :: sg :: ds =>
            if sg =? 45 then - int_of_digits ds
            else if sg =? 43 then int_of_digits ds
            else int_of_digits (sg :: ds)
        | _ => 0
        end in
      let m := int_of_digits (ip ++ frac) in
      let k := e - Z.of_nat (length frac) in
      negb (m =? 0) && ((0 <=? k) || (10 ^ (- k) <? m * 2 ^ 1075))
  end.

(** ** Sample inputs

    The texts and worlds on which the properties below are exercised:
    a cached record, the provider's answers, and callbacks. *)

Definition quoted (s : string) : str := [34] ++ lit s ++ [34].
Arguments quoted s%_string.

(** A record kept by an earlier run. *)
Definition cached_text : str :=
  lit "{" ++ quoted "access_token" ++ lit ": " ++ quoted "OLD" ++ lit ", " ++
  quoted "person_urn" ++ lit ": " ++ quoted "urn:li:person:u42" ++ lit "}".

(** The provider's answer to the token exchange. *)
Definition granted_text : str :=
  lit "{" ++ quoted "access_token" ++ lit ": " ++ quoted "NEW" ++ lit ", " ++
  quoted "expires_in" ++ lit ": 5184000}".

(** The provider's answer to the userinfo request. *)
Definition profile_text : str :=
  lit "{" ++ quoted "sub" ++ lit ": " ++ quoted "u42" ++ lit ", " ++
  quoted "name" ++ lit ": " ++ quoted "Ann" ++ lit "}".

Definition code_request : connection :=
  Request (lit "GET") (lit "/callback?code=ABC123&state=linkedin_post_state").

Definition error_request : connection :=
  Request (lit "GET") (lit "/callback?error=access_denied").

(** The cached token is still valid. *)
Definition reuse_world : World :=
  {| token_file := Some cached_text; port_free := true; inbound := [];
     replies := [Reply 200 profile_text]; trace := [] |}.

(** The cached token is refused; the user first denies, then grants the
    authorization. *)
Definition stale_world : World :=
  {| token_file := Some cached_text; port_free := true;
     inbound := [error_request; code_request];
     replies := [Reply 401 (lit "expired"); Reply 200 granted_text;
                 Reply 200 profile_text];
     trace := [] |}.

(** The exchange succeeds and the userinfo request that follows it
    fails. *)
Definition broken_world : World :=
  {| token_file := Some cached_text; port_free := true;
     inbound := [code_request];
     replies := [Reply 200 granted_text; Reply 500 (lit "unavailable")];
     trace := [] |}.

(** Only error callbacks arrive. *)
Definition denied_world : World :=
  {| token_file := None; port_free := true;
     inbound := [error_request; error_request]; replies := []; trace := [] |}.

(** The cache file is there and holds no JSON text. *)
Definition corrupt_world : World :=
  {| token_file := Some (lit "{"); port_free := true;
     inbound := [code_request];
     replies := [Reply 200 granted_text; Reply 200 profile_text];
     trace := [] |}.


(** The provider refuses the exchange. *)
Definition refused_world : World :=
  {| token_file := Some cached_text; port_free := true;
     inbound := [code_request];
     replies := [Reply 400 (lit "invalid_request")];
     trace := [] |}.

(** The provider answers the exchange with an object that has no
    access token. *)
Definition tokenless_text : str :=
  lit "{" ++ quoted "error" ++ lit ": " ++ quoted "invalid_grant" ++ lit "}".

Definition tokenless_world : World :=
  {| token_file := Some cached_text; port_free := true;
     inbound := [code_request];
     replies := [Reply 200 tokenless_text; Reply 200 profile_text];
     trace := [] |}.

(** No cache; the authorization is granted at once. *)
Definition first_run_world : World :=
  {| token_file := None; port_free := true; inbound := [code_request];
     replies := [Reply 200 granted_text; Reply 200 profile_text];
     trace := [] |}.

(** The cache file holds a number. *)
Definition numeric_world : World :=
  {| token_file := Some (lit "42"); port_free := true;
     inbound := [code_request];
     replies := [Reply 200 granted_text; Reply 200 profile_text];
     trace := [] |}.

(** The provider reports a name that is a lone surrogate, which a
    standard output in UTF-8 cannot encode. *)
Definition surrogate_text : str :=
  lit "{" ++ quoted "sub" ++ lit ": " ++ quoted "u42" ++ lit ", " ++
  quoted "name" ++ lit ": " ++ quoted "\ud800" ++ lit "}".

Definition surrogate_world : World :=
  {| token_file := Some cached_text; port_free := true; inbound := [];
     replies := [Reply 200 surrogate_text]; trace := [] |}.

(** ** The script

    Parameters: what the script's library calls compute from the Unicode
    database or from floating point.
    - [unquote]: [urllib.parse.unquote] (percent-decoding as UTF-8 with
      replacement), which returns a string without a percent sign as it
      is;
    - [netloc_rejected]: the network locations for which [urlsplit]
      raises [ValueError] (bracketed hosts, NFKC check), never the empty
      one;
    - [py_repr]: [str()] of a list, a dict or a float;
    - [float_json]: the text [json.dump] prints for the float read from a
      lexeme; [float_truthy]: whether that float is non-zero. *)

Section Script.

Variable unquote : str -> str.
Variable netloc_rejected : str -> bool.
Variable py_repr : json -> str.
Variable float_json : str -> str.
Variable float_truthy : str -> bool.

Hypothesis unquote_plain : forall s, has_char 37 s = false -> unquote s = s.
Hypothesis netloc_rejected_empty : netloc_rejected [] = false.

(** *** [json.dump(..., indent=2)] *)

(** The replacement [py_encode_basestring_ascii] makes for one character. *)
Definition escape_char (c : Z) : str :=
  if c =? 92 then [92; 92]
  else if c =? 34 then [92; 34]
  else if c =? 8 then [92; 98]
  else if c =? 12 then [92; 102]
  else if c =? 10 then [92; 110]
  else if c =? 13 then [92; 114]
  else if c =? 9 then [92; 116]
  else if (32 <=? c) && (c <=? 126) then [c]
  else if c <? 65536 then 92 :: 117 :: hex4 c
  else
    let n := c - 65536 in
    let s1 := Z.lor 55296 (Z.land (Z.shiftr n 10) 1023) in
    let s2 := Z.lor 56320 (Z.land n 1023) in
    (92 :: 117 :: hex4 s1) ++ (92 :: 117 :: hex4 s2).

Definition encode_basestring_ascii (s : str) : str :=
  34 :: flat_map escape_char s ++ [34].

(** ['\n' + ' ' * (2 * level)]. *)
Definition newline_indent (level : nat) : str := 10 :: repeat 32 (2 * level).

Fixpoint iterencode (level : nat) (v : json) {struct v} : str :=
  match v with
  | JNull => lit "null"
  | JBool true => lit "true"
  | JBool false => lit "false"
  | JInt n => int_repr n
  | JFloat x => float_json x
  | JStr s => encode_basestring_ascii s
  | JArr [] => lit "[]"
  | JArr (x :: xs) =>
      [91] ++ newline_indent (S level) ++ iterencode (S level) x ++
      (fix items (l : list json) : str :=
         match l with
         | [] => []
         | y :: l' =>
             [44] ++ newline_indent (S level) ++ iterencode (S level) y ++ items l'
         end) xs ++
      newline_indent level ++ [93]
  | JObj [] => lit "{}"
  | JObj ((k, x) :: kvs) =>
      [123] ++ newline_indent (S level) ++
      encode_basestring_ascii k ++ [58; 32] ++ iterencode (S level) x ++
      (fix items (l : list (str * json)) : str :=
         match l with
         | [] => []
         | (k', y) :: l' =>
             [44] ++ newline_indent (S level) ++
             encode_basestring_ascii k' ++ [58; 32] ++ iterencode (S level) y ++
             items l'
         end) kvs ++
      newline_indent level ++ [125]
  end.

Definition json_dumps (v : json) : str := iterencode 0 v.

(** *** [urlparse] and [parse_qs] *)

(** [urlsplit(url)]; [None] is [ValueError]. *)
Definition urlsplit (url : str) : option ParseResult :=
  let url := remove_unsafe (lstrip_c0 url) in
  let (sch, url) := split_scheme url in
  let (loc, url) := split_netloc url in
  if netloc_rejected loc then None
  else
    let (url, frag) :=
      match split_once 35 url with Some (a, b) => (a, b) | None => (url, []) end in
    let (url, qry) :=
      match split_once 63 url with Some (a, b) => (a, b) | None => (url, []) end in
    Some {| scheme := sch; netloc := loc; path := url; params := [];
            query := qry; fragment := frag |}.

Definition urlparse (url : str) : option ParseResult :=
  match urlsplit url with
  | None => None
  | Some r =>
      if existsb (str_eqb (scheme r)) uses_params && has_char 59 (path r) then
        let (url, prm) := splitparams (path r) in
        Some {| scheme := scheme r; netloc := netloc r; path := url;
                params := prm; query := query r; fragment := fragment r |}
      else Some r
  end.

(** One [name=value] field of a query string, as [parse_qsl] reads it
    with its defaults: a field without [=] or with a blank value is
    dropped. *)
Definition name_value_pair (name_value : str) : list (str * str) :=
  match name_value with
  | [] => []
  | _ :: _ =>
      match split_once 61 name_value with
      | None => []
      | Some (name, []) => []
      | Some (name, value) =>
          [(unquote (replace_char 43 32 name),
            unquote (replace_char 43 32 value))]
      end
  end.

Definition parse_qsl (qs : str) : list (str * str) :=
  match qs with
  | [] => []
  | _ :: _ => flat_map name_value_pair (split_on 38 qs)
  end.

Definition parse_qs (qs : str) : list (str * list str) :=
  fold_left (fun d nv => qs_add (fst nv) (snd nv) d) (parse_qsl qs) [].

(** *** Python operations on parsed JSON *)

(** [bool(v)]. *)
Definition truthy (v : json) : bool :=
  match v with
  | JNull => false
  | JBool b => b
  | JInt n => negb (n =? 0)
  | JFloat x => float_truthy x
  | JStr s => match s with [] => false | _ :: _ => true end
  | JArr l => match l with [] => false | _ :: _ => true end
  | JObj d => match d with [] => false | _ :: _ => true end
  end.

(** [k in v] for a string [k]. *)
Definition py_in (k : str) (v : json) : M bool :=
  match v with
  | JObj d => ret (dict_has k d)
  | JArr l =>
      ret (existsb (fun x => match x with JStr s => str_eqb s k | _ => false end) l)
  | JStr s => ret (str_contains k s)
  | _ => raise TypeError
  end.

(** [v[k]] for a string [k]. *)
Definition getitem (v : json) (k : str) : M json :=
  match v with
  | JObj d =>
      match dict_get k d with
      | Some x => ret x
      | None => raise (KeyError k)
      end
  | _ => raise TypeError
  end.

(** [v.get(k, default)]. *)
Definition get_method (v : json) (k : str) (default : json) : M json :=
  match v with
  | JObj d =>
      match dict_get k d with
      | Some x => ret x
      | None => ret default
      end
  | _ => raise AttributeError
  end.

(** [v[k] = x] for a string [k]. *)
Definition setitem (v : json) (k : str) (x : json) : M json :=
  match v with
  | JObj d => ret (JObj (dict_set k x d))
  | _ => raise TypeError
  end.

(** [f"{v}"]. *)
Definition format_value (v : json) : str :=
  match v with
  | JNull => lit "None"
  | JBool true => lit "True"
  | JBool false => lit "False"
  | JInt n => int_repr n
  | JStr s => s
  | JFloat _ | JArr _ | JObj _ => py_repr v
  end.

Definition format_opt (o : option str) : str :=
  match o with
  | Some s => s
  | None => lit "None"
  end.

(** *** Configuration *)

(** [os.getenv] gives [None] for a variable that is not set. *)
Variable CLIENT_ID : option str.
Variable CLIENT_SECRET : option str.

Definition REDIRECT_URI : str := lit "http://localhost:8000/callback".
Definition SCOPES : str := lit "openid profile w_member_social".
Definition TOKEN_FILE : str := lit "linkedin_tokens.json".

(** *** [OAuthCallbackHandler] *)

(** The attribute the script adds to the [HTTPServer] object. *)
Record server := { auth_code : option str }.

Definition html_headers : list (str * str) :=
  [(lit "Content-type", lit "text/html")].

Definition success_page : list Z :=
  [10] ++ repeat 32 20 ++ lit "<html>" ++
  [10] ++ repeat 32 20 ++ lit "<body style=" ++ [34] ++
    lit "font-family: Arial; text-align: center; padding: 50px;" ++ [34] ++ lit ">" ++
  [10] ++ repeat 32 24 ++ lit "<h1>Authorization Successful!</h1>" ++
  [10] ++ repeat 32 24 ++
    lit "<p>You can close this window and return to the terminal.</p>" ++
  [10] ++ repeat 32 20 ++ lit "</body>" ++
  [10] ++ repeat 32 20 ++ lit "</html>" ++
  [10] ++ repeat 32 16.

Definition error_page (error : str) : str :=
  lit "<html><body><h1>Error: " ++ error ++ lit "</h1></body></html>".

(** [do_GET]: the new server attribute and the response sent; no
    response when the handler raises before sending one. *)
Definition do_GET (srv : server) (self_path : str) : server * option response :=
  match urlparse self_path with
  | None => (srv, None)
  | Some parsed =>
      if str_eqb (path parsed) (lit "/callback") then
        let query_params := parse_qs (query parsed) in
        match dict_get (lit "code") query_params with
        | Some values =>
            match values with
            | code :: _ =>
                ({| auth_code := Some code |},
                 Some {| status := 200; headers := html_headers;
                         body := success_page |})
            | [] => (srv, None)
            end
        | None =>
            let found :=
              match dict_get (lit "error") query_params with
              | Some values => values
              | None => [lit "Unknown error"]
              end in
            match found with
            | error :: _ =>
                (srv,
                 Some {| status := 400; headers := html_headers;
                         body := match utf8_encode (error_page error) with
                                 | Some bytes => bytes
                                 | None => []
                                 end |})
            | [] => (srv, None)
            end
        end
      else (srv, Some {| status := 404; headers := []; body := [] |})
  end.

(** [server.handle_request()]: waits for one connection and handles it.
    Only [GET] has a handler; the library answers 501 to other methods
    and 400 to a request it cannot parse.  [serve] is the handling of
    one accepted connection. *)
Definition serve (srv : server) (c : connection) : server * event :=
  match c with
  | Request command target =>
      if str_eqb command (lit "GET") then
        let (srv', r) := do_GET srv target in (srv', Served target r)
      else (srv, Rejected c 501)
  | Malformed => (srv, Rejected c 400)
  end.

Definition handle_request (srv : server) : M server :=
  fun w =>
    match inbound w with
    | [] => (Blocked, w)
    | c :: rest =>
        let (srv', ev) := serve srv c in
        (Ret srv', log ev (set_inbound rest w))
    end.

(** *** The token cache *)

(** [open(TOKEN_FILE, "w")] with [json.dump(tokens, f, indent=2)]. *)
Definition write_token_file (content : str) : M unit :=
  fun w => (Ret tt, log (WriteFile TOKEN_FILE content) (set_token_file content w)).

Definition save_tokens (tokens : json) : M unit :=
  write_token_file (json_dumps tokens) ;;
  print ([0x2705] ++ lit " Tokens saved to " ++ TOKEN_FILE).

Definition load_tokens : M (option json) :=
  fun w =>
    match token_file w with
    | Some content =>
        match json_loads content with
        | Some v => (Ret (Some v), w)
        | None => (Raise JSONDecodeError, w)
        end
    | None => (Ret None, w)
    end.

(** *** The authorization flow *)

Definition get_authorization_url : str :=
  lit "https://www.linkedin.com/oauth/v2/authorization?" ++
  lit "response_type=code&" ++
  lit "client_id=" ++ format_opt CLIENT_ID ++ lit "&" ++
  lit "redirect_uri=" ++ REDIRECT_URI ++ lit "&" ++
  lit "scope=" ++ SCOPES ++ lit "&" ++
  lit "state=linkedin_post_state".

(** [HTTPServer(("localhost", 8000), OAuthCallbackHandler)] followed by
    [server.auth_code = None]. *)
Definition HTTPServer : M server :=
  fun w =>
    if port_free w then
      (emit (Bind (lit "localhost") 8000) ;; ret {| auth_code := None |}) w
    else (Raise OSError, w).

(** [while server.auth_code is None: server.handle_request()].  Each
    round consumes one inbound connection, so [fuel] rounds are enough
    when [fuel] is the number of connections still to come. *)
Fixpoint wait_rounds (fuel : nat) (srv : server) : M server :=
  match auth_code srv with
  | Some _ => ret srv
  | None =>
      match fuel with
      | O => fun w => (Blocked, w)
      | S n => srv' <- handle_request srv ;; wait_rounds n srv'
      end
  end.

Definition wait_for_callback (srv : server) : M server :=
  fun w => wait_rounds (length (inbound w)) srv w.

Definition get_authorization_code : M (option str) :=
  print ([10; 0x1F510] ++ lit " Starting LinkedIn Authorization...") ;;
  print (repeat 61 50) ;;
  let auth_url := get_authorization_url in
  print ([10; 0x1F4CE] ++ lit " Opening browser for authorization...") ;;
  print (lit "   If browser doesn't open, visit this URL:" ++ [10] ++
         lit "   " ++ auth_url ++ [10]) ;;
  emit (OpenBrowser auth_url) ;;
  srv <- HTTPServer ;;
  print ([0x23F3] ++ lit " Waiting for authorization callback...") ;;
  srv <- wait_for_callback srv ;;
  print ([0x2705] ++ lit " Authorization code received!") ;;
  ret (auth_code srv).

Definition exchange_code_for_token (code : option str) : M json :=
  print ([10; 0x1F504] ++ lit " Exchanging code for access token...") ;;
  let token_url := lit "https://www.linkedin.com/oauth/v2/accessToken" in
  let payload :=
    [(lit "grant_type", Some (lit "authorization_code"));
     (lit "code", code);
     (lit "redirect_uri", Some REDIRECT_URI);
     (lit "client_id", CLIENT_ID);
     (lit "client_secret", CLIENT_SECRET)] in
  let hdrs := [(lit "Content-Type", lit "application/x-www-form-urlencoded")] in
  resp <- requests_post token_url payload hdrs ;;
  if fst resp =? 200 then
    tokens <- response_json (snd resp) ;;
    print ([0x2705] ++ lit " Access token obtained!") ;;
    expires <- get_method tokens (lit "expires_in") (JStr (lit "N/A")) ;;
    print (lit "   Token expires in: " ++ format_value expires ++ lit " seconds") ;;
    ret tokens
  else
    print ([0x274C] ++ lit " Error getting token: " ++ int_repr (fst resp)) ;;
    print (lit "   Response: " ++ snd resp) ;;
    raise (Exception (lit "Failed to get access token")).

Definition get_user_info (access_token : json) : M json :=
  print ([10; 0x1F464] ++ lit " Fetching user info...") ;;
  let url := lit "https://api.linkedin.com/v2/userinfo" in
  let hdrs := [(lit "Authorization", lit "Bearer " ++ format_value access_token)] in
  resp <- requests_get url hdrs ;;
  if fst resp =? 200 then
    user_info <- response_json (snd resp) ;;
    name <- get_method user_info (lit "name") (JStr (lit "Unknown")) ;;
    print ([0x2705] ++ lit " Logged in as: " ++ format_value name) ;;
    ret user_info
  else
    print ([0x274C] ++ lit " Error getting user info: " ++ int_repr (fst resp)) ;;
    print (lit "   Response: " ++ snd resp) ;;
    raise (Exception (lit "Failed to get user info")).

Definition person_urn_of (sub : json) : str :=
  lit "urn:li:person:" ++ format_value sub.

(** The body of the [try] in [authenticate]: the probe of a cached
    token. *)
Definition probe (access_token : json) : M (json * str) :=
  user_info <- get_user_info access_token ;;
  sub <- getitem user_info (lit "sub") ;;
  ret (access_token, person_urn_of sub).

(** [authenticate] from "Start fresh authentication" on. *)
Definition fresh_authentication : M (json * str) :=
  code <- get_authorization_code ;;
  tokens <- exchange_code_for_token code ;;
  save_tokens tokens ;;
  access_token <- getitem tokens (lit "access_token") ;;
  user_info <- get_user_info access_token ;;
  sub <- getitem user_info (lit "sub") ;;
  let person_urn := person_urn_of sub in
  tokens <- setitem tokens (lit "person_urn") (JStr person_urn) ;;
  name <- get_method user_info (lit "name") (JStr (lit "Unknown")) ;;
  tokens <- setitem tokens (lit "user_name") name ;;
  save_tokens tokens ;;
  ret (access_token, person_urn).

Definition authenticate : M (json * str) :=
  tokens <- load_tokens ;;
  match tokens with
  | Some tokens =>
      cached <- (if truthy tokens then py_in (lit "access_token") tokens
                 else ret false) ;;
      if cached then
        print ([0x1F4C2] ++ lit " Found existing tokens, attempting to use them...") ;;
        access_token <- getitem tokens (lit "access_token") ;;
        try_except (probe access_token)
          (print ([0x26A0; 0xFE0F] ++
                  lit " Existing token expired, re-authenticating...") ;;
           fresh_authentication)
      else fresh_authentication
  | None => fresh_authentication
  end.

(** [not v] for an environment variable. *)
Definition unset (v : option str) : bool :=
  match v with
  | None | Some [] => true
  | Some (_ :: _) => false
  end.

(** The [__main__] block. *)
Definition main : M unit :=
  if unset CLIENT_ID || unset CLIENT_SECRET then
    print ([10; 0x274C] ++ lit " ERROR: LinkedIn credentials not found!") ;;
    print ([10] ++ lit "Asegurate de tener un archivo .env con:") ;;
    print (lit "   LINKEDIN_CLIENT_ID=tu_client_id") ;;
    print (lit "   LINKEDIN_CLIENT_SECRET=tu_client_secret") ;;
    print ([10] ++ lit "O configura las variables de entorno:") ;;
    print (lit "   $env:LINKEDIN_CLIENT_ID='tu_client_id'") ;;
    print (lit "   $env:LINKEDIN_CLIENT_SECRET='tu_client_secret'")
  else
    print ([10] ++ repeat 61 60) ;;
    print ([0x1F535] ++ lit " LinkedIn Auth Flow") ;;
    print (repeat 61 60) ;;
    print ([10; 0x1F4CB] ++ lit " Redirect URI configurado: " ++ REDIRECT_URI) ;;
    print ([10; 0x26A0; 0xFE0F] ++
           lit " IMPORTANTE: Asegurate de que esta URL exacta este registrada") ;;
    print (lit "   en tu aplicacion de LinkedIn Developers:") ;;
    print (lit "   1. Ve a https://developer.linkedin.com/") ;;
    print (lit "   2. Abre tu aplicacion") ;;
    print (lit "   3. Ve a la pesta" ++ [0xF1] ++ lit "a 'Auth'") ;;
    print (lit "   4. En 'Redirect URLs' debe estar: " ++ REDIRECT_URI) ;;
    print (lit "   5. Si no esta, agregala y guarda los cambios" ++ [10]) ;;
    print (repeat 61 60) ;;
    authenticate ;;
    print ([10] ++ repeat 61 60) ;;
    print ([0x1F389] ++ lit " Authentication complete! Tokens saved.") ;;
    print (repeat 61 60).

(** *** Vocabulary of the properties *)

(** [target] is addressed to the callback path and its query string, as
    [parse_qs] reads it, has a [code] parameter whose first value is
    [code]. *)
Definition carries_code (target code : str) : Prop :=
  exists parsed more,
    urlparse target = Some parsed /\
    path parsed = lit "/callback" /\
    dict_get (lit "code") (parse_qs (query parsed)) = Some (code :: more).

(** [target] is addressed to the callback path and its query string has
    an [error] parameter, of first value [error], and no [code]
    parameter. *)
Definition carries_error_only (target error : str) : Prop :=
  exists parsed more,
    urlparse target = Some parsed /\
    path parsed = lit "/callback" /\
    dict_get (lit "code") (parse_qs (query parsed)) = None /\
    dict_get (lit "error") (parse_qs (query parsed)) = Some (error :: more).

(** The query string the specification describes: [name=value] pairs
    joined by an ampersand. *)
Fixpoint spec_query_string (pairs : list (str * str)) : str :=
  match pairs with
  | [] => []
  | [(k, v)] => k ++ [61] ++ v
  | (k, v) :: rest => k ++ [61] ++ v ++ [38] ++ spec_query_string rest
  end.

(** A parameter value that reaches [parse_qs] as it is written: not
    empty, and free of the separators [&] and [#], of the escapes [%]
    and [+], and of the characters [urlsplit] removes. *)
Definition reserved (x : Z) : bool :=
  (x =? 38) || (x =? 35) || (x =? 37) || (x =? 43) ||
  (x =? 9) || (x =? 10) || (x =? 13).

Definition plain_value (c : str) : bool :=
  match c with
  | [] => false
  | _ :: _ => forallb (fun x => negb (reserved x)) c
  end.

(** What may follow a parameter value in a request target: nothing,
    another parameter, or a fragment. *)
Definition continues_query (tail : str) : bool :=
  match tail with
  | [] => true
  | x :: _ => (x =? 38) || (x =? 35)
  end.

(** The part of a URL before its fragment. *)
Definition cut_fragment (u : str) : str :=
  match split_once 35 u with
  | Some (a, _) => a
  | None => u
  end.

(** A [name=value] field that [parse_qsl] reads back as it is written:
    no [&], [%] or [+], no [=] in the name, and a value that is not
    blank. *)
Definition field_char (x : Z) : bool :=
  negb ((x =? 38) || (x =? 37) || (x =? 43)).

Definition safe_field (kv : str * str) : bool :=
  forallb (fun x => field_char x && negb (x =? 61)) (fst kv) &&
  forallb field_char (snd kv) &&
  match snd kv with [] => false | _ :: _ => true end.

(** The listener with no code captured yet. *)
Definition waiting : server := {| auth_code := None |}.

(** Handling [c] leaves the code unset. *)
Definition no_capture (c : connection) : Prop :=
  auth_code (fst (serve waiting c)) = None.

(** The events left by handling [cs] one after the other while no code
    is captured, most recent first. *)
Definition handled (cs : list connection) : list event :=
  rev (map (fun c => snd (serve waiting c)) cs).

(** The world once the listener has handled [cs] and [rest] is still to
    come. *)
Definition after_callbacks (cs rest : list connection) (w : World) : World :=
  {| token_file := token_file w; port_free := port_free w;
     inbound := rest; replies := replies w;
     trace := handled cs ++ trace w |}.

(** A computation that never changes the token file, however it ends. *)
Definition keeps_file {A : Type} (m : M A) : Prop :=
  forall w, token_file (snd (m w)) = token_file w.

(** A computation after which the token file is as before whenever it
    does not return. *)
Definition fails_keeping {A : Type} (m : M A) : Prop :=
  forall w, (forall r, fst (m w) <> Ret r) ->
            token_file (snd (m w)) = token_file w.

(** The record the token exchange returns in the fresh flow started in
    [w], when the flow gets that far. *)
Definition exchanged (w : World) : option json :=
  match get_authorization_code w with
  | (Ret code, w1) =>
      match exchange_code_for_token code w1 with
      | (Ret tokens, _) => Some tokens
      | _ => None
      end
  | _ => None
  end.

(** Text made of Unicode scalar values: code points below [0x110000]
    that are not surrogates. *)
Definition scalar (c : Z) : bool :=
  (0 <=? c) && (c <? 1114112) && negb (is_surrogate c).

Definition text (s : str) : bool := forallb scalar s.

Fixpoint distinct (keys : list str) : bool :=
  match keys with
  | [] => true
  | k :: rest => negb (existsb (str_eqb k) rest) && distinct rest
  end.

(** The records the round trip of the cache is stated for: strings and
    keys are text, the keys of a dict are distinct (as they are in any
    Python dict), and there is no float. *)
Fixpoint well_formed (v : json) : bool :=
  match v with
  | JNull | JBool _ | JInt _ => true
  | JFloat _ => false
  | JStr s => text s
  | JArr l =>
      (fix all (l : list json) : bool :=
         match l with
         | [] => true
         | x :: r => well_formed x && all r
         end) l
  | JObj d =>
      distinct (map fst d) &&
      (fix all (l : list (str * json)) : bool :=
         match l with
         | [] => true
         | (k, x) :: r => text k && well_formed x && all r
         end) d
  end.

(** The number of nested parser calls a value needs. *)
Fixpoint weight (v : json) : nat :=
  match v with
  | JArr l =>
      S ((fix sum (l : list json) : nat :=
            match l with
            | [] => O
            | x :: r => S (weight x + sum r)
            end) l)
  | JObj d =>
      S ((fix sum (l : list (str * json)) : nat :=
            match l with
            | [] => O
            | (_, x) :: r => S (weight x + sum r)
            end) d)
  | _ => 1%nat
  end.

(** The token record of the specification's data model, as the dict the
    script saves at the end of a successful flow. *)
Definition token_record (access_token : str) (expires_in : Z)
    (person_urn user_name : str) : json :=
  JObj [(lit "access_token", JStr access_token);
        (lit "expires_in", JInt expires_in);
        (lit "person_urn", JStr person_urn);
        (lit "user_name", JStr user_name)].

(** What follows a value in the text [json.dump] writes: nothing, a
    comma or a line break. *)
Definition ends_value (rest : str) : bool :=
  match rest with
  | [] => true
  | c :: _ => (c =? 44) || (c =? 10)
  end.

(** The items of a list after the first, and the members of a dict
    after the first, as [json.dump] writes them at [level]. *)
Definition elements (level : nat) (xs : list json) : str :=
  flat_map
    (fun y => [44] ++ newline_indent (S level) ++ iterencode (S level) y) xs.

Definition members (level : nat) (kvs : list (str * json)) : str :=
  flat_map
    (fun kv =>
       [44] ++ newline_indent (S level) ++
       encode_basestring_ascii (fst kv) ++ [58; 32] ++
       iterencode (S level) (snd kv)) kvs.

Definition weights (xs : list json) : nat :=
  list_sum (map (fun x => S (weight x)) xs).

(** [json.loads] reads the text of [v] back, whatever the indentation
    level it was written at and whatever follows it. *)
Definition reads_back (v : json) : Prop :=
  well_formed v = true ->
  forall (level : nat) (rest : str) (fuel : nat),
    (weight v <= fuel)%nat ->
    ends_value rest = true ->
    scan_once fuel (iterencode level v ++ rest) = Some (v, rest).

Definition is_print (e : event) : bool :=
  match e with Print _ => true | _ => false end.

(** *** Request targets, fields and traces *)

(** A character that [urlsplit] keeps and that does not open the
    fragment. *)
Definition kept (x : Z) : bool :=
  negb ((x =? 35) || (x =? 9) || (x =? 10) || (x =? 13)).

(** A path that [urlparse] reads back as it is written in a request
    target: one leading slash (two would open a network location) and
    then no [?], [#] or [;], nor a character [urlsplit] removes. *)
Definition path_char (x : Z) : bool :=
  kept x && negb ((x =? 63) || (x =? 59)).

Definition plain_path (p : str) : bool :=
  match p with
  | [] => false
  | x :: r => (x =? 47) && negb (startswith [47] r) && forallb path_char r
  end.

(** What may follow the path in a request target: nothing, a query or a
    fragment. *)
Definition ends_path (tail : str) : bool :=
  match tail with
  | [] => true
  | x :: _ => (x =? 63) || (x =? 35)
  end.

(** The text of path parameters: what follows a [;] in the last segment
    of a path. *)
Definition params_text (prm : str) : bool :=
  forallb (fun x => kept x && negb ((x =? 63) || (x =? 47))) prm.

(** The text of a network location written in a request target: it
    runs up to the first [/], [?] or [#]. *)
Definition authority_text (host : str) : bool :=
  forallb (fun x => kept x && negb ((x =? 63) || (x =? 47))) host.

(** A field whose name and value reach [parse_qs] as they are
    written. *)
Definition plain_name (k : str) : bool :=
  forallb (fun x => negb (reserved x || (x =? 61))) k.

Definition plain_field (kv : str * str) : bool :=
  plain_name (fst kv) && plain_value (snd kv).

(** The values the fields named [k] have, in the order of the fields. *)
Definition values_of (k : str) (pairs : list (str * str)) : list str :=
  map snd (filter (fun kv => str_eqb k (fst kv)) pairs).

(** A value in which the plus sign is the only thing left to decode. *)
Definition form_value (c : str) : bool :=
  match c with
  | [] => false
  | _ :: _ => forallb (fun x => kept x && negb ((x =? 38) || (x =? 37))) c
  end.

(** A computation that only adds events to the trace. *)
Definition grows_trace {A : Type} (m : M A) : Prop :=
  forall w, exists recent, trace (snd (m w)) = recent ++ trace w.

(** The characters of a file that any locale encoding writes as they
    are: printable ASCII and the line feed. *)
Definition ascii_char (c : Z) : bool :=
  (c =? 10) || ((32 <=? c) && (c <=? 126)).

(** A value without floats. *)
Fixpoint float_free (v : json) : bool :=
  match v with
  | JFloat _ => false
  | JArr l =>
      (fix all (l : list json) : bool :=
         match l with
         | [] => true
         | x :: r => float_free x && all r
         end) l
  | JObj d =>
      (fix all (l : list (str * json)) : bool :=
         match l with
         | [] => true
         | (_, x) :: r => float_free x && all r
         end) d
  | _ => true
  end.

(** A computation that leaves a token file where there is one. *)
Definition keeps_cache {A : Type} (m : M A) : Prop :=
  forall w, token_file w <> None -> token_file (snd (m w)) <> None.




(** The lines [main] prints before it calls [authenticate]. *)
Definition announcement : list str :=
  [[10] ++ repeat 61 60;
   [0x1F535] ++ lit " LinkedIn Auth Flow";
   repeat 61 60;
   [10; 0x1F4CB] ++ lit " Redirect URI configurado: " ++ REDIRECT_URI;
   [10; 0x26A0; 0xFE0F] ++
     lit " IMPORTANTE: Asegurate de que esta URL exacta este registrada";
   lit "   en tu aplicacion de LinkedIn Developers:";
   lit "   1. Ve a https://developer.linkedin.com/";
   lit "   2. Abre tu aplicacion";
   lit "   3. Ve a la pesta" ++ [0xF1] ++ lit "a 'Auth'";
   lit "   4. En 'Redirect URLs' debe estar: " ++ REDIRECT_URI;
   lit "   5. Si no esta, agregala y guarda los cambios" ++ [10];
   repeat 61 60].

(** The lines [main] prints once [authenticate] has returned. *)
Definition completion : list str :=
  [[10] ++ repeat 61 60;
   [0x1F389] ++ lit " Authentication complete! Tokens saved.";
   repeat 61 60].

(** [w] with [lines] printed, the first one first. *)
Definition printed (lines : list str) (w : World) : World :=
  fold_left (fun w line => log (Print line) w) lines w.

(** *** What the library calls carry out

    [print] and [requests.post] encode text as UTF-8, which has no
    encoding for a lone surrogate; [requests.get] sends a header value
    as Latin-1 text without line breaks; the interpreter converts no
    integer of more than 4300 digits from or to text; and [json] nests
    its calls as deep as the document is nested.  On other values these
    calls raise, where the script above goes on.  The properties that
    promise a result name the values they are about, and say of the run
    they describe that it was [carried_out]. *)

(** A header value [http.client] sends: Latin-1 characters without
    line breaks. *)
Definition header_text (s : str) : bool :=
  forallb
    (fun c => (0 <=? c) && (c <=? 255) && negb ((c =? 10) || (c =? 13))) s.

(** A form value [requests] encodes; [None] is left out of the form. *)
Definition form_text (v : option str) : bool :=
  match v with
  | Some s => text s
  | None => true
  end.

(** An event whose library call takes the text it is given. *)
Definition goes_through (e : event) : bool :=
  match e with
  | Print line => text line
  | OpenBrowser url => text url
  | Post _ data _ => forallb (fun kv => form_text (snd kv)) data
  | Get _ hdrs => forallb (fun h => header_text (snd h)) hdrs
  | Bind _ _ | Served _ _ | Rejected _ _ | WriteFile _ _ => true
  end.

(** Every call made so far was carried out. *)
Definition carried_out (w : World) : bool := forallb goes_through (trace w).

(** [sys.get_int_max_str_digits()]. *)
Definition max_str_digits : Z := 4300.

(** An integer that [str] and [json.dump] write: its numeral has at most
    [max_str_digits] digits. *)
Definition int_fits (n : Z) : bool :=
  Z.of_nat (length (int_repr (Z.abs n))) <=? max_str_digits.

(** The nesting the properties go up to, far below the recursion limit
    of the interpreter. *)
Definition max_nesting : nat := 100.

(** No more than [max_str_digits] digits stand in a row, [run] of them
    having been met. *)
Fixpoint digit_runs_fit (run : Z) (s : str) : bool :=
  match s with
  | [] => true
  | c :: r =>
      if is_digit c then (run <? max_str_digits) && digit_runs_fit (run + 1) r
      else digit_runs_fit 0 r
  end.

Definition opens_nesting (c : Z) : bool := (c =? 91) || (c =? 123).

(** A text that [json.loads] reads within the limits of the
    interpreter: no integer literal of it has more digits than stand in
    a row, and it is nested no deeper than it has brackets and braces. *)
Definition text_within_limits (s : str) : bool :=
  digit_runs_fit 0 s && (length (filter opens_nesting s) <=? max_nesting)%nat.

Fixpoint depth (v : json) : nat :=
  match v with
  | JArr l =>
      S ((fix deepest (l : list json) : nat :=
            match l with
            | [] => O
            | x :: r => Nat.max (depth x) (deepest r)
            end) l)
  | JObj d =>
      S ((fix deepest (l : list (str * json)) : nat :=
            match l with
            | [] => O
            | (_, x) :: r => Nat.max (depth x) (deepest r)
            end) d)
  | _ => O
  end.

Fixpoint ints_fit (v : json) : bool :=
  match v with
  | JInt n => int_fits n
  | JArr l =>
      (fix all (l : list json) : bool :=
         match l with
         | [] => true
         | x :: r => ints_fit x && all r
         end) l
  | JObj d =>
      (fix all (l : list (str * json)) : bool :=
         match l with
         | [] => true
         | (_, x) :: r => ints_fit x && all r
         end) d
  | _ => true
  end.

(** A value that [json.dump] writes, and [str] formats, within the
    limits of the interpreter. *)
Definition value_within_limits (v : json) : bool :=
  ints_fit v && (depth v <=? max_nesting)%nat.

(** A computation after which every call has been carried out, when it
    was so before. *)
Definition stays_carried_out {A : Type} (m : M A) : Prop :=
  forall w, carried_out w = true -> carried_out (snd (m w)) = true.

(** ** Properties *)

(** *** Text *)

Lemma str_eqb_eq (a b : str) : str_eqb a b = true <-> a = b.
Proof.
  revert b; induction a as [|x a IH]; intros [|y b]; simpl; split;
    try congruence; try reflexivity.
  - intros H. apply andb_true_iff in H as [Hx Hr].
    apply Z.eqb_eq in Hx. apply IH in Hr. congruence.
  - intros H. injection H as -> ->.
    rewrite Z.eqb_refl. simpl. now apply IH.
Qed.

Lemma str_eqb_refl (a : str) : str_eqb a a = true.
Proof. now apply str_eqb_eq. Qed.

Lemma utf8_encode_app (a b : str) :
  utf8_encode (a ++ b) =
  match utf8_encode a, utf8_encode b with
  | Some x, Some y => Some (x ++ y)
  | _, _ => None
  end.
Proof.
  induction a as [|c a IH]; simpl.
  - now destruct (utf8_encode b).
  - rewrite IH. destruct (utf8_char c), (utf8_encode a), (utf8_encode b);
      try reflexivity.
    now rewrite app_assoc.
Qed.

(** *** The callback receiver *)

Lemma do_GET_code (srv : server) (target code : str) :
  carries_code target code ->
  do_GET srv target =
    ({| auth_code := Some code |},
     Some {| status := 200; headers := html_headers; body := success_page |}).
Proof.
  intros (parsed & more & Hparse & Hpath & Hcode).
  unfold do_GET. rewrite Hparse, Hpath, str_eqb_refl, Hcode. reflexivity.
Qed.

Lemma do_GET_error (srv : server) (target error : str) :
  carries_error_only target error ->
  do_GET srv target =
    (srv,
     Some {| status := 400; headers := html_headers;
             body := match utf8_encode (error_page error) with
                     | Some bytes => bytes
                     | None => []
                     end |}).
Proof.
  intros (parsed & more & Hparse & Hpath & Hcode & Herr).
  unfold do_GET. rewrite Hparse, Hpath, str_eqb_refl, Hcode, Herr. reflexivity.
Qed.

Lemma error_page_bytes (error bytes : str) :
  utf8_encode error = Some bytes ->
  utf8_encode (error_page error) =
    Some (lit "<html><body><h1>Error: " ++ bytes ++ lit "</h1></body></html>").
Proof.
  intros Hb. unfold error_page. rewrite !utf8_encode_app, Hb. reflexivity.
Qed.

(** *** Configuration *)

Lemma main_without_credentials (w : World) :
  unset CLIENT_ID || unset CLIENT_SECRET = true ->
  main w =
    (Ret tt,
     {| token_file := token_file w; port_free := port_free w;
        inbound := inbound w; replies := replies w;
        trace :=
          rev (map Print
            [[10; 0x274C] ++ lit " ERROR: LinkedIn credentials not found!";
             [10] ++ lit "Asegurate de tener un archivo .env con:";
             lit "   LINKEDIN_CLIENT_ID=tu_client_id";
             lit "   LINKEDIN_CLIENT_SECRET=tu_client_secret";
             [10] ++ lit "O configura las variables de entorno:";
             lit "   $env:LINKEDIN_CLIENT_ID='tu_client_id'";
             lit "   $env:LINKEDIN_CLIENT_SECRET='tu_client_secret'"])
          ++ trace w |}).
Proof.
  intros H. unfold main. rewrite H. reflexivity.
Qed.


(** *** Request targets written out *)

Lemma has_char_false (c : Z) (s : str) :
  has_char c s = false <-> Forall (fun x => x <> c) s.
Proof.
  unfold has_char. induction s as [|x s IH]; simpl.
  - split; [constructor | reflexivity].
  - rewrite orb_false_iff, IH, Z.eqb_neq. split.
    + intros [H1 H2]. constructor; congruence.
    + intros H. inversion H; subst. split; congruence.
Qed.

Lemma split_once_app (c : Z) (a b : str) :
  has_char c a = false ->
  split_once c (a ++ b) =
    match split_once c b with
    | Some (x, y) => Some (a ++ x, y)
    | None => None
    end.
Proof.
  intros H. apply has_char_false in H.
  induction H as [|x a Hx _ IH]; simpl.
  - now destruct (split_once c b) as [[? ?]|].
  - apply Z.eqb_neq in Hx. rewrite Hx, IH.
    now destruct (split_once c b) as [[? ?]|].
Qed.

Lemma split_once_none (c : Z) (a : str) :
  has_char c a = false -> split_once c a = None.
Proof.
  intros H. rewrite <- (app_nil_r a), (split_once_app c a [] H). reflexivity.
Qed.

Lemma split_on_single (c : Z) (a : str) :
  has_char c a = false -> split_on c a = [a].
Proof.
  intros H. apply has_char_false in H.
  induction H as [|x a Hx _ IH]; simpl; [reflexivity|].
  apply Z.eqb_neq in Hx. now rewrite Hx, IH.
Qed.

Lemma split_on_app (c : Z) (a b : str) :
  has_char c a = false -> split_on c (a ++ c :: b) = a :: split_on c b.
Proof.
  intros H. apply has_char_false in H.
  induction H as [|x a Hx _ IH]; simpl.
  - now rewrite Z.eqb_refl.
  - apply Z.eqb_neq in Hx. now rewrite Hx, IH.
Qed.

Lemma replace_char_id (a b : Z) (s : str) :
  has_char a s = false -> replace_char a b s = s.
Proof.
  intros H. apply has_char_false in H. unfold replace_char.
  induction H as [|x s Hx _ IH]; simpl; [reflexivity|].
  apply Z.eqb_neq in Hx. now rewrite Hx, IH.
Qed.

Lemma plain_value_forall (c : str) :
  plain_value c = true -> c <> [] /\ Forall (fun x => reserved x = false) c.
Proof.
  unfold plain_value. destruct c as [|x0 c0]; [discriminate|].
  intros H. split; [discriminate|].
  apply Forall_forall. intros x Hx.
  rewrite forallb_forall in H. apply H in Hx. now apply negb_true_iff in Hx.
Qed.

Lemma plain_value_has_char (c : str) (x : Z) :
  plain_value c = true -> reserved x = true -> has_char x c = false.
Proof.
  intros H Hx. apply plain_value_forall in H as [_ H].
  apply has_char_false. eapply Forall_impl; [|exact H].
  intros y Hy ->. congruence.
Qed.

Lemma plain_value_safe (c : str) :
  plain_value c = true -> remove_unsafe c = c.
Proof.
  intros H. apply plain_value_forall in H as [_ H]. unfold remove_unsafe.
  induction H as [|x c Hx _ IH]; simpl; [reflexivity|].
  rewrite IH. unfold reserved in Hx.
  repeat (apply orb_false_iff in Hx as [Hx ?]).
  replace (x =? 9) with false by auto. replace (x =? 13) with false by auto.
  replace (x =? 10) with false by auto. reflexivity.
Qed.

Lemma remove_unsafe_app (a b : str) :
  remove_unsafe (a ++ b) = remove_unsafe a ++ remove_unsafe b.
Proof. apply filter_app. Qed.

Lemma split_scheme_slash (r : str) : split_scheme (47 :: r) = ([], 47 :: r).
Proof.
  unfold split_scheme. simpl.
  destruct (split_once 58 r) as [[a b]|]; reflexivity.
Qed.

(** How [urlparse] reads a target addressed to the callback path. *)
Lemma urlparse_callback (q : str) :
  exists frag,
    urlparse (lit "/callback?" ++ q) =
      Some {| scheme := []; netloc := []; path := lit "/callback"; params := [];
              query := cut_fragment (remove_unsafe q); fragment := frag |}.
Proof.
  unfold urlparse, urlsplit.
  change (lit "/callback?") with (47 :: lit "callback?").
  cbn [app lstrip_c0]. change ((0 <=? 47) && (47 <=? 32)) with false. cbv iota.
  change (47 :: lit "callback?" ++ q) with ((47 :: lit "callback?") ++ q).
  rewrite remove_unsafe_app.
  change (remove_unsafe (47 :: lit "callback?")) with (47 :: lit "callback?").
  cbn [app]. rewrite split_scheme_slash.
  change (split_netloc (47 :: lit "callback?" ++ remove_unsafe q))
    with (@nil Z, (lit "/callback" ++ [63]) ++ remove_unsafe q).
  cbv beta iota. rewrite netloc_rejected_empty.
  assert (Hq : forall u, split_once 63 ((lit "/callback" ++ [63]) ++ u)
                         = Some (lit "/callback", u)).
  { intros u. rewrite <- app_assoc.
    rewrite (split_once_app 63 (lit "/callback") ([63] ++ u)) by reflexivity.
    change (split_once 63 ([63] ++ u)) with (Some (@nil Z, u)).
    cbv iota. now rewrite app_nil_r. }
  rewrite (split_once_app 35 (lit "/callback" ++ [63]) (remove_unsafe q))
    by reflexivity.
  unfold cut_fragment.
  destruct (split_once 35 (remove_unsafe q)) as [[a b]|]; rewrite Hq;
    eexists; reflexivity.
Qed.

Lemma parse_qsl_fields (qs : str) :
  parse_qsl qs = flat_map name_value_pair (split_on 38 qs).
Proof. destruct qs; reflexivity. Qed.

Lemma name_value_pair_plain (name value : str) :
  has_char 61 name = false ->
  has_char 37 name = false -> has_char 43 name = false ->
  has_char 37 value = false -> has_char 43 value = false ->
  value <> [] ->
  name_value_pair (name ++ 61 :: value) = [(name, value)].
Proof.
  intros H61 Hn37 Hn43 Hv37 Hv43 Hv. unfold name_value_pair.
  rewrite (split_once_app 61 name (61 :: value) H61). simpl.
  rewrite app_nil_r.
  rewrite !replace_char_id, !unquote_plain by assumption.
  destruct value as [|v0 value]; [congruence|].
  destruct name; reflexivity.
Qed.

Lemma qs_add_keeps_first (k name value v : str) (vs : list str)
    (d : list (str * list str)) :
  dict_get k d = Some (v :: vs) ->
  exists vs', dict_get k (qs_add name value d) = Some (v :: vs').
Proof.
  induction d as [|[k' vs0] d IH]; simpl; [discriminate|].
  destruct (str_eqb k k') eqn:Hk; intros H.
  - injection H as ->. destruct (str_eqb name k'); simpl; rewrite Hk;
      eexists; reflexivity.
  - destruct (str_eqb name k'); simpl; rewrite Hk; [eexists; eassumption|].
    now apply IH.
Qed.

Lemma fold_qs_add_keeps_first (k v : str) (pairs : list (str * str)) :
  forall (vs : list str) (d : list (str * list str)),
    dict_get k d = Some (v :: vs) ->
    exists vs',
      dict_get k (fold_left (fun d nv => qs_add (fst nv) (snd nv) d) pairs d)
      = Some (v :: vs').
Proof.
  induction pairs as [|[n x] pairs IH]; intros vs d H; simpl.
  - eexists; eassumption.
  - destruct (qs_add_keeps_first k n x v vs d H) as [vs' H'].
    eapply IH; eassumption.
Qed.

(** A plain [code] value written first in the query string is the first
    value [parse_qs] files under [code], whatever follows it. *)
Lemma parse_qs_code_first (c tail : str) :
  plain_value c = true ->
  tail = [] \/ (exists t, tail = 38 :: t) ->
  exists more,
    dict_get (lit "code") (parse_qs (lit "code=" ++ c ++ tail)) = Some (c :: more).
Proof.
  intros Hc Htail.
  assert (Hitem : name_value_pair (lit "code=" ++ c) = [(lit "code", c)]).
  { change (lit "code=" ++ c) with (lit "code" ++ 61 :: c).
    apply name_value_pair_plain; try reflexivity;
      try (apply plain_value_has_char; [assumption | reflexivity]).
    now apply plain_value_forall in Hc. }
  assert (H38 : has_char 38 (lit "code=" ++ c) = false).
  { unfold has_char. rewrite existsb_app.
    change (existsb (Z.eqb 38) c) with (has_char 38 c).
    rewrite (plain_value_has_char c 38 Hc eq_refl). reflexivity. }
  unfold parse_qs. rewrite parse_qsl_fields.
  destruct Htail as [-> | [t ->]].
  - rewrite app_nil_r, (split_on_single 38 _ H38).
    cbn [flat_map]. rewrite Hitem.
    cbn [app fold_left qs_add fst snd dict_get]. rewrite str_eqb_refl.
    eexists; reflexivity.
  - rewrite app_assoc, (split_on_app 38 _ t H38).
    cbn [flat_map]. rewrite Hitem.
    cbn [app fold_left qs_add fst snd].
    apply fold_qs_add_keeps_first with (vs := []).
    cbn [dict_get]. now rewrite str_eqb_refl.
Qed.

Lemma cut_fragment_app (a t : str) :
  has_char 35 a = false -> cut_fragment (a ++ t) = a ++ cut_fragment t.
Proof.
  intros H. unfold cut_fragment. rewrite (split_once_app 35 a t H).
  now destruct (split_once 35 t) as [[x y]|].
Qed.

Lemma cut_fragment_continues (tail : str) :
  continues_query tail = true ->
  cut_fragment (remove_unsafe tail) = [] \/
  exists t, cut_fragment (remove_unsafe tail) = 38 :: t.
Proof.
  destruct tail as [|x t]; simpl; [now left|].
  intros H. apply orb_true_iff in H as [H | H]; apply Z.eqb_eq in H; subst x.
  - right. unfold remove_unsafe, cut_fragment. simpl.
    destruct (split_once 35 _) as [[a b]|]; eexists; reflexivity.
  - left. reflexivity.
Qed.

(** A request target written [/callback?code=c], alone or followed by
    further parameters or a fragment, carries the code [c]. *)
Lemma literal_code_request (c tail : str) :
  plain_value c = true ->
  continues_query tail = true ->
  carries_code (lit "/callback?code=" ++ c ++ tail) c.
Proof.
  intros Hc Htail.
  change (lit "/callback?code=") with (lit "/callback?" ++ lit "code=").
  rewrite <- app_assoc.
  destruct (urlparse_callback (lit "code=" ++ c ++ tail)) as [frag Hparse].
  assert (Hq : cut_fragment (remove_unsafe (lit "code=" ++ c ++ tail))
               = lit "code=" ++ c ++ cut_fragment (remove_unsafe tail)).
  { rewrite !remove_unsafe_app, (plain_value_safe c Hc).
    change (remove_unsafe (lit "code=")) with (lit "code=").
    rewrite app_assoc, cut_fragment_app, <- app_assoc; [reflexivity|].
    unfold has_char. rewrite existsb_app.
    change (existsb (Z.eqb 35) c) with (has_char 35 c).
    now rewrite (plain_value_has_char c 35 Hc eq_refl). }
  destruct (parse_qs_code_first c (cut_fragment (remove_unsafe tail)) Hc
              (cut_fragment_continues tail Htail)) as [more Hmore].
  eexists; exists more. split; [exact Hparse|]. split; [reflexivity|].
  cbn [query]. rewrite Hq. exact Hmore.
Qed.

(** A request target written [/callback?error=e] carries the error [e]
    and no code. *)
Lemma literal_error_request (e : str) :
  plain_value e = true ->
  carries_error_only (lit "/callback?error=" ++ e) e.
Proof.
  intros He.
  change (lit "/callback?error=") with (lit "/callback?" ++ lit "error=").
  rewrite <- app_assoc.
  destruct (urlparse_callback (lit "error=" ++ e)) as [frag Hparse].
  assert (H35 : has_char 35 (lit "error=" ++ e) = false).
  { unfold has_char. rewrite existsb_app.
    change (existsb (Z.eqb 35) e) with (has_char 35 e).
    now rewrite (plain_value_has_char e 35 He eq_refl). }
  assert (H38 : has_char 38 (lit "error=" ++ e) = false).
  { unfold has_char. rewrite existsb_app.
    change (existsb (Z.eqb 38) e) with (has_char 38 e).
    now rewrite (plain_value_has_char e 38 He eq_refl). }
  assert (Hq : cut_fragment (remove_unsafe (lit "error=" ++ e))
               = lit "error=" ++ e).
  { rewrite remove_unsafe_app, (plain_value_safe e He).
    change (remove_unsafe (lit "error=")) with (lit "error=").
    unfold cut_fragment. now rewrite (split_once_none 35 _ H35). }
  assert (Hitem : name_value_pair (lit "error=" ++ e) = [(lit "error", e)]).
  { change (lit "error=" ++ e) with (lit "error" ++ 61 :: e).
    apply name_value_pair_plain; try reflexivity;
      try (apply plain_value_has_char; [assumption | reflexivity]).
    now apply plain_value_forall in He. }
  assert (Hqs : parse_qs (lit "error=" ++ e) = [(lit "error", [e])]).
  { unfold parse_qs. rewrite parse_qsl_fields, (split_on_single 38 _ H38).
    cbn [flat_map]. rewrite Hitem. reflexivity. }
  eexists; exists []. split; [exact Hparse|]. split; [reflexivity|].
  cbn [query]. rewrite Hq, Hqs. split; reflexivity.
Qed.

(** C4.  A GET request to the callback path whose query string has a
    [code] parameter makes the receiver store exactly the first value of
    that parameter and answer 200 with the fixed success page: an HTML
    page, sent as [text/html], that says ["Authorization Successful!"]
    and asks the user to go back to the terminal, byte for byte the
    literal of the handler.  So it is for every target written
    [/callback?code=c], alone or followed by further parameters or by a
    fragment: exactly [c] is stored. *)
Theorem callback_with_code_is_captured (srv : server) :
  let page :=
    [10] ++ lit "                    <html>" ++
    [10] ++ lit "                    <body style=" ++ [34] ++
      lit "font-family: Arial; text-align: center; padding: 50px;" ++ [34] ++
      lit ">" ++
    [10] ++ lit "                        <h1>Authorization Successful!</h1>" ++
    [10] ++ lit "                        <p>You can close this window and return to the terminal.</p>" ++
    [10] ++ lit "                    </body>" ++
    [10] ++ lit "                    </html>" ++
    [10] ++ lit "                " in
  let answer :=
    Some {| status := 200;
            headers := [(lit "Content-type", lit "text/html")];
            body := page |} in
  (forall target code,
     carries_code target code ->
     do_GET srv target = ({| auth_code := Some code |}, answer)) /\
  (forall c tail,
     plain_value c = true ->
     continues_query tail = true ->
     do_GET srv (lit "/callback?code=" ++ c ++ tail) =
       ({| auth_code := Some c |}, answer)).
Proof.
  intros page answer.
  assert (Hpage : success_page = page) by reflexivity.
  split.
  - intros target code (parsed & more & Hparse & Hpath & Hcode).
    unfold do_GET. rewrite Hparse, Hpath, str_eqb_refl, Hcode, Hpage.
    reflexivity.
  - intros c tail Hc Htail.
    destruct (literal_code_request c tail Hc Htail)
      as (parsed & more & Hparse & Hpath & Hcode).
    unfold do_GET. rewrite Hparse, Hpath, str_eqb_refl, Hcode, Hpage.
    reflexivity.
Qed.

(** C5.  A GET request to the callback path whose query string has an
    [error] parameter and no [code] parameter is answered 400 with a
    page that echoes the error value, and the captured code is left as
    it was.  So it is for every target written [/callback?error=e]. *)
Theorem callback_with_error_is_refused (srv : server) :
  (forall target error,
     carries_error_only target error ->
     fst (do_GET srv target) = srv /\
     exists page,
       snd (do_GET srv target) =
         Some {| status := 400; headers := html_headers; body := page |} /\
       forall bytes,
         utf8_encode error = Some bytes ->
         page =
           lit "<html><body><h1>Error: " ++ bytes ++ lit "</h1></body></html>") /\
  (forall e bytes,
     plain_value e = true ->
     utf8_encode e = Some bytes ->
     do_GET srv (lit "/callback?error=" ++ e) =
       (srv,
        Some {| status := 400; headers := html_headers;
                body := lit "<html><body><h1>Error: " ++ bytes ++
                        lit "</h1></body></html>" |})).
Proof.
  split.
  - intros target error H. rewrite (do_GET_error srv target error H).
    split; [reflexivity|]. eexists. split; [reflexivity|].
    intros bytes Hb. now rewrite (error_page_bytes error bytes Hb).
  - intros e bytes He Hb.
    rewrite (do_GET_error srv _ e (literal_error_request e He)).
    now rewrite (error_page_bytes e bytes Hb).
Qed.

(** C10.  The receiver never looks at the [state] parameter.  Two
    requests that carry the same code are handled alike, whatever else
    their query strings hold: the code is captured and the answer is
    200 with the success page in both.  In particular a request written
    [/callback?code=c&state=s] is handled the same for every [s], and
    the same as the request without [state]. *)
Theorem callback_ignores_state (srv : server) :
  (forall target1 target2 code,
     carries_code target1 code ->
     carries_code target2 code ->
     do_GET srv target1 = do_GET srv target2 /\
     do_GET srv target1 =
       ({| auth_code := Some code |},
        Some {| status := 200; headers := html_headers;
                body := success_page |})) /\
  (forall c st1 st2,
     plain_value c = true ->
     do_GET srv (lit "/callback?code=" ++ c ++ lit "&state=" ++ st1) =
     do_GET srv (lit "/callback?code=" ++ c ++ lit "&state=" ++ st2) /\
     do_GET srv (lit "/callback?code=" ++ c ++ lit "&state=" ++ st1) =
     do_GET srv (lit "/callback?code=" ++ c) /\
     do_GET srv (lit "/callback?code=" ++ c ++ lit "&state=" ++ st1) =
       ({| auth_code := Some c |},
        Some {| status := 200; headers := html_headers;
                body := success_page |})).
Proof.
  split.
  - intros target1 target2 code H1 H2.
    now rewrite (do_GET_code srv _ code H1), (do_GET_code srv _ code H2).
  - intros c st1 st2 Hc.
    assert (H1 := literal_code_request c (lit "&state=" ++ st1) Hc eq_refl).
    assert (H2 := literal_code_request c (lit "&state=" ++ st2) Hc eq_refl).
    assert (H0 := literal_code_request c [] Hc eq_refl).
    rewrite app_nil_r in H0.
    rewrite (do_GET_code srv _ c H1), (do_GET_code srv _ c H2),
      (do_GET_code srv _ c H0).
    repeat split.
Qed.

(** *** The authorization URL *)

Lemma forallb_has_char (p : Z -> bool) (c : Z) (s : str) :
  forallb p s = true -> p c = false -> has_char c s = false.
Proof.
  intros H Hc. apply has_char_false. apply Forall_forall. intros x Hx ->.
  rewrite forallb_forall in H. apply H in Hx. congruence.
Qed.

Lemma safe_field_pair (k v : str) :
  safe_field (k, v) = true -> name_value_pair (k ++ 61 :: v) = [(k, v)].
Proof.
  unfold safe_field. cbn [fst snd]. intros H.
  apply andb_true_iff in H as [H Hv0]. apply andb_true_iff in H as [Hk Hv].
  apply name_value_pair_plain.
  - apply (forallb_has_char _ 61 k Hk). reflexivity.
  - apply (forallb_has_char _ 37 k Hk). reflexivity.
  - apply (forallb_has_char _ 43 k Hk). reflexivity.
  - apply (forallb_has_char _ 37 v Hv). reflexivity.
  - apply (forallb_has_char _ 43 v Hv). reflexivity.
  - destruct v; [discriminate | discriminate].
Qed.

Lemma safe_field_no_amp (k v : str) :
  safe_field (k, v) = true -> has_char 38 (k ++ 61 :: v) = false.
Proof.
  unfold safe_field. cbn [fst snd]. intros H.
  apply andb_true_iff in H as [H _]. apply andb_true_iff in H as [Hk Hv].
  unfold has_char. rewrite existsb_app. cbn [existsb].
  change (existsb (Z.eqb 38) k) with (has_char 38 k).
  change (existsb (Z.eqb 38) v) with (has_char 38 v).
  rewrite (forallb_has_char _ 38 k Hk eq_refl),
    (forallb_has_char _ 38 v Hv eq_refl).
  reflexivity.
Qed.

(** [parse_qsl] reads a query string of safe fields back as the fields
    it was written from. *)
Lemma parse_qsl_spec_query_string (pairs : list (str * str)) :
  forallb safe_field pairs = true ->
  parse_qsl (spec_query_string pairs) = pairs.
Proof.
  induction pairs as [|[k v] rest IH]; [reflexivity|].
  cbn [forallb]. intros H. apply andb_true_iff in H as [Hkv Hrest].
  rewrite parse_qsl_fields.
  destruct rest as [|kv' rest].
  - cbn [spec_query_string app].
    rewrite (split_on_single 38 _ (safe_field_no_amp k v Hkv)).
    cbn [flat_map]. rewrite (safe_field_pair k v Hkv). reflexivity.
  - change (spec_query_string ((k, v) :: kv' :: rest))
      with (k ++ [61] ++ v ++ [38] ++ spec_query_string (kv' :: rest)).
    replace (k ++ [61] ++ v ++ [38] ++ spec_query_string (kv' :: rest))
      with ((k ++ 61 :: v) ++ 38 :: spec_query_string (kv' :: rest))
      by (rewrite <- app_assoc; reflexivity).
    rewrite (split_on_app 38 _ _ (safe_field_no_amp k v Hkv)).
    cbn [flat_map]. rewrite (safe_field_pair k v Hkv).
    rewrite <- parse_qsl_fields, (IH Hrest). reflexivity.
Qed.

(** C7.  The authorization URL is a fixed text: the provider's
    authorization endpoint, a question mark, and the five parameters
    [response_type=code], [client_id], [redirect_uri], [scope] and
    [state] in this order.  It is a function of the client id alone: no
    part of the world enters it.  When the client id is free of query
    separators, [parse_qsl] reads exactly these five parameters back
    from the query string. *)
Theorem authorization_url_is_fixed_text :
  let parameters :=
    [(lit "response_type", lit "code");
     (lit "client_id", format_opt CLIENT_ID);
     (lit "redirect_uri", REDIRECT_URI);
     (lit "scope", SCOPES);
     (lit "state", lit "linkedin_post_state")] in
  get_authorization_url =
    lit "https://www.linkedin.com/oauth/v2/authorization" ++ [63] ++
    spec_query_string parameters /\
  (safe_field (lit "client_id", format_opt CLIENT_ID) = true ->
   parse_qsl (spec_query_string parameters) = parameters).
Proof.
  intros parameters. split.
  2:{ intros Hid. apply parse_qsl_spec_query_string. unfold parameters.
      cbn [forallb]. rewrite Hid. reflexivity. }
  unfold parameters.
  unfold get_authorization_url, spec_query_string.
  change (lit "https://www.linkedin.com/oauth/v2/authorization?")
    with (lit "https://www.linkedin.com/oauth/v2/authorization" ++ [63]).
  change (lit "response_type=code&")
    with (lit "response_type" ++ [61] ++ lit "code" ++ [38]).
  change (lit "client_id=") with (lit "client_id" ++ [61]).
  change (lit "redirect_uri=") with (lit "redirect_uri" ++ [61]).
  change (lit "scope=") with (lit "scope" ++ [61]).
  change (lit "state=linkedin_post_state")
    with (lit "state" ++ [61] ++ lit "linkedin_post_state").
  change (lit "&") with [38].
  repeat rewrite <- app_assoc. reflexivity.
Qed.


(** *** The wait for the callback *)

Lemma server_eta (srv : server) : srv = {| auth_code := auth_code srv |}.
Proof. now destruct srv. Qed.

Lemma handled_cons (c : connection) (cs : list connection) (t : list event) :
  handled (c :: cs) ++ t = handled cs ++ snd (serve waiting c) :: t.
Proof. unfold handled. simpl. now rewrite <- app_assoc. Qed.

(** While no connection captures a code, every round handles one
    connection and the loop is still waiting when none is left. *)
Lemma wait_rounds_blocked (cs : list connection) :
  Forall no_capture cs ->
  forall (fuel : nat) (w : World),
    inbound w = cs ->
    wait_rounds fuel waiting w =
      (Blocked, after_callbacks (firstn fuel cs) (skipn fuel cs) w).
Proof.
  induction 1 as [|c cs Hc _ IH]; intros fuel w Hin.
  - destruct fuel; simpl; unfold bind, handle_request; rewrite ?Hin;
      destruct w; simpl in Hin; subst; reflexivity.
  - destruct fuel as [|fuel]; simpl.
    + destruct w; simpl in Hin; subst; reflexivity.
    + unfold bind, handle_request. rewrite Hin.
      destruct (serve waiting c) as [srv' ev] eqn:Hs.
      unfold no_capture in Hc. rewrite Hs in Hc. simpl in Hc.
      rewrite (server_eta srv'), Hc. fold waiting.
      rewrite (IH fuel (log ev (set_inbound cs w)) eq_refl).
      unfold after_callbacks. cbn [token_file port_free replies trace log set_inbound].
      rewrite handled_cons, Hs. reflexivity.
Qed.

(** The first connection that captures a code ends the wait, and the
    loop returns with that code. *)
Lemma wait_rounds_returns (pre : list connection) (c : connection)
    (post : list connection) (code : str) :
  Forall no_capture pre ->
  auth_code (fst (serve waiting c)) = Some code ->
  forall (fuel : nat) (w : World),
    inbound w = pre ++ c :: post ->
    (length pre < fuel)%nat ->
    wait_rounds fuel waiting w =
      (Ret {| auth_code := Some code |}, after_callbacks (pre ++ [c]) post w).
Proof.
  intros Hpre Hc. induction Hpre as [|c0 pre Hc0 _ IH]; intros fuel w Hin Hfuel.
  - destruct fuel as [|fuel]; [simpl in Hfuel; lia|]. simpl.
    unfold bind, handle_request. rewrite Hin. simpl.
    destruct (serve waiting c) as [srv' ev] eqn:Hs. simpl in Hc.
    rewrite (server_eta srv'), Hc.
    assert (Hw : log ev (set_inbound post w) = after_callbacks [c] post w).
    { unfold after_callbacks, handled. cbn [map rev app]. rewrite Hs.
      reflexivity. }
    destruct fuel; simpl; unfold ret; rewrite Hw; reflexivity.
  - destruct fuel as [|fuel]; [simpl in Hfuel; lia|]. simpl.
    unfold bind, handle_request. rewrite Hin. simpl.
    destruct (serve waiting c0) as [srv' ev] eqn:Hs.
    unfold no_capture in Hc0. rewrite Hs in Hc0. simpl in Hc0.
    rewrite (server_eta srv'), Hc0. fold waiting.
    rewrite (IH fuel (log ev (set_inbound (pre ++ c :: post) w)) eq_refl)
      by (simpl in Hfuel; lia).
    unfold after_callbacks. cbn [token_file port_free replies trace log set_inbound].
    change ((c0 :: pre) ++ [c]) with (c0 :: (pre ++ [c])).
    rewrite handled_cons, Hs. reflexivity.
Qed.

(** Either no connection captures a code, or there is a first one that
    does. *)
Lemma first_capture (cs : list connection) :
  Forall no_capture cs \/
  exists pre c post code,
    cs = pre ++ c :: post /\ Forall no_capture pre /\
    auth_code (fst (serve waiting c)) = Some code.
Proof.
  induction cs as [|c cs IH]; [left; constructor|].
  destruct (auth_code (fst (serve waiting c))) as [code|] eqn:Hc.
  - right. exists [], c, cs, code. repeat split; [constructor | assumption].
  - destruct IH as [IH | (pre & c' & post & code & -> & Hpre & Hc')].
    + left. now constructor.
    + right. exists (c :: pre), c', post, code.
      repeat split; [now constructor | assumption].
Qed.

Lemma error_callback_no_capture (target error : str) :
  carries_error_only target error -> no_capture (Request (lit "GET") target).
Proof.
  intros (parsed & more & Hparse & Hpath & Hcode & Herr).
  unfold no_capture, serve. rewrite str_eqb_refl. unfold do_GET.
  rewrite Hparse, Hpath, str_eqb_refl, Hcode, Herr. reflexivity.
Qed.

(** C6.  The wait loop handles one connection per round and is still
    blocked, with every connection handled, as long as none of them
    captured a code; it returns as soon as a connection has captured
    one, and when it returns, a connection that captured a code has
    just been handled and all those before it did not capture one.  A
    callback that carries only an [error] parameter captures no code,
    so an error report does not end the wait. *)
Theorem wait_ends_only_on_a_code (w : World) :
  (Forall no_capture (inbound w) ->
   wait_for_callback waiting w =
     (Blocked, after_callbacks (inbound w) [] w)) /\
  (forall pre c post code,
     inbound w = pre ++ c :: post ->
     Forall no_capture pre ->
     auth_code (fst (serve waiting c)) = Some code ->
     wait_for_callback waiting w =
       (Ret {| auth_code := Some code |},
        after_callbacks (pre ++ [c]) post w)) /\
  (forall srv w',
     wait_for_callback waiting w = (Ret srv, w') ->
     exists pre c post code,
       inbound w = pre ++ c :: post /\
       Forall no_capture pre /\
       auth_code (fst (serve waiting c)) = Some code /\
       auth_code srv = Some code /\
       w' = after_callbacks (pre ++ [c]) post w) /\
  (forall target error,
     carries_error_only target error ->
     no_capture (Request (lit "GET") target)).
Proof.
  unfold wait_for_callback. split; [|split; [|split]].
  - intros H. rewrite (wait_rounds_blocked (inbound w) H _ w eq_refl).
    now rewrite firstn_all, skipn_all.
  - intros pre c post code Hin Hpre Hc.
    apply (wait_rounds_returns pre c post code Hpre Hc _ w Hin).
    rewrite Hin, length_app. simpl. lia.
  - intros srv w' Hret.
    destruct (first_capture (inbound w))
      as [Hall | (pre & c & post & code & Hin & Hpre & Hc)].
    + rewrite (wait_rounds_blocked (inbound w) Hall _ w eq_refl) in Hret.
      discriminate.
    + rewrite (wait_rounds_returns pre c post code Hpre Hc _ w Hin) in Hret.
      * injection Hret as <- <-. exists pre, c, post, code. now repeat split.
      * rewrite Hin, length_app. simpl. lia.
  - apply error_callback_no_capture.
Qed.

(** *** Which steps touch the token file *)

Lemma keeps_file_ret {A} (a : A) : keeps_file (ret a).
Proof. intros w; reflexivity. Qed.

Lemma keeps_file_raise {A} (e : exn) : keeps_file (@raise A e).
Proof. intros w; reflexivity. Qed.

Lemma keeps_file_emit (e : event) : keeps_file (emit e).
Proof. intros w; reflexivity. Qed.

Lemma keeps_file_bind {A B} (m : M A) (k : A -> M B) :
  keeps_file m -> (forall a, keeps_file (k a)) -> keeps_file (bind m k).
Proof.
  intros Hm Hk w. unfold bind. specialize (Hm w).
  destruct (m w) as [[a|e|] w1]; simpl in Hm |- *; [|assumption|assumption].
  now rewrite Hk.
Qed.

Lemma keeps_file_next_reply : keeps_file next_reply.
Proof.
  intros w. unfold next_reply.
  destruct (replies w) as [|[code text|] rest]; reflexivity.
Qed.

Lemma keeps_file_response_json (text : str) : keeps_file (response_json text).
Proof. intros w. unfold response_json. now destruct (json_loads text). Qed.

Lemma keeps_file_getitem (v : json) (k : str) : keeps_file (getitem v k).
Proof.
  intros w. unfold getitem. destruct v; try reflexivity.
  now destruct (dict_get k fields).
Qed.

Lemma keeps_file_get_method (v : json) (k : str) (d : json) :
  keeps_file (get_method v k d).
Proof.
  intros w. unfold get_method. destruct v; try reflexivity.
  now destruct (dict_get k fields).
Qed.

Lemma keeps_file_setitem (v : json) (k : str) (x : json) :
  keeps_file (setitem v k x).
Proof. intros w. unfold setitem. now destruct v. Qed.

Lemma keeps_file_handle_request (srv : server) : keeps_file (handle_request srv).
Proof.
  intros w. unfold handle_request. destruct (inbound w) as [|c rest];
    [reflexivity|]. now destruct (serve srv c).
Qed.

Lemma keeps_file_wait_rounds (fuel : nat) :
  forall srv, keeps_file (wait_rounds fuel srv).
Proof.
  induction fuel as [|fuel IH]; intros srv; simpl;
    destruct (auth_code srv); try apply keeps_file_ret.
  - intros w; reflexivity.
  - apply keeps_file_bind; [apply keeps_file_handle_request | apply IH].
Qed.

Lemma keeps_file_wait_for_callback (srv : server) :
  keeps_file (wait_for_callback srv).
Proof. intros w. apply keeps_file_wait_rounds. Qed.

Lemma keeps_file_HTTPServer : keeps_file HTTPServer.
Proof. intros w. unfold HTTPServer. now destruct (port_free w). Qed.

Ltac keeps_file :=
  repeat first
    [ apply keeps_file_ret | apply keeps_file_raise | apply keeps_file_emit
    | apply keeps_file_next_reply | apply keeps_file_response_json
    | apply keeps_file_getitem | apply keeps_file_get_method
    | apply keeps_file_setitem | apply keeps_file_HTTPServer
    | apply keeps_file_wait_for_callback
    | apply keeps_file_bind; [|intros ?]
    | match goal with |- keeps_file (if ?b then _ else _) => destruct b end ].

Lemma keeps_file_get_authorization_code : keeps_file get_authorization_code.
Proof. unfold get_authorization_code, print. keeps_file. Qed.

Lemma keeps_file_exchange_code_for_token (code : option str) :
  keeps_file (exchange_code_for_token code).
Proof. unfold exchange_code_for_token, requests_post, print. keeps_file. Qed.

Lemma keeps_file_get_user_info (access_token : json) :
  keeps_file (get_user_info access_token).
Proof. unfold get_user_info, requests_get, print. keeps_file. Qed.

Lemma keeps_file_probe (access_token : json) : keeps_file (probe access_token).
Proof.
  unfold probe. apply keeps_file_bind; [apply keeps_file_get_user_info|].
  intros user_info. keeps_file.
Qed.

(** *** Calls that are carried out *)

Lemma text_app (a b : str) : text (a ++ b) = text a && text b.
Proof. apply forallb_app. Qed.

Lemma header_text_app (a b : str) :
  header_text (a ++ b) = header_text a && header_text b.
Proof. apply forallb_app. Qed.

Lemma text_digits_of_uint (u : Decimal.uint) : text (digits_of_uint u) = true.
Proof.
  unfold text. induction u; cbn [digits_of_uint forallb]; try reflexivity;
    now rewrite IHu.
Qed.

Lemma text_int_repr (n : Z) : text (int_repr n) = true.
Proof.
  unfold int_repr. destruct (Z.to_int n) as [u|u].
  - apply text_digits_of_uint.
  - change (text (45 :: digits_of_uint u))
      with (scalar 45 && text (digits_of_uint u)).
    now rewrite text_digits_of_uint.
Qed.

Lemma carried_out_log (e : event) (w : World) :
  carried_out (log e w) = goes_through e && carried_out w.
Proof. reflexivity. Qed.

Lemma carried_out_trace (recent : list event) (w w' : World) :
  trace w' = recent ++ trace w ->
  carried_out w' = forallb goes_through recent && carried_out w.
Proof. intros H. unfold carried_out. now rewrite H, forallb_app. Qed.

Lemma stays_carried_out_ret {A} (a : A) : stays_carried_out (ret a).
Proof. intros w H. exact H. Qed.

Lemma stays_carried_out_emit (e : event) :
  goes_through e = true -> stays_carried_out (emit e).
Proof.
  intros He w H. unfold emit. cbn [snd]. now rewrite carried_out_log, He, H.
Qed.

Lemma stays_carried_out_bind {A B} (m : M A) (k : A -> M B) :
  stays_carried_out m -> (forall a, stays_carried_out (k a)) ->
  stays_carried_out (bind m k).
Proof.
  intros Hm Hk w H. unfold bind. specialize (Hm w H).
  destruct (m w) as [[a|e|] w1]; cbn [snd] in Hm |- *; try assumption.
  now apply Hk.
Qed.

Lemma goes_through_serve (srv : server) (c : connection) :
  goes_through (snd (serve srv c)) = true.
Proof.
  unfold serve. destruct c as [command target|]; [|reflexivity].
  destruct (str_eqb command (lit "GET")); [|reflexivity].
  now destruct (do_GET srv target).
Qed.

Lemma stays_carried_out_handle_request (srv : server) :
  stays_carried_out (handle_request srv).
Proof.
  intros w H. unfold handle_request. destruct (inbound w) as [|c rest];
    [exact H|].
  pose proof (goes_through_serve srv c) as Hev.
  destruct (serve srv c) as [srv' ev]. cbn [snd] in Hev |- *.
  rewrite carried_out_log, Hev. exact H.
Qed.

Lemma stays_carried_out_wait_rounds (fuel : nat) :
  forall srv, stays_carried_out (wait_rounds fuel srv).
Proof.
  induction fuel as [|fuel IH]; intros srv; simpl;
    destruct (auth_code srv); try apply stays_carried_out_ret.
  - intros w H. exact H.
  - apply stays_carried_out_bind;
      [apply stays_carried_out_handle_request | apply IH].
Qed.

Lemma text_get_authorization_url :
  form_text CLIENT_ID = true -> text get_authorization_url = true.
Proof.
  intros Hid. unfold get_authorization_url. rewrite !text_app.
  assert (H : text (format_opt CLIENT_ID) = true).
  { destruct CLIENT_ID; [exact Hid | reflexivity]. }
  rewrite H. reflexivity.
Qed.

(** With a client id that is text, every line [get_authorization_code]
    prints and the address it opens are text. *)
Lemma stays_carried_out_get_authorization_code :
  form_text CLIENT_ID = true -> stays_carried_out get_authorization_code.
Proof.
  intros Hid. pose proof (text_get_authorization_url Hid) as Hurl.
  unfold get_authorization_code, print.
  apply stays_carried_out_bind; [now apply stays_carried_out_emit | intros _].
  apply stays_carried_out_bind; [now apply stays_carried_out_emit | intros _].
  apply stays_carried_out_bind; [now apply stays_carried_out_emit | intros _].
  apply stays_carried_out_bind.
  { apply stays_carried_out_emit. cbn [goes_through].
    rewrite !text_app, Hurl. reflexivity. }
  intros _.
  apply stays_carried_out_bind; [now apply stays_carried_out_emit | intros _].
  apply stays_carried_out_bind.
  { intros w H. unfold HTTPServer. destruct (port_free w); exact H. }
  intros srv.
  apply stays_carried_out_bind; [now apply stays_carried_out_emit | intros _].
  apply stays_carried_out_bind.
  { intros w. apply stays_carried_out_wait_rounds. }
  intros srv'.
  apply stays_carried_out_bind; [now apply stays_carried_out_emit | intros _].
  apply stays_carried_out_ret.
Qed.

(** *** The reuse of a cached token *)

(** C1.  With a cached record that has an [access_token], and a
    userinfo fetch that succeeds and reports the subject [sub],
    [authenticate] returns the cached token and
    ["urn:li:person:" + sub].  The fetch succeeds when the token can be
    sent in a header, the provider answers 200 with an object and the
    name in it can be printed, the cache and the answer being read
    within the limits of the interpreter.  [authenticate] then makes
    one network call, the userinfo GET: the listener is not started, no
    token exchange is posted and the token file is not written; and
    each call of the run was carried out. *)
Theorem cached_token_is_reused
    (w : World) (content : str) (fields : list (str * json))
    (access_token : json) (answer : str) (rest : list reply)
    (info : list (str * json)) (sub : str) :
  token_file w = Some content ->
  text_within_limits content = true ->
  json_loads content = Some (JObj fields) ->
  dict_get (lit "access_token") fields = Some access_token ->
  header_text (format_value access_token) = true ->
  replies w = Reply 200 answer :: rest ->
  text_within_limits answer = true ->
  json_loads answer = Some (JObj info) ->
  dict_get (lit "sub") info = Some (JStr sub) ->
  text (format_value
          match dict_get (lit "name") info with
          | Some name => name
          | None => JStr (lit "Unknown")
          end) = true ->
  carried_out w = true ->
  authenticate w =
    (Ret (access_token, lit "urn:li:person:" ++ sub),
     {| token_file := token_file w; port_free := port_free w;
        inbound := inbound w; replies := rest;
        trace :=
          [Print ([0x2705] ++ lit " Logged in as: " ++
                  format_value
                    match dict_get (lit "name") info with
                    | Some name => name
                    | None => JStr (lit "Unknown")
                    end);
           Get (lit "https://api.linkedin.com/v2/userinfo")
               [(lit "Authorization", lit "Bearer " ++ format_value access_token)];
           Print ([10; 0x1F464] ++ lit " Fetching user info...");
           Print ([0x1F4C2] ++
                  lit " Found existing tokens, attempting to use them...")]
          ++ trace w |}) /\
  carried_out (snd (authenticate w)) = true.
Proof.
  intros Hfile _ Hload Htoken Hheader Hreply _ Hjson Hsub Hname Hpast.
  match goal with
  | |- ?run = ?outcome /\ _ => assert (Hrun : run = outcome)
  end.
  { unfold authenticate, bind, load_tokens. rewrite Hfile, Hload.
    assert (Htruthy : truthy (JObj fields) = true).
    { destruct fields; [discriminate | reflexivity]. }
    rewrite Htruthy. unfold py_in, dict_has, ret. rewrite Htoken.
    unfold print, emit, getitem, ret. rewrite Htoken.
    unfold try_except, probe, get_user_info, bind, print, emit, requests_get,
      bind, emit, next_reply.
    cbn [replies log]. rewrite Hreply.
    cbn [fst snd]. change (200 =? 200) with true. cbv iota.
    unfold response_json. rewrite Hjson. unfold ret, get_method.
    destruct (dict_get (lit "name") info) as [name|];
      unfold ret, getitem; rewrite Hsub; unfold ret, person_urn_of, log, set_replies;
      cbn [token_file port_free inbound replies trace format_value app];
      rewrite ?Hfile; reflexivity. }
  split; [exact Hrun|].
  rewrite Hrun. cbn [snd].
  erewrite carried_out_trace by reflexivity.
  rewrite Hpast. cbn [forallb goes_through snd].
  rewrite !text_app, !header_text_app, Hname, Hheader. reflexivity.
Qed.

(** *** Successful steps of the fresh flow *)

Lemma get_user_info_ok (access_token : json) (w : World) (text : str)
    (rest : list reply) (info : list (str * json)) :
  replies w = Reply 200 text :: rest ->
  json_loads text = Some (JObj info) ->
  get_user_info access_token w =
    (Ret (JObj info),
     {| token_file := token_file w; port_free := port_free w;
        inbound := inbound w; replies := rest;
        trace :=
          [Print ([0x2705] ++ lit " Logged in as: " ++
                  format_value
                    match dict_get (lit "name") info with
                    | Some name => name
                    | None => JStr (lit "Unknown")
                    end);
           Get (lit "https://api.linkedin.com/v2/userinfo")
               [(lit "Authorization", lit "Bearer " ++ format_value access_token)];
           Print ([10; 0x1F464] ++ lit " Fetching user info...")]
          ++ trace w |}).
Proof.
  intros Hreply Hjson.
  unfold get_user_info, bind, print, emit, requests_get, bind, emit, next_reply.
  cbn [replies log]. rewrite Hreply.
  cbn [fst snd]. change (200 =? 200) with true. cbv iota.
  unfold response_json. rewrite Hjson. unfold ret, get_method.
  destruct (dict_get (lit "name") info) as [name|]; reflexivity.
Qed.

Lemma exchange_code_for_token_ok (code : option str) (w : World) (text : str)
    (rest : list reply) (granted : list (str * json)) :
  replies w = Reply 200 text :: rest ->
  json_loads text = Some (JObj granted) ->
  exchange_code_for_token code w =
    (Ret (JObj granted),
     {| token_file := token_file w; port_free := port_free w;
        inbound := inbound w; replies := rest;
        trace :=
          [Print (lit "   Token expires in: " ++
                  format_value
                    match dict_get (lit "expires_in") granted with
                    | Some seconds => seconds
                    | None => JStr (lit "N/A")
                    end ++ lit " seconds");
           Print ([0x2705] ++ lit " Access token obtained!");
           Post (lit "https://www.linkedin.com/oauth/v2/accessToken")
                [(lit "grant_type", Some (lit "authorization_code"));
                 (lit "code", code);
                 (lit "redirect_uri", Some REDIRECT_URI);
                 (lit "client_id", CLIENT_ID);
                 (lit "client_secret", CLIENT_SECRET)]
                [(lit "Content-Type", lit "application/x-www-form-urlencoded")];
           Print ([10; 0x1F504] ++ lit " Exchanging code for access token...")]
          ++ trace w |}).
Proof.
  intros Hreply Hjson.
  unfold exchange_code_for_token, bind, print, emit, requests_post, bind, emit,
    next_reply.
  cbn [replies log]. rewrite Hreply.
  cbn [fst snd]. change (200 =? 200) with true. cbv iota.
  unfold response_json. rewrite Hjson. unfold ret, get_method.
  destruct (dict_get (lit "expires_in") granted) as [seconds|]; reflexivity.
Qed.

Lemma get_authorization_code_ok (w : World) (pre : list connection)
    (c : connection) (post : list connection) (code : str) :
  port_free w = true ->
  inbound w = pre ++ c :: post ->
  Forall no_capture pre ->
  auth_code (fst (serve waiting c)) = Some code ->
  get_authorization_code w =
    (Ret (Some code),
     {| token_file := token_file w; port_free := port_free w;
        inbound := post; replies := replies w;
        trace :=
          Print ([0x2705] ++ lit " Authorization code received!") ::
          handled (pre ++ [c]) ++
          [Print ([0x23F3] ++ lit " Waiting for authorization callback...");
           Bind (lit "localhost") 8000;
           OpenBrowser get_authorization_url;
           Print (lit "   If browser doesn't open, visit this URL:" ++ [10] ++
                  lit "   " ++ get_authorization_url ++ [10]);
           Print ([10; 0x1F4CE] ++ lit " Opening browser for authorization...");
           Print (repeat 61 50);
           Print ([10; 0x1F510] ++ lit " Starting LinkedIn Authorization...")]
          ++ trace w |}).
Proof.
  intros Hport Hin Hpre Hc.
  unfold get_authorization_code, bind, print, emit, HTTPServer, bind, emit, ret.
  cbn [port_free log]. rewrite Hport.
  unfold wait_for_callback. fold waiting.
  erewrite (wait_rounds_returns pre c post code Hpre Hc);
    [ | exact Hin | unfold log; cbn [inbound]; rewrite Hin, length_app; simpl; lia ].
  unfold after_callbacks, log.
  cbn [token_file port_free inbound replies trace auth_code].
  rewrite Hport. reflexivity.
Qed.

(** *** Failures of the fresh flow *)

Lemma keeps_file_fails_keeping {A} (m : M A) : keeps_file m -> fails_keeping m.
Proof. intros H w _. apply H. Qed.

Lemma fails_keeping_bind {A B} (m : M A) (k : A -> M B) :
  keeps_file m -> (forall a, fails_keeping (k a)) -> fails_keeping (bind m k).
Proof.
  intros Hm Hk w. unfold bind. specialize (Hm w).
  destruct (m w) as [[a|e|] w1]; simpl in Hm |- *; intros Hfail;
    [|assumption|assumption].
  rewrite <- Hm. now apply Hk.
Qed.

Lemma save_tokens_run (tokens : json) (w : World) :
  save_tokens tokens w =
    (Ret tt,
     log (Print ([0x2705] ++ lit " Tokens saved to " ++ TOKEN_FILE))
       (log (WriteFile TOKEN_FILE (json_dumps tokens))
          (set_token_file (json_dumps tokens) w))).
Proof. reflexivity. Qed.

(** C3, as the code has it.  A fresh flow that does not return leaves
    the token file as it was when it stops before the token exchange has
    succeeded; once the exchange has succeeded, the record it returned
    has been written, whole and as the provider sent it, and a later
    failure leaves that record in the file. *)
Theorem failed_fresh_flow_keeps_exchanged_record (w : World) :
  (forall r, fst (fresh_authentication w) <> Ret r) ->
  token_file (snd (fresh_authentication w)) =
    match exchanged w with
    | Some tokens => Some (json_dumps tokens)
    | None => token_file w
    end.
Proof.
  unfold exchanged.
  remember (fresh_authentication w) as run eqn:Hrun.
  unfold fresh_authentication in Hrun. unfold bind at 1 in Hrun.
  pose proof (keeps_file_get_authorization_code w) as K1.
  destruct (get_authorization_code w) as [[code|e|] w1]; simpl in K1;
    [|subst run; intros _; exact K1|subst run; intros _; exact K1].
  unfold bind at 1 in Hrun.
  pose proof (keeps_file_exchange_code_for_token code w1) as K2.
  destruct (exchange_code_for_token code w1) as [[tokens|e|] w2]; simpl in K2;
    [|subst run; intros _; simpl; congruence
     |subst run; intros _; simpl; congruence].
  unfold bind at 1 in Hrun. rewrite save_tokens_run in Hrun.
  match type of Hrun with
  | run = ?m ?w3 => assert (Htail : fails_keeping m)
  end.
  { do 6 (apply fails_keeping_bind;
          [ first [ apply keeps_file_getitem | apply keeps_file_get_user_info
                  | apply keeps_file_setitem | apply keeps_file_get_method ]
          | intros ? ]).
    intros w3 Hfail. exfalso. eapply Hfail. reflexivity. }
  subst run. intros Hfail. now rewrite (Htail _ Hfail).
Qed.

(** *** The fallback to the fresh flow *)

Lemma carries_code_captures (target code : str) :
  carries_code target code ->
  auth_code (fst (serve waiting (Request (lit "GET") target))) = Some code.
Proof.
  intros H. unfold serve. rewrite str_eqb_refl.
  now rewrite (do_GET_code waiting target code H).
Qed.

(** With a cached record that has an [access_token], a probe that
    raises hands over to the fresh flow, in the world the probe left. *)
Lemma authenticate_after_failed_probe
    (w : World) (content : str) (fields : list (str * json))
    (cached_token : json) (e : exn) (w1 : World) :
  token_file w = Some content ->
  json_loads content = Some (JObj fields) ->
  dict_get (lit "access_token") fields = Some cached_token ->
  probe cached_token
    (log (Print ([0x1F4C2] ++
                 lit " Found existing tokens, attempting to use them...")) w)
    = (Raise e, w1) ->
  authenticate w =
    fresh_authentication
      (log (Print ([0x26A0; 0xFE0F] ++
                   lit " Existing token expired, re-authenticating...")) w1).
Proof.
  intros Hfile Hload Htoken Hprobe.
  unfold authenticate. unfold bind at 1. unfold load_tokens.
  rewrite Hfile, Hload.
  assert (Htruthy : truthy (JObj fields) = true).
  { destruct fields; [discriminate | reflexivity]. }
  rewrite Htruthy. unfold bind at 1. unfold py_in, dict_has, ret.
  rewrite Htoken.
  unfold bind at 1. unfold print, emit. unfold bind at 1.
  unfold getitem, ret. rewrite Htoken.
  unfold try_except. rewrite Hprobe.
  unfold bind at 1. reflexivity.
Qed.

(** The fresh flow when the callback brings a code and the provider
    answers both requests; every call of it is carried out when the
    texts it prints and sends can be encoded. *)
Lemma fresh_authentication_returns
    (w : World) (pre : list connection) (target code : str)
    (post : list connection) (token_text info_text : str) (rest : list reply)
    (granted info : list (str * json)) (new_token : json) (sub : str) :
  port_free w = true ->
  inbound w = pre ++ Request (lit "GET") target :: post ->
  Forall no_capture pre ->
  carries_code target code ->
  replies w = Reply 200 token_text :: Reply 200 info_text :: rest ->
  json_loads token_text = Some (JObj granted) ->
  dict_get (lit "access_token") granted = Some new_token ->
  json_loads info_text = Some (JObj info) ->
  dict_get (lit "sub") info = Some (JStr sub) ->
  exists w',
    fresh_authentication w = (Ret (new_token, lit "urn:li:person:" ++ sub), w') /\
    token_file w' =
      Some (json_dumps
              (JObj (dict_set (lit "user_name")
                       match dict_get (lit "name") info with
                       | Some name => name
                       | None => JStr (lit "Unknown")
                       end
                       (dict_set (lit "person_urn")
                          (JStr (lit "urn:li:person:" ++ sub)) granted)))) /\
    inbound w' = post /\
    replies w' = rest /\
    (carried_out w = true ->
     form_text CLIENT_ID = true ->
     form_text CLIENT_SECRET = true ->
     text code = true ->
     text (format_value
             match dict_get (lit "expires_in") granted with
             | Some seconds => seconds
             | None => JStr (lit "N/A")
             end) = true ->
     header_text (format_value new_token) = true ->
     text (format_value
             match dict_get (lit "name") info with
             | Some name => name
             | None => JStr (lit "Unknown")
             end) = true ->
     carried_out w' = true).
Proof.
  intros Hport Hin Hpre Hcode Hreplies Hgranted Hnew Hinfo Hsub.
  pose proof (get_authorization_code_ok w pre _ post code Hport Hin Hpre
                (carries_code_captures target code Hcode)) as H1.
  remember (snd (get_authorization_code w)) as w1 eqn:E1.
  assert (K : get_authorization_code w = (Ret (Some code), w1) /\
              inbound w1 = post /\ replies w1 = replies w).
  { subst w1. rewrite H1. cbn [snd]. repeat split. }
  clear H1. destruct K as (H1 & I1 & R1).
  assert (C1 : carried_out w = true -> form_text CLIENT_ID = true ->
               carried_out w1 = true).
  { intros Hpast Hid. subst w1.
    now apply stays_carried_out_get_authorization_code. }
  clear E1.
  unfold fresh_authentication. unfold bind at 1. rewrite H1.
  unfold bind at 1.
  erewrite exchange_code_for_token_ok;
    [ | rewrite R1; exact Hreplies | exact Hgranted ].
  unfold bind at 1. rewrite save_tokens_run.
  unfold bind at 1. unfold getitem at 1. rewrite Hnew. unfold ret at 1.
  unfold bind at 1.
  erewrite get_user_info_ok; [ | reflexivity | exact Hinfo ].
  unfold bind at 1. unfold getitem at 1. rewrite Hsub. unfold ret at 1.
  unfold bind at 1. unfold setitem at 1. unfold ret at 1.
  unfold bind at 1. unfold get_method at 1.
  assert (Hlast :
    forall name : json,
      text (format_value name) = true ->
      carried_out w = true ->
      form_text CLIENT_ID = true ->
      form_text CLIENT_SECRET = true ->
      form_text (Some code) = true ->
      text (format_value
              match dict_get (lit "expires_in") granted with
              | Some seconds => seconds
              | None => JStr (lit "N/A")
              end) = true ->
      header_text (format_value new_token) = true ->
      forallb goes_through
        ([Print ([0x2705] ++ lit " Tokens saved to " ++ TOKEN_FILE);
          WriteFile TOKEN_FILE [];
          Print ([0x2705] ++ lit " Logged in as: " ++ format_value name);
          Get (lit "https://api.linkedin.com/v2/userinfo")
            [(lit "Authorization", lit "Bearer " ++ format_value new_token)];
          Print ([10; 0x1F464] ++ lit " Fetching user info...");
          Print ([0x2705] ++ lit " Tokens saved to " ++ TOKEN_FILE);
          WriteFile TOKEN_FILE [];
          Print (lit "   Token expires in: " ++
                 format_value
                   match dict_get (lit "expires_in") granted with
                   | Some seconds => seconds
                   | None => JStr (lit "N/A")
                   end ++ lit " seconds");
          Print ([0x2705] ++ lit " Access token obtained!");
          Post (lit "https://www.linkedin.com/oauth/v2/accessToken")
            [(lit "grant_type", Some (lit "authorization_code"));
             (lit "code", Some code);
             (lit "redirect_uri", Some REDIRECT_URI);
             (lit "client_id", CLIENT_ID);
             (lit "client_secret", CLIENT_SECRET)]
            [(lit "Content-Type", lit "application/x-www-form-urlencoded")];
          Print ([10; 0x1F504] ++ lit " Exchanging code for access token...")]
         ++ trace w1) = true).
  { intros name Hname Hpast Hid Hsecret Hc Hexp Hhdr.
    rewrite forallb_app. fold (carried_out w1). rewrite (C1 Hpast Hid).
    cbn [forallb goes_through snd].
    rewrite !text_app, !header_text_app, Hname, Hexp, Hhdr, Hc, Hid, Hsecret.
    reflexivity. }
  destruct (dict_get (lit "name") info) as [name|]; unfold ret at 1;
    unfold bind at 1; unfold setitem at 1; unfold ret at 1;
    unfold bind at 1; rewrite save_tokens_run; unfold ret;
    eexists; (split; [reflexivity|]); (split; [reflexivity|]);
    (split; [exact I1|]); (split; [reflexivity|]);
    intros Hpast Hid Hsecret Hc Hexp Hhdr Hname;
    exact (Hlast _ Hname Hpast Hid Hsecret Hc Hexp Hhdr).
Qed.

(** C2.  With a cached record whose probe raises, whatever the
    exception, [authenticate] goes on with the fresh flow: the cache
    file is still there when the flow starts.  When the callback then
    brings a code and the provider answers the exchange and the
    userinfo request, [authenticate] returns the token of the new
    exchange with the URN of the subject fetched with it, and the file
    then holds the new record.  This last part is stated for texts that
    are read within the limits of the interpreter and values that can
    be printed, posted and sent in a header, the calls up to the failure
    of the probe having been carried out; each call of the run was then
    carried out. *)
Theorem failed_probe_starts_fresh_flow
    (w : World) (content : str) (fields : list (str * json))
    (cached_token : json) (e : exn) (w1 : World)
    (pre : list connection) (target code : str) (post : list connection)
    (token_text info_text : str) (rest : list reply)
    (granted info : list (str * json)) (new_token : json) (sub : str) :
  token_file w = Some content ->
  json_loads content = Some (JObj fields) ->
  dict_get (lit "access_token") fields = Some cached_token ->
  probe cached_token
    (log (Print ([0x1F4C2] ++
                 lit " Found existing tokens, attempting to use them...")) w)
    = (Raise e, w1) ->
  port_free w1 = true ->
  inbound w1 = pre ++ Request (lit "GET") target :: post ->
  Forall no_capture pre ->
  carries_code target code ->
  replies w1 = Reply 200 token_text :: Reply 200 info_text :: rest ->
  json_loads token_text = Some (JObj granted) ->
  dict_get (lit "access_token") granted = Some new_token ->
  json_loads info_text = Some (JObj info) ->
  dict_get (lit "sub") info = Some (JStr sub) ->
  token_file w1 = token_file w /\
  authenticate w =
    fresh_authentication
      (log (Print ([0x26A0; 0xFE0F] ++
                   lit " Existing token expired, re-authenticating...")) w1) /\
  (text_within_limits content = true ->
   carried_out w1 = true ->
   form_text CLIENT_ID = true ->
   form_text CLIENT_SECRET = true ->
   text code = true ->
   text_within_limits token_text = true ->
   text_within_limits info_text = true ->
   text (format_value
           match dict_get (lit "expires_in") granted with
           | Some seconds => seconds
           | None => JStr (lit "N/A")
           end) = true ->
   header_text (format_value new_token) = true ->
   text (format_value
           match dict_get (lit "name") info with
           | Some name => name
           | None => JStr (lit "Unknown")
           end) = true ->
   exists w',
     authenticate w = (Ret (new_token, lit "urn:li:person:" ++ sub), w') /\
     token_file w' =
       Some (json_dumps
               (JObj (dict_set (lit "user_name")
                        match dict_get (lit "name") info with
                        | Some name => name
                        | None => JStr (lit "Unknown")
                        end
                        (dict_set (lit "person_urn")
                           (JStr (lit "urn:li:person:" ++ sub)) granted)))) /\
     inbound w' = post /\
     replies w' = rest /\
     carried_out w' = true).
Proof.
  intros Hfile Hload Htoken Hprobe Hport Hin Hpre Hcode Hreplies
         Hgranted Hnew Hinfo Hsub.
  split.
  { pose proof (keeps_file_probe cached_token
                  (log (Print ([0x1F4C2] ++
                     lit " Found existing tokens, attempting to use them...")) w))
      as K.
    rewrite Hprobe in K. exact K. }
  rewrite (authenticate_after_failed_probe w content fields cached_token e w1
             Hfile Hload Htoken Hprobe).
  split; [reflexivity|].
  intros _ Hpast Hid Hsecret Hc _ _ Hexp Hhdr Hname.
  destruct (fresh_authentication_returns
              (log (Print ([0x26A0; 0xFE0F] ++
                           lit " Existing token expired, re-authenticating..."))
                 w1)
              pre target code post token_text info_text rest granted info
              new_token sub Hport Hin Hpre Hcode Hreplies Hgranted Hnew Hinfo
              Hsub)
    as (w' & Hrun & Hsaved & Hpost & Hrest & Hout).
  exists w'. repeat (split; [assumption|]).
  apply Hout; assumption.
Qed.

(** *** Numerals *)

Lemma digits_of_uint_digits (u : Decimal.uint) :
  forallb is_digit (digits_of_uint u) = true.
Proof. induction u; simpl; auto. Qed.

Lemma uint_of_digits_of_uint (u : Decimal.uint) :
  uint_of_digits (digits_of_uint u) = u.
Proof. induction u; simpl; unfold digit_cons; simpl; congruence. Qed.

Lemma span_digits_app (ds rest : str) :
  forallb is_digit ds = true ->
  match rest with [] => true | c :: _ => negb (is_digit c) end = true ->
  span_digits (ds ++ rest) = (ds, rest).
Proof.
  intros Hds Hrest. induction ds as [|d ds IH]; simpl.
  - destruct rest as [|c rest]; [reflexivity|]. simpl.
    apply negb_true_iff in Hrest. now rewrite Hrest.
  - simpl in Hds. apply andb_true_iff in Hds as [Hd Hds].
    now rewrite Hd, (IH Hds).
Qed.

Lemma to_uint_normal (p : positive) : unorm (Pos.to_uint p) = Pos.to_uint p.
Proof.
  rewrite <- (DecimalPos.Unsigned.to_of (Pos.to_uint p)).
  now rewrite DecimalPos.Unsigned.of_to.
Qed.

Lemma to_uint_no_leading_zero (p : positive) (u : Decimal.uint) :
  Pos.to_uint p <> D0 u.
Proof.
  intros H.
  assert (Hn : nzhead (Pos.to_uint p) <> Nil).
  { intros Hnil. apply unorm_0 in Hnil. rewrite to_uint_normal in Hnil.
    now apply (DecimalPos.Unsigned.to_uint_nonzero p). }
  apply unorm_nzhead in Hn. rewrite to_uint_normal in Hn.
  apply (nzhead_nonzero (Pos.to_uint p) u). congruence.
Qed.

Lemma hexval_hexdigit (d : Z) : 0 <= d < 16 -> hexval (hexdigit d) = Some d.
Proof.
  intros H. unfold hexdigit, hexval.
  destruct (Z.ltb_spec d 10).
  - replace ((48 <=? 48 + d) && (48 + d <=? 57)) with true
      by (symmetry; apply andb_true_iff; split; apply Z.leb_le; lia).
    f_equal. lia.
  - replace ((48 <=? 87 + d) && (87 + d <=? 57)) with false
      by (symmetry; apply andb_false_iff; right; apply Z.leb_gt; lia).
    replace ((97 <=? 87 + d) && (87 + d <=? 102)) with true
      by (symmetry; apply andb_true_iff; split; apply Z.leb_le; lia).
    f_equal. lia.
Qed.

Lemma decode_hex4 (n : Z) (rest : str) :
  0 <= n < 65536 ->
  exists h1 h2 h3 h4,
    hex4 n ++ rest = h1 :: h2 :: h3 :: h4 :: rest /\
    decode_uXXXX h1 h2 h3 h4 = Some n.
Proof.
  clear unquote_plain netloc_rejected_empty.
  clear unquote netloc_rejected py_repr float_json float_truthy.
  intros H. unfold hex4. do 4 eexists. split; [reflexivity|].
  unfold decode_uXXXX.
  rewrite !hexval_hexdigit by (apply Z.mod_pos_bound; lia).
  f_equal.
  Z.to_euclidean_division_equations. lia.
Qed.

Lemma lor_low_bits (a x m : Z) :
  0 <= m -> 0 <= x < 2 ^ m -> a mod 2 ^ m = 0 -> Z.lor a x = a + x.
Proof.
  intros Hm Hx Ha.
  assert (Hland : Z.land a x = 0).
  { apply Z.bits_inj'. intros n Hn.
    rewrite Z.land_spec, Z.testbit_0_l.
    destruct (Z.lt_ge_cases n m) as [Hlt | Hge].
    - rewrite <- (Z.mod_pow2_bits_low a m n Hlt), Ha, Z.testbit_0_l.
      reflexivity.
    - apply andb_false_iff. right.
      destruct (Z.eq_dec x 0) as [-> | Hx0]; [apply Z.testbit_0_l|].
      apply Z.bits_above_log2; [lia|].
      assert (Z.log2 x < m) by (apply Z.log2_lt_pow2; lia). lia. }
  now rewrite (Z.add_nocarry_lxor a x Hland), (Z.lxor_lor a x Hland).
Qed.

(** The surrogate pair [json.dump] writes for a code point above the
    basic plane, and the code point [json.loads] makes of it. *)
Lemma surrogate_pair (c : Z) :
  65536 <= c < 1114112 ->
  let n := c - 65536 in
  let s1 := Z.lor 55296 (Z.land (Z.shiftr n 10) 1023) in
  let s2 := Z.lor 56320 (Z.land n 1023) in
  55296 <= s1 <= 56319 /\ 56320 <= s2 <= 57343 /\
  65536 + Z.lor (Z.shiftl (s1 - 55296) 10) (s2 - 56320) = c.
Proof.
  intros Hc n s1 s2.
  assert (Hn : 0 <= n < 1048576) by (unfold n; lia).
  assert (H1 : s1 = 55296 + n / 1024).
  { unfold s1. change 1023 with (Z.ones 10).
    rewrite Z.land_ones, Z.shiftr_div_pow2 by lia.
    change (2 ^ 10) with 1024.
    rewrite (Z.mod_small (n / 1024) 1024)
      by (Z.to_euclidean_division_equations; lia).
    apply (lor_low_bits 55296 (n / 1024) 10); [lia | | reflexivity].
    change (2 ^ 10) with 1024. Z.to_euclidean_division_equations; lia. }
  assert (H2 : s2 = 56320 + n mod 1024).
  { unfold s2. change 1023 with (Z.ones 10). rewrite Z.land_ones by lia.
    change (2 ^ 10) with 1024.
    apply (lor_low_bits 56320 (n mod 1024) 10); [lia | | reflexivity].
    change (2 ^ 10) with 1024. apply Z.mod_pos_bound. lia. }
  rewrite H1, H2.
  split; [Z.to_euclidean_division_equations; lia|].
  split; [Z.to_euclidean_division_equations; lia|].
  replace (55296 + n / 1024 - 55296) with (n / 1024) by lia.
  replace (56320 + n mod 1024 - 56320) with (n mod 1024) by lia.
  rewrite Z.shiftl_mul_pow2 by lia. change (2 ^ 10) with 1024.
  rewrite (lor_low_bits (n / 1024 * 1024) (n mod 1024) 10); try lia.
  - unfold n. Z.to_euclidean_division_equations; lia.
  - change (2 ^ 10) with 1024. apply Z.mod_pos_bound. lia.
  - change (2 ^ 10) with 1024. apply Z.mod_mul. lia.
Qed.

(** *** Strings through [json.dump] and [json.loads] *)

Lemma scalar_range (c : Z) :
  scalar c = true -> 0 <= c < 1114112 /\ is_surrogate c = false.
Proof.
  unfold scalar. intros H.
  apply andb_true_iff in H as [H Hs]. apply andb_true_iff in H as [H0 H1].
  apply Z.leb_le in H0. apply Z.ltb_lt in H1. apply negb_true_iff in Hs.
  auto.
Qed.

Lemma scanstring_escape_char (c : Z) (tail t r' : str) :
  scalar c = true ->
  scanstring tail = Some (t, r') ->
  scanstring (escape_char c ++ tail) = Some (c :: t, r').
Proof.
  clear unquote_plain netloc_rejected_empty.
  clear unquote netloc_rejected py_repr float_json float_truthy.
  intros Hc Htail. apply scalar_range in Hc as [Hrange Hsur].
  unfold escape_char.
  destruct (Z.eqb_spec c 92) as [-> | N92];
    [simpl; rewrite Htail; reflexivity|].
  destruct (Z.eqb_spec c 34) as [-> | N34];
    [simpl; rewrite Htail; reflexivity|].
  destruct (Z.eqb_spec c 8) as [-> | N8];
    [simpl; rewrite Htail; reflexivity|].
  destruct (Z.eqb_spec c 12) as [-> | N12];
    [simpl; rewrite Htail; reflexivity|].
  destruct (Z.eqb_spec c 10) as [-> | N10];
    [simpl; rewrite Htail; reflexivity|].
  destruct (Z.eqb_spec c 13) as [-> | N13];
    [simpl; rewrite Htail; reflexivity|].
  destruct (Z.eqb_spec c 9) as [-> | N9];
    [simpl; rewrite Htail; reflexivity|].
  destruct ((32 <=? c) && (c <=? 126)) eqn:Hprint.
  - apply andb_true_iff in Hprint as [Hlo Hhi]. apply Z.leb_le in Hlo.
    cbn [app scanstring].
    replace (c =? 34) with false by (symmetry; now apply Z.eqb_neq).
    replace (c =? 92) with false by (symmetry; now apply Z.eqb_neq).
    replace ((0 <=? c) && (c <? 32)) with false
      by (symmetry; apply andb_false_iff; right; apply Z.ltb_ge; lia).
    now rewrite Htail.
  - destruct (Z.ltb_spec c 65536) as [Hbmp | Hsup].
    + destruct (decode_hex4 c tail) as (h1 & h2 & h3 & h4 & Hhex & Hdec);
        [lia|].
      cbn [app]. rewrite Hhex. cbn [scanstring].
      change (92 =? 34) with false. change (92 =? 92) with true.
      change (117 =? 117) with true. cbv iota.
      rewrite Hdec.
      assert (Hhigh : is_high_surrogate c = false).
      { unfold is_surrogate in Hsur. unfold is_high_surrogate.
        apply andb_false_iff in Hsur as [H | H];
          apply andb_false_iff; apply Z.leb_gt in H; [left | right];
          apply Z.leb_gt; lia. }
      rewrite Hhigh. cbn [andb]. now rewrite Htail.
    + destruct (surrogate_pair c) as (Hs1 & Hs2 & Hjoin); [lia|].
      cbv zeta in Hs1, Hs2, Hjoin. cbv zeta.
      set (s1 := Z.lor 55296 (Z.land (Z.shiftr (c - 65536) 10) 1023))
        in Hs1, Hs2, Hjoin |- *.
      set (s2 := Z.lor 56320 (Z.land (c - 65536) 1023)) in Hs1, Hs2, Hjoin |- *.
      destruct (decode_hex4 s2 tail) as (k1 & k2 & k3 & k4 & Hhex2 & Hdec2);
        [lia|].
      destruct (decode_hex4 s1 (92 :: 117 :: hex4 s2 ++ tail))
        as (h1 & h2 & h3 & h4 & Hhex1 & Hdec1); [lia|].
      rewrite <- app_assoc. cbn [app]. rewrite Hhex1. cbn [scanstring].
      change (92 =? 34) with false. change (92 =? 92) with true.
      change (117 =? 117) with true. cbv iota.
      rewrite Hdec1.
      assert (Hhigh : is_high_surrogate s1 = true).
      { unfold is_high_surrogate. apply andb_true_iff.
        split; apply Z.leb_le; lia. }
      assert (Hlow : is_low_surrogate s2 = true).
      { unfold is_low_surrogate. apply andb_true_iff.
        split; apply Z.leb_le; lia. }
      rewrite Hhigh. cbn [andb startswith].
      change (92 =? 92) with true. change (117 =? 117) with true.
      cbn [andb]. cbv iota.
      rewrite Hhex2, Hdec2, Hlow, Htail, Hjoin. reflexivity.
Qed.

Lemma scanstring_encoded (s rest : str) :
  text s = true ->
  scanstring (flat_map escape_char s ++ 34 :: rest) = Some (s, rest).
Proof.
  induction s as [|c s IH]; intros Hs.
  - reflexivity.
  - simpl in Hs. apply andb_true_iff in Hs as [Hc Hs].
    cbn [flat_map]. rewrite <- app_assoc.
    apply scanstring_escape_char; [assumption | now apply IH].
Qed.

(** *** Numbers through [json.dump] and [json.loads] *)

Lemma ends_value_cases (rest : str) :
  ends_value rest = true ->
  rest = [] \/ exists c t, rest = c :: t /\ (c = 44 \/ c = 10).
Proof.
  destruct rest as [|c t]; [now left|]. simpl. intros H. right.
  exists c, t. split; [reflexivity|].
  apply orb_true_iff in H as [H | H]; apply Z.eqb_eq in H; auto.
Qed.

Lemma no_fraction (rest : str) :
  ends_value rest = true ->
  lex_frac rest = ([], rest) /\ lex_exp rest = ([], rest) /\
  match rest with [] => true | c :: _ => negb (is_digit c) end = true.
Proof.
  intros H. destruct (ends_value_cases rest H) as [-> | (c & t & -> & [-> | ->])];
    repeat split.
Qed.

Lemma positive_digits (p : positive) :
  exists d ds,
    digits_of_uint (Pos.to_uint p) = d :: ds /\
    is_digit d = true /\ (d =? 48) = false /\ (d =? 45) = false.
Proof.
  pose proof (DecimalPos.Unsigned.to_uint_nonnil p) as Hnil.
  pose proof (to_uint_no_leading_zero p) as Hzero.
  destruct (Pos.to_uint p) as [|u|u|u|u|u|u|u|u|u|u];
    [congruence | exfalso; now apply (Hzero u) | ..];
    do 2 eexists; repeat split.
Qed.

Lemma int_of_positive_digits (p : positive) :
  int_of_digits (digits_of_uint (Pos.to_uint p)) = Z.pos p.
Proof.
  unfold int_of_digits. rewrite uint_of_digits_of_uint. unfold Z.of_uint.
  now rewrite DecimalPos.Unsigned.of_to.
Qed.

Lemma match_number_digits (p : positive) (rest : str) :
  ends_value rest = true ->
  match_number (digits_of_uint (Pos.to_uint p) ++ rest)
  = Some (JInt (Z.pos p), rest) /\
  match_number (45 :: digits_of_uint (Pos.to_uint p) ++ rest)
  = Some (JInt (Z.neg p), rest).
Proof.
  intros Hrest. destruct (no_fraction rest Hrest) as (Hfrac & Hexp & Hnd).
  pose proof (int_of_positive_digits p) as Hval.
  pose proof (digits_of_uint_digits (Pos.to_uint p)) as Hds.
  destruct (positive_digits p) as (d & ds & Hd & Hdig & H48 & H45).
  rewrite Hd in Hval, Hds |- *.
  assert (Hlex : lex_int ((d :: ds) ++ rest) = (d :: ds, rest)).
  { cbn [app lex_int]. rewrite H48.
    now apply (span_digits_app (d :: ds) rest). }
  split; unfold match_number.
  - cbn [app]. rewrite H45.
    change (d :: ds ++ rest) with ((d :: ds) ++ rest).
    rewrite Hlex, Hfrac, Hexp, Hval. reflexivity.
  - change (45 =? 45) with true. cbv iota.
    rewrite Hlex, Hfrac, Hexp, Hval. reflexivity.
Qed.

Lemma match_number_int_repr (n : Z) (rest : str) :
  ends_value rest = true ->
  match_number (int_repr n ++ rest) = Some (JInt n, rest).
Proof.
  intros Hrest. destruct n as [|p|p]; unfold int_repr; cbn [Z.to_int].
  - destruct (no_fraction rest Hrest) as (Hfrac & Hexp & _).
    unfold match_number. cbn [digits_of_uint app].
    change (48 =? 45) with false. cbv iota. cbn [lex_int].
    change (48 =? 48) with true. cbv iota. now rewrite Hfrac, Hexp.
  - now apply match_number_digits.
  - now apply match_number_digits.
Qed.

(** The first character of the text of an integer: a digit or a minus
    sign. *)
Lemma int_repr_head (n : Z) :
  exists c r, int_repr n = c :: r /\ (48 <= c <= 57 \/ c = 45).
Proof.
  destruct n as [|p|p]; unfold int_repr; cbn [Z.to_int].
  - exists 48, []. split; [reflexivity | lia].
  - destruct (positive_digits p) as (d & ds & Hd & Hdig & _).
    exists d, ds. split; [assumption|]. left.
    unfold is_digit in Hdig. apply andb_true_iff in Hdig as [H1 H2].
    apply Z.leb_le in H1, H2. lia.
  - eexists _, _. split; [reflexivity | now right].
Qed.

Lemma scan_once_number (c : Z) (r : str) (fuel : nat) (v : json) (rest : str) :
  48 <= c <= 57 \/ c = 45 ->
  match_number (c :: r) = Some (v, rest) ->
  scan_once (S fuel) (c :: r) = Some (v, rest).
Proof.
  intros Hc Hnum. cbn [scan_once].
  replace (c =? 34) with false by (symmetry; apply Z.eqb_neq; lia).
  replace (c =? 123) with false by (symmetry; apply Z.eqb_neq; lia).
  replace (c =? 91) with false by (symmetry; apply Z.eqb_neq; lia).
  change (lit "null") with [110; 117; 108; 108].
  change (lit "true") with [116; 114; 117; 101].
  change (lit "false") with [102; 97; 108; 115; 101].
  cbn [startswith].
  replace (110 =? c) with false by (symmetry; apply Z.eqb_neq; lia).
  replace (116 =? c) with false by (symmetry; apply Z.eqb_neq; lia).
  replace (102 =? c) with false by (symmetry; apply Z.eqb_neq; lia).
  cbn [andb]. now rewrite Hnum.
Qed.

(** *** Lists and dicts through [json.dump] and [json.loads] *)

Lemma iterencode_arr (level : nat) (x : json) (xs : list json) :
  iterencode level (JArr (x :: xs)) =
    [91] ++ newline_indent (S level) ++ iterencode (S level) x ++
    elements level xs ++ newline_indent level ++ [93].
Proof.
  cbn [iterencode]. do 3 f_equal. f_equal.
  induction xs as [|y xs IH]; [reflexivity|].
  unfold elements. cbn [flat_map]. rewrite <- !app_assoc. do 3 f_equal.
  exact IH.
Qed.

Lemma iterencode_obj (level : nat) (k : str) (x : json)
    (kvs : list (str * json)) :
  iterencode level (JObj ((k, x) :: kvs)) =
    [123] ++ newline_indent (S level) ++
    encode_basestring_ascii k ++ [58; 32] ++ iterencode (S level) x ++
    members level kvs ++ newline_indent level ++ [125].
Proof.
  cbn [iterencode]. do 5 f_equal. f_equal.
  induction kvs as [|[k' y] kvs IH]; [reflexivity|].
  unfold members. cbn [flat_map fst snd]. rewrite <- !app_assoc.
  do 5 f_equal. exact IH.
Qed.

Lemma well_formed_arr (l : list json) :
  well_formed (JArr l) = forallb well_formed l.
Proof.
  cbn [well_formed]. induction l as [|x l IH]; [reflexivity|].
  cbn [forallb]. now rewrite IH.
Qed.

Lemma well_formed_obj (d : list (str * json)) :
  well_formed (JObj d) =
    distinct (map fst d) &&
    forallb (fun kv => text (fst kv) && well_formed (snd kv)) d.
Proof.
  cbn [well_formed]. f_equal. induction d as [|[k x] d IH]; [reflexivity|].
  cbn [forallb fst snd]. now rewrite IH.
Qed.

Lemma weight_arr (l : list json) : weight (JArr l) = S (weights l).
Proof.
  cbn [weight]. f_equal. unfold weights.
  induction l as [|x l IH]; [reflexivity|].
  cbn [map list_sum fold_right]. unfold list_sum in IH. now rewrite IH.
Qed.

Lemma weight_obj (d : list (str * json)) :
  weight (JObj d) = S (weights (map snd d)).
Proof.
  cbn [weight]. f_equal. unfold weights.
  induction d as [|[k x] d IH]; [reflexivity|].
  cbn [map list_sum fold_right snd]. unfold list_sum in IH. now rewrite IH.
Qed.

Lemma skip_ws_indent (level : nat) (s : str) :
  skip_ws (newline_indent level ++ s) = skip_ws s.
Proof.
  unfold newline_indent. cbn [app skip_ws].
  change (is_ws 10) with true. cbv iota.
  induction (2 * level)%nat as [|n IH]; [reflexivity|].
  cbn [repeat app skip_ws]. change (is_ws 32) with true. cbv iota. exact IH.
Qed.

Lemma skip_ws_head (c : Z) (r : str) :
  is_ws c = false -> skip_ws (c :: r) = c :: r.
Proof. intros H. cbn [skip_ws]. now rewrite H. Qed.

(** The text of a value starts with a character that is neither white
    space, nor a closing bracket, nor a byte order mark. *)
Lemma iterencode_head (v : json) (level : nat) :
  well_formed v = true ->
  exists c r,
    iterencode level v = c :: r /\
    is_ws c = false /\ c <> 93 /\ c <> 125 /\ c <> 65279.
Proof.
  intros Hwf. destruct v as [|[|]|n|x|s|[|x xs]|[|[k x] kvs]];
    try discriminate Hwf;
    try (eexists _, _; split; [reflexivity|]; repeat split; discriminate).
  destruct (int_repr_head n) as (c & r & Hc & Hrange).
  exists c, r. split; [exact Hc|].
  unfold is_ws.
  repeat split; lia.
Qed.

Lemma skip_ws_iterencode (v : json) (level : nat) (s : str) :
  well_formed v = true ->
  skip_ws (iterencode level v ++ s) = iterencode level v ++ s.
Proof.
  intros Hwf. destruct (iterencode_head v level Hwf) as (c & r & -> & Hws & _).
  cbn [app]. now apply skip_ws_head.
Qed.

Lemma ends_value_elements (level : nat) (xs : list json) (n : nat) (s : str) :
  ends_value (elements level xs ++ newline_indent n ++ s) = true.
Proof. destruct xs; reflexivity. Qed.

Lemma ends_value_members (level : nat) (kvs : list (str * json)) (n : nat)
    (s : str) :
  ends_value (members level kvs ++ newline_indent n ++ s) = true.
Proof. destruct kvs; reflexivity. Qed.

Lemma JSONArray_values_elements (xs : list json) :
  Forall reads_back xs ->
  forallb well_formed xs = true ->
  forall (x : json) (level : nat) (rest : str) (fuel : nat),
    reads_back x ->
    well_formed x = true ->
    (weights (x :: xs) <= fuel)%nat ->
    JSONArray_values fuel
      (iterencode (S level) x ++ elements level xs ++
       newline_indent level ++ 93 :: rest)
    = Some (x :: xs, rest).
Proof.
  induction 1 as [|y ys Hy _ IH]; intros Hwfs x level rest fuel Hx Hwfx Hfuel;
    unfold weights in Hfuel; cbn [map list_sum fold_right] in Hfuel;
    (destruct fuel as [|m]; [lia|]); cbn [JSONArray_values].
  - rewrite (Hx Hwfx (S level) _ m) by (try apply ends_value_elements; lia).
    cbn [elements flat_map app]. rewrite skip_ws_indent.
    rewrite skip_ws_head by reflexivity.
    change (93 =? 93) with true. reflexivity.
  - cbn [forallb] in Hwfs. apply andb_true_iff in Hwfs as [Hwfy Hwfs].
    rewrite (Hx Hwfx (S level) _ m) by (try apply ends_value_elements; lia).
    unfold elements at 1. cbn [flat_map]. fold (elements level ys).
    rewrite <- !app_assoc. cbn [app].
    rewrite skip_ws_head by reflexivity.
    change (44 =? 93) with false. change (44 =? 44) with true. cbv iota.
    rewrite skip_ws_indent, (skip_ws_iterencode y (S level) _ Hwfy).
    rewrite (IH Hwfs y level rest m Hy Hwfy); [reflexivity|].
    unfold weights. cbn [map list_sum fold_right]. lia.
Qed.

Lemma reads_back_arr (l : list json) : Forall reads_back l -> reads_back (JArr l).
Proof.
  intros Hall Hwf level rest fuel Hfuel Hrest.
  rewrite well_formed_arr in Hwf. rewrite weight_arr in Hfuel.
  destruct fuel as [|n]; [lia|].
  destruct l as [|x xs]; [reflexivity|].
  cbn [forallb] in Hwf. apply andb_true_iff in Hwf as [Hwfx Hwfs].
  inversion Hall as [|? ? Hx Hxs]; subst.
  rewrite iterencode_arr. rewrite <- !app_assoc. cbn [app scan_once].
  change (91 =? 34) with false. change (91 =? 123) with false.
  change (91 =? 91) with true. cbv iota.
  rewrite skip_ws_indent, (skip_ws_iterencode x (S level) _ Hwfx).
  destruct (iterencode_head x (S level) Hwfx) as (c & r & Hc & _ & H93 & _).
  rewrite Hc at 1. cbn [app].
  replace (c =? 93) with false by (symmetry; now apply Z.eqb_neq).
  change (c :: r ++ elements level xs ++ newline_indent level ++ 93 :: rest)
    with ((c :: r) ++ elements level xs ++ newline_indent level ++ 93 :: rest).
  rewrite <- Hc.
  rewrite (JSONArray_values_elements xs Hxs Hwfs x level rest n Hx Hwfx);
    [reflexivity | lia].
Qed.

Lemma JSONObject_pairs_members (kvs : list (str * json)) :
  Forall (fun kv => reads_back (snd kv)) kvs ->
  forallb (fun kv => text (fst kv) && well_formed (snd kv)) kvs = true ->
  forall (k : str) (x : json) (level : nat) (rest : str) (fuel : nat),
    reads_back x ->
    text k = true ->
    well_formed x = true ->
    (weights (x :: map snd kvs) <= fuel)%nat ->
    JSONObject_pairs fuel
      (flat_map escape_char k ++ 34 :: 58 :: 32 ::
       iterencode (S level) x ++ members level kvs ++
       newline_indent level ++ 125 :: rest)
    = Some ((k, x) :: kvs, rest).
Proof.
  induction 1 as [|[k' y] kvs Hy _ IH];
    intros Hwfs k x level rest fuel Hx Hk Hwfx Hfuel;
    unfold weights in Hfuel; cbn [map list_sum fold_right snd] in Hfuel;
    (destruct fuel as [|m]; [lia|]); cbn [JSONObject_pairs];
    rewrite (scanstring_encoded k _ Hk);
    rewrite skip_ws_head by reflexivity;
    change (58 =? 58) with true; cbv iota;
    cbn [skip_ws]; change (is_ws 32) with true; cbv iota;
    rewrite (skip_ws_iterencode x (S level) _ Hwfx);
    rewrite (Hx Hwfx (S level) _ m) by (try apply ends_value_members; lia).
  - cbn [members flat_map app]. rewrite skip_ws_indent.
    rewrite skip_ws_head by reflexivity.
    change (125 =? 125) with true. reflexivity.
  - cbn [forallb fst snd] in Hwfs. apply andb_true_iff in Hwfs as [Hwf Hwfs].
    apply andb_true_iff in Hwf as [Hk' Hwfy]. cbn [snd] in Hy.
    unfold members at 1. cbn [flat_map fst snd]. fold (members level kvs).
    unfold encode_basestring_ascii. rewrite <- !app_assoc. cbn [app].
    rewrite skip_ws_head by reflexivity.
    change (44 =? 125) with false. change (44 =? 44) with true. cbv iota.
    rewrite skip_ws_indent. rewrite skip_ws_head by reflexivity.
    change (34 =? 34) with true. cbv iota.
    rewrite <- app_assoc. cbn [app].
    rewrite (IH Hwfs k' y level rest m Hy Hk' Hwfy); [reflexivity|].
    unfold weights. cbn [map list_sum fold_right]. lia.
Qed.

Lemma distinct_NoDup (l : list str) : distinct l = true -> NoDup l.
Proof.
  induction l as [|k l IH]; simpl; intros H; constructor;
    apply andb_true_iff in H as [Hk Hl]; [|now apply IH].
  intros Hin. apply negb_true_iff in Hk.
  assert (existsb (str_eqb k) l = true); [|congruence].
  apply existsb_exists. exists k. split; [assumption | apply str_eqb_refl].
Qed.

Lemma dict_set_new {V : Type} (k : str) (v : V) (d : list (str * V)) :
  ~ In k (map fst d) -> dict_set k v d = d ++ [(k, v)].
Proof.
  induction d as [|[k' v'] d IH]; simpl; intros Hin; [reflexivity|].
  destruct (str_eqb k k') eqn:Hk.
  - apply str_eqb_eq in Hk. subst. exfalso. apply Hin. now left.
  - rewrite IH by (intros H; apply Hin; now right). reflexivity.
Qed.

Lemma fold_dict_set {V : Type} (d2 : list (str * V)) :
  forall d1,
    NoDup (map fst (d1 ++ d2)) ->
    fold_left (fun d kv => dict_set (fst kv) (snd kv) d) d2 d1 = d1 ++ d2.
Proof.
  induction d2 as [|[k v] d2 IH]; intros d1 Hnd; simpl.
  - now rewrite app_nil_r.
  - rewrite map_app in Hnd. simpl in Hnd.
    pose proof (NoDup_remove_2 _ _ _ Hnd) as Hk.
    rewrite dict_set_new by (intros Hin; apply Hk; apply in_or_app; now left).
    rewrite IH; [now rewrite <- app_assoc|].
    rewrite <- app_assoc. simpl. now rewrite map_app.
Qed.

Lemma dict_of_pairs_distinct {V : Type} (d : list (str * V)) :
  distinct (map fst d) = true -> dict_of_pairs d = d.
Proof.
  intros H. unfold dict_of_pairs. apply (fold_dict_set d []).
  now apply distinct_NoDup.
Qed.

Lemma reads_back_obj (d : list (str * json)) :
  Forall (fun kv => reads_back (snd kv)) d -> reads_back (JObj d).
Proof.
  intros Hall Hwf level rest fuel Hfuel Hrest.
  rewrite well_formed_obj in Hwf. rewrite weight_obj in Hfuel.
  apply andb_true_iff in Hwf as [Hdist Hwf].
  destruct fuel as [|n]; [lia|].
  destruct d as [|[k x] kvs]; [reflexivity|].
  cbn [forallb fst snd] in Hwf. apply andb_true_iff in Hwf as [Hkx Hwfs].
  apply andb_true_iff in Hkx as [Hk Hwfx].
  inversion Hall as [|? ? Hx Hxs]; subst. cbn [snd] in Hx.
  rewrite iterencode_obj. unfold encode_basestring_ascii.
  rewrite <- !app_assoc. cbn [app scan_once].
  change (123 =? 34) with false. change (123 =? 123) with true. cbv iota.
  rewrite skip_ws_indent. rewrite skip_ws_head by reflexivity.
  change (34 =? 125) with false. change (34 =? 34) with true. cbv iota.
  rewrite <- ?app_assoc. cbn [app].
  rewrite (JSONObject_pairs_members kvs Hxs Hwfs k x level rest n Hx Hk Hwfx)
    by (cbn [map snd] in Hfuel; lia).
  now rewrite (dict_of_pairs_distinct _ Hdist).
Qed.

(** [json.loads] reads back every well-formed value from the text
    [json.dump] writes for it. *)
Lemma reads_back_all (v : json) : reads_back v.
Proof.
  induction v using json_nested_ind.
  - intros _ level rest [|n] Hfuel _; [simpl in Hfuel; lia | reflexivity].
  - intros _ level rest [|n] Hfuel _; [simpl in Hfuel; lia|].
    destruct b; reflexivity.
  - intros _ level rest [|fuel] Hfuel Hrest; [simpl in Hfuel; lia|].
    cbn [iterencode].
    pose proof (match_number_int_repr n rest Hrest) as Hnum.
    destruct (int_repr_head n) as (c & r & Hc & Hrange).
    rewrite Hc in Hnum |- *. cbn [app] in Hnum |- *.
    now apply scan_once_number.
  - discriminate.
  - intros Hwf level rest [|n] Hfuel _; [simpl in Hfuel; lia|].
    cbn [iterencode well_formed] in Hwf |- *. unfold encode_basestring_ascii.
    cbn [app scan_once]. change (34 =? 34) with true. cbv iota.
    rewrite <- app_assoc. cbn [app].
    now rewrite (scanstring_encoded s rest Hwf).
  - now apply reads_back_arr.
  - now apply reads_back_obj.
Qed.

(** The text of a value is at least as long as its weight, so the
    fuel [json_loads] takes from the length of its input is enough. *)
Lemma weight_le_length (v : json) :
  well_formed v = true ->
  forall level, (weight v <= length (iterencode level v))%nat.
Proof.
  induction v using json_nested_ind; intros Hwf level.
  - simpl. lia.
  - destruct b; simpl; lia.
  - destruct (int_repr_head n) as (c & r & Hc & _).
    cbn [iterencode weight]. rewrite Hc. simpl. lia.
  - discriminate.
  - cbn [iterencode weight]. unfold encode_basestring_ascii.
    cbn [length]. apply le_n_S, Nat.le_0_l.
  - rewrite well_formed_arr in Hwf. rewrite weight_arr.
    destruct l as [|x xs]; [unfold weights; simpl; lia|].
    rewrite iterencode_arr, !length_app.
    cbn [forallb] in Hwf. apply andb_true_iff in Hwf as [Hwfx Hwfs].
    inversion H as [|? ? Hx Hxs]; subst.
    specialize (Hx Hwfx (S level)).
    assert (Hels : (weights xs <= length (elements level xs))%nat).
    { clear Hx Hwfx H.
      induction Hxs as [|y ys Hy _ IH]; [unfold weights; simpl; lia|].
      cbn [forallb] in Hwfs. apply andb_true_iff in Hwfs as [Hwfy Hwfs].
      specialize (Hy Hwfy (S level)). specialize (IH Hwfs).
      unfold weights, elements in IH |- *. cbn [map list_sum fold_right flat_map].
      rewrite !length_app. cbn [length]. unfold list_sum in IH. lia. }
    unfold weights in Hels |- *. cbn [map list_sum fold_right]. cbn [length].
    unfold list_sum in Hels. lia.
  - rewrite well_formed_obj in Hwf. rewrite weight_obj.
    apply andb_true_iff in Hwf as [_ Hwf].
    destruct d as [|[k x] kvs]; [unfold weights; simpl; lia|].
    rewrite iterencode_obj, !length_app.
    cbn [forallb fst snd] in Hwf. apply andb_true_iff in Hwf as [Hkx Hwfs].
    apply andb_true_iff in Hkx as [_ Hwfx].
    inversion H as [|? ? Hx Hxs]; subst. cbn [snd] in Hx.
    specialize (Hx Hwfx (S level)).
    assert (Hels : (weights (map snd kvs) <= length (members level kvs))%nat).
    { clear Hx Hwfx H.
      induction Hxs as [|[k' y] ys Hy _ IH]; [unfold weights; simpl; lia|].
      cbn [forallb fst snd] in Hwfs.
      apply andb_true_iff in Hwfs as [Hwfy Hwfs].
      apply andb_true_iff in Hwfy as [_ Hwfy]. cbn [snd] in Hy.
      specialize (Hy Hwfy (S level)). specialize (IH Hwfs).
      unfold weights, members in IH |- *.
      cbn [map list_sum fold_right flat_map fst snd].
      rewrite !length_app. cbn [length]. unfold list_sum in IH. lia. }
    unfold weights in Hels |- *. cbn [map list_sum fold_right snd]. cbn [length].
    unfold list_sum in Hels. lia.
Qed.

Lemma json_loads_dumps (v : json) :
  well_formed v = true -> json_loads (json_dumps v) = Some v.
Proof.
  intros Hwf. unfold json_loads, json_dumps.
  destruct (iterencode_head v O Hwf) as (c & r & Hc & Hws & _ & _ & Hbom).
  assert (Hstart : startswith [65279] (iterencode O v) = false).
  { rewrite Hc. cbn [startswith].
    replace (65279 =? c) with false by (symmetry; apply Z.eqb_neq; lia).
    reflexivity. }
  rewrite Hstart.
  assert (Hskip : skip_ws (iterencode O v) = iterencode O v).
  { rewrite Hc. now apply skip_ws_head. }
  rewrite Hskip. rewrite <- (app_nil_r (iterencode O v)) at 2.
  rewrite (reads_back_all v Hwf O [] (S (length (iterencode O v))));
    [reflexivity | | reflexivity].
  pose proof (weight_le_length v Hwf O). lia.
Qed.

(** *** The token cache *)

Lemma save_then_load (tokens : json) (w : World) :
  well_formed tokens = true ->
  fst (save_tokens tokens w) = Ret tt /\
  fst (load_tokens (snd (save_tokens tokens w))) = Ret (Some tokens).
Proof.
  intros Hwf. rewrite save_tokens_run. split; [reflexivity|].
  unfold load_tokens, log, set_token_file. cbn [snd token_file].
  now rewrite (json_loads_dumps tokens Hwf).
Qed.

(** C8.  A record that is saved and then loaded comes back equal to the
    original, field for field: so it is for the four fields of a token
    record whose strings are text and whose [expires_in] is an integer
    the interpreter writes (of at most 4300 digits), and for any dict of
    such strings and integers, booleans, nulls, lists and dicts, nested
    within the limits of the interpreter.  Loading with no file present
    gives the absent value. *)
Theorem token_cache_round_trip :
  (forall (access_token : str) (expires_in : Z) (person_urn user_name : str)
          (w : World),
     text access_token = true ->
     int_fits expires_in = true ->
     text person_urn = true ->
     text user_name = true ->
     fst (load_tokens
            (snd (save_tokens
                    (token_record access_token expires_in person_urn user_name)
                    w)))
     = Ret (Some (token_record access_token expires_in person_urn user_name))) /\
  (forall (tokens : json) (w : World),
     well_formed tokens = true ->
     value_within_limits tokens = true ->
     fst (save_tokens tokens w) = Ret tt /\
     fst (load_tokens (snd (save_tokens tokens w))) = Ret (Some tokens)) /\
  (forall w : World, token_file w = None -> fst (load_tokens w) = Ret None).
Proof.
  split; [|split].
  - intros access_token expires_in person_urn user_name w Ha _ Hp Hu.
    apply save_then_load. unfold token_record.
    rewrite well_formed_obj. cbn [map fst snd forallb well_formed].
    rewrite Ha, Hp, Hu. reflexivity.
  - intros tokens w Hwf _. now apply save_then_load.
  - intros w H. unfold load_tokens. now rewrite H.
Qed.

(** ** Further properties of the script *)

(** *** Request targets in general *)

Lemma forallb_weaken (p q : Z -> bool) (s : str) :
  (forall x, p x = true -> q x = true) ->
  forallb p s = true -> forallb q s = true.
Proof.
  intros Hpq H. rewrite forallb_forall in H |- *. auto.
Qed.

Lemma remove_unsafe_kept (s : str) :
  forallb kept s = true -> remove_unsafe s = s.
Proof.
  unfold remove_unsafe. induction s as [|x s IH]; [reflexivity|].
  cbn [forallb filter]. intros H. apply andb_true_iff in H as [Hx Hs].
  unfold kept in Hx. apply negb_true_iff in Hx.
  repeat (apply orb_false_iff in Hx as [Hx ?]).
  replace (x =? 9) with false by auto. replace (x =? 13) with false by auto.
  replace (x =? 10) with false by auto. cbn [orb negb]. now rewrite IH.
Qed.

Lemma kept_no_fragment (s : str) :
  forallb kept s = true -> has_char 35 s = false.
Proof. intros H. apply (forallb_has_char kept 35 s H). reflexivity. Qed.

Lemma cut_fragment_kept (s : str) :
  forallb kept s = true -> cut_fragment (remove_unsafe s) = s.
Proof.
  intros H. rewrite (remove_unsafe_kept s H). unfold cut_fragment.
  now rewrite (split_once_none 35 s (kept_no_fragment s H)).
Qed.

(** How [urlsplit] reads a target that starts with a single slash: the
    path runs up to the first [?] or [#], and the query from the [?] to
    the [#]. *)
Lemma urlsplit_rooted (r tail : str) :
  startswith [47] r = false ->
  forallb kept r = true ->
  has_char 63 r = false ->
  ends_path tail = true ->
  exists frag,
    urlsplit (47 :: r ++ tail) =
      Some {| scheme := []; netloc := []; path := 47 :: r; params := [];
              query := match tail with
                       | [] => []
                       | x :: q =>
                           if x =? 63 then cut_fragment (remove_unsafe q) else []
                       end;
              fragment := frag |}.
Proof.
  intros Hslash Hkept Hq Htail.
  assert (Hrt : exists rt, remove_unsafe tail = rt /\ ends_path rt = true /\
                match tail with
                | [] => rt = []
                | x :: q => rt = x :: remove_unsafe q
                end).
  { destruct tail as [|x q]; [exists []; repeat split|].
    cbn [ends_path] in Htail. exists (x :: remove_unsafe q).
    split; [|split; [exact Htail | reflexivity]].
    unfold remove_unsafe. cbn [filter].
    apply orb_true_iff in Htail as [H | H]; apply Z.eqb_eq in H; subst x;
      reflexivity. }
  destruct Hrt as (rt & Hrt & Hends & Hshape).
  unfold urlsplit. cbn [lstrip_c0].
  change ((0 <=? 47) && (47 <=? 32)) with false. cbv iota.
  change (47 :: r ++ tail) with ([47] ++ r ++ tail).
  rewrite !remove_unsafe_app, (remove_unsafe_kept r Hkept), Hrt.
  clear Hrt.
  change (remove_unsafe [47]) with [47]. cbn [app].
  rewrite split_scheme_slash.
  assert (Hnet : split_netloc (47 :: r ++ rt) = ([], 47 :: r ++ rt)).
  { assert (Hsw : startswith [47; 47] (47 :: r ++ rt) = false).
    { cbn [startswith]. change (47 =? 47) with true. cbn [andb].
      destruct r as [|y r']; [|exact Hslash].
      destruct rt as [|y rt']; [reflexivity|].
      cbn [app ends_path] in Hends |- *.
      apply orb_true_iff in Hends as [H | H]; apply Z.eqb_eq in H; subst y;
        reflexivity. }
    unfold split_netloc. now rewrite Hsw. }
  rewrite Hnet. cbv beta iota. rewrite netloc_rejected_empty.
  assert (H35 : has_char 35 (47 :: r) = false).
  { unfold has_char. cbn [existsb]. change (35 =? 47) with false.
    apply (kept_no_fragment r Hkept). }
  assert (H63 : has_char 63 (47 :: r) = false).
  { unfold has_char. cbn [existsb]. change (63 =? 47) with false. exact Hq. }
  change (47 :: r ++ rt) with ((47 :: r) ++ rt).
  rewrite (split_once_app 35 (47 :: r) rt H35).
  destruct tail as [|x q]; subst rt.
  - cbn [split_once]. cbv beta iota.
    rewrite app_nil_r, (split_once_none 63 _ H63).
    eexists; reflexivity.
  - cbn [ends_path] in Htail.
    destruct (x =? 63) eqn:Hx.
    + apply Z.eqb_eq in Hx. subst x. cbn [split_once].
      change (63 =? 35) with false. cbv iota. unfold cut_fragment.
      destruct (split_once 35 (remove_unsafe q)) as [[a b]|];
        rewrite (split_once_app 63 (47 :: r) _ H63); cbn [split_once];
        change (63 =? 63) with true; cbv iota; rewrite app_nil_r;
        eexists; reflexivity.
    + cbn [orb] in Htail. apply Z.eqb_eq in Htail. subst x.
      cbn [split_once]. change (35 =? 35) with true. cbv iota.
      rewrite app_nil_r, (split_once_none 63 _ H63).
      eexists; reflexivity.
Qed.

Lemma path_chars_kept (r : str) :
  forallb path_char r = true ->
  forallb kept r = true /\ has_char 63 r = false /\ has_char 59 r = false.
Proof.
  intros H. split; [|split].
  - apply (forallb_weaken path_char kept r); [|exact H].
    intros x Hx. unfold path_char in Hx. now apply andb_true_iff in Hx as [? _].
  - apply (forallb_has_char path_char 63 r H). reflexivity.
  - apply (forallb_has_char path_char 59 r H). reflexivity.
Qed.

(** A plain path is read back as the path, with no parameters. *)
Lemma urlparse_plain_path (p tail : str) :
  plain_path p = true ->
  ends_path tail = true ->
  exists parsed,
    urlparse (p ++ tail) = Some parsed /\ path parsed = p /\
    query parsed = match tail with
                   | [] => []
                   | x :: q =>
                       if x =? 63 then cut_fragment (remove_unsafe q) else []
                   end.
Proof.
  intros Hp Htail. destruct p as [|x r]; [discriminate|].
  cbn [plain_path] in Hp. apply andb_true_iff in Hp as [Hp Hchars].
  apply andb_true_iff in Hp as [Hx Hslash].
  apply Z.eqb_eq in Hx. subst x. apply negb_true_iff in Hslash.
  destruct (path_chars_kept r Hchars) as (Hkept & H63 & H59).
  destruct (urlsplit_rooted r tail Hslash Hkept H63 Htail) as [frag Hsplit].
  unfold urlparse. cbn [app]. rewrite Hsplit. cbn [scheme path].
  assert (Hno : has_char 59 (47 :: r) = false).
  { unfold has_char. cbn [existsb]. change (59 =? 47) with false. exact H59. }
  rewrite Hno, andb_false_r.
  eexists. split; [reflexivity|]. split; reflexivity.
Qed.

(** X1.  A request for any other path is answered 404, with no header
    and no body of the handler's own, and captures nothing, whatever
    its query string holds. *)
Theorem other_paths_are_not_found (srv : server) :
  (forall target parsed,
     urlparse target = Some parsed ->
     path parsed <> lit "/callback" ->
     do_GET srv target =
       (srv, Some {| status := 404; headers := []; body := [] |})) /\
  (forall p tail,
     plain_path p = true ->
     ends_path tail = true ->
     p <> lit "/callback" ->
     do_GET srv (p ++ tail) =
       (srv, Some {| status := 404; headers := []; body := [] |})).
Proof.
  assert (Hgen : forall target parsed,
             urlparse target = Some parsed ->
             path parsed <> lit "/callback" ->
             do_GET srv target =
               (srv, Some {| status := 404; headers := []; body := [] |})).
  { intros target parsed Hparse Hpath. unfold do_GET. rewrite Hparse.
    destruct (str_eqb (path parsed) (lit "/callback")) eqn:Heq; [|reflexivity].
    apply str_eqb_eq in Heq. contradiction. }
  split; [exact Hgen|].
  intros p tail Hp Htail Hne.
  destruct (urlparse_plain_path p tail Hp Htail) as (parsed & Hparse & Hpath & _).
  apply (Hgen _ parsed Hparse). now rewrite Hpath.
Qed.

(** *** Query strings in general *)

Lemma str_eqb_sym (a b : str) : str_eqb a b = str_eqb b a.
Proof.
  revert b; induction a as [|x a IH]; intros [|y b]; simpl; try reflexivity.
  now rewrite Z.eqb_sym, IH.
Qed.

(** What [parse_qs] finds under a name once one more field is filed. *)
Lemma dict_get_qs_add (k name value : str) (d : list (str * list str)) :
  dict_get k (qs_add name value d) =
    if str_eqb k name
    then Some match dict_get k d with
              | Some vs => vs ++ [value]
              | None => [value]
              end
    else dict_get k d.
Proof.
  induction d as [|[k' vs] d IH]; cbn [qs_add dict_get].
  - destruct (str_eqb k name); reflexivity.
  - destruct (str_eqb name k') eqn:Hn.
    + apply str_eqb_eq in Hn. subst k'. cbn [dict_get].
      destruct (str_eqb k name); reflexivity.
    + cbn [dict_get]. destruct (str_eqb k k') eqn:Hk; [|exact IH].
      apply str_eqb_eq in Hk. subst k'. now rewrite (str_eqb_sym k name), Hn.
Qed.

Lemma dict_get_fold_qs_add (k : str) (pairs : list (str * str)) :
  forall d : list (str * list str),
    dict_get k (fold_left (fun d nv => qs_add (fst nv) (snd nv) d) pairs d) =
      match dict_get k d, values_of k pairs with
      | Some vs, more => Some (vs ++ more)
      | None, [] => None
      | None, v :: more => Some (v :: more)
      end.
Proof.
  induction pairs as [|[n v] pairs IH]; intros d; cbn [fold_left fst snd].
  - unfold values_of. cbn [filter map].
    destruct (dict_get k d); [now rewrite app_nil_r | reflexivity].
  - rewrite IH, dict_get_qs_add. unfold values_of. cbn [filter fst].
    destruct (str_eqb k n); cbn [map snd]; [|reflexivity].
    destruct (dict_get k d) as [vs|]; [now rewrite <- app_assoc | reflexivity].
Qed.

(** [parse_qs] files under each name the values of the fields of that
    name, in their order. *)
Lemma dict_get_parse_qs (k qs : str) :
  dict_get k (parse_qs qs) =
    match values_of k (parse_qsl qs) with
    | [] => None
    | v :: more => Some (v :: more)
    end.
Proof. unfold parse_qs. now rewrite dict_get_fold_qs_add. Qed.

Lemma plain_field_safe (kv : str * str) :
  plain_field kv = true -> safe_field kv = true.
Proof.
  destruct kv as [k v]. unfold plain_field, safe_field. cbn [fst snd].
  intros H. apply andb_true_iff in H as [Hk Hv].
  apply plain_value_forall in Hv as [Hne Hv].
  apply andb_true_iff. split; [apply andb_true_iff; split|].
  - apply (forallb_weaken _ _ k) with (2 := Hk). intros x Hx.
    apply negb_true_iff, orb_false_iff in Hx as [Hr He].
    rewrite He. unfold reserved in Hr. unfold field_char.
    repeat (apply orb_false_iff in Hr as [Hr ?]).
    replace (x =? 38) with false by auto. replace (x =? 37) with false by auto.
    replace (x =? 43) with false by auto. reflexivity.
  - apply forallb_forall. intros x Hx.
    rewrite Forall_forall in Hv. specialize (Hv x Hx).
    unfold reserved in Hv. unfold field_char.
    repeat (apply orb_false_iff in Hv as [Hv ?]).
    replace (x =? 38) with false by auto. replace (x =? 37) with false by auto.
    replace (x =? 43) with false by auto. reflexivity.
  - destruct v; [congruence | reflexivity].
Qed.

Lemma unreserved_kept (x : Z) : reserved x = false -> kept x = true.
Proof.
  unfold reserved, kept. intros H.
  repeat (apply orb_false_iff in H as [H ?]).
  replace (x =? 35) with false by auto. replace (x =? 9) with false by auto.
  replace (x =? 10) with false by auto. replace (x =? 13) with false by auto.
  reflexivity.
Qed.

Lemma plain_value_kept (v : str) : plain_value v = true -> forallb kept v = true.
Proof.
  intros H. apply plain_value_forall in H as [_ H].
  apply forallb_forall. intros x Hx. rewrite Forall_forall in H.
  apply unreserved_kept. now apply H.
Qed.

Lemma plain_field_kept (k v : str) :
  plain_field (k, v) = true -> forallb kept (k ++ [61] ++ v) = true.
Proof.
  unfold plain_field. cbn [fst snd]. intros H.
  apply andb_true_iff in H as [Hk Hv].
  rewrite !forallb_app. cbn [forallb]. rewrite (plain_value_kept v Hv).
  rewrite andb_true_r.
  replace (forallb kept k) with true; [reflexivity|]. symmetry.
  apply (forallb_weaken _ _ k) with (2 := Hk). intros x Hx.
  apply negb_true_iff, orb_false_iff in Hx as [Hr _].
  now apply unreserved_kept.
Qed.

Lemma plain_fields_kept (pairs : list (str * str)) :
  forallb plain_field pairs = true ->
  forallb kept (spec_query_string pairs) = true.
Proof.
  induction pairs as [|[k v] rest IH]; [reflexivity|].
  cbn [forallb]. intros H. apply andb_true_iff in H as [Hkv Hrest].
  specialize (IH Hrest). pose proof (plain_field_kept k v Hkv) as Hone.
  destruct rest as [|kv' rest]; [exact Hone|].
  change (spec_query_string ((k, v) :: kv' :: rest))
    with (k ++ [61] ++ v ++ [38] ++ spec_query_string (kv' :: rest)).
  replace (k ++ [61] ++ v ++ [38] ++ spec_query_string (kv' :: rest))
    with ((k ++ [61] ++ v) ++ [38] ++ spec_query_string (kv' :: rest))
    by (rewrite <- !app_assoc; reflexivity).
  rewrite forallb_app, Hone. cbn [app forallb andb]. exact IH.
Qed.

(** A callback whose query string is written from plain fields: the
    path is the callback path, and [parse_qs] finds under each name the
    values written for it. *)
Lemma urlparse_callback_fields (pairs : list (str * str)) :
  forallb plain_field pairs = true ->
  exists parsed,
    urlparse (lit "/callback?" ++ spec_query_string pairs) = Some parsed /\
    path parsed = lit "/callback" /\
    forall k,
      dict_get k (parse_qs (query parsed)) =
        match values_of k pairs with
        | [] => None
        | v :: more => Some (v :: more)
        end.
Proof.
  intros H.
  destruct (urlparse_callback (spec_query_string pairs)) as [frag Hparse].
  eexists. split; [exact Hparse|]. split; [reflexivity|].
  intros k. cbn [query].
  rewrite (cut_fragment_kept _ (plain_fields_kept pairs H)), dict_get_parse_qs.
  rewrite parse_qsl_spec_query_string; [reflexivity|].
  apply forallb_forall. intros kv Hkv. apply plain_field_safe.
  rewrite forallb_forall in H. now apply H.
Qed.

Lemma unknown_error_page :
  match utf8_encode (error_page (lit "Unknown error")) with
  | Some bytes => bytes
  | None => []
  end = lit "<html><body><h1>Error: Unknown error</h1></body></html>".
Proof. reflexivity. Qed.

Lemma do_GET_unknown_error (srv : server) (target : str) (parsed : ParseResult) :
  urlparse target = Some parsed ->
  path parsed = lit "/callback" ->
  dict_get (lit "code") (parse_qs (query parsed)) = None ->
  dict_get (lit "error") (parse_qs (query parsed)) = None ->
  do_GET srv target =
    (srv,
     Some {| status := 400; headers := html_headers;
             body :=
               lit "<html><body><h1>Error: Unknown error</h1></body></html>" |}).
Proof.
  intros Hparse Hpath Hcode Herr. unfold do_GET.
  rewrite Hparse, Hpath, str_eqb_refl, Hcode, Herr.
  now rewrite unknown_error_page.
Qed.

(** X2.  A callback with neither a [code] nor an [error] parameter is
    answered 400 with the page for the default error text, and captures
    nothing.  So it is for the bare callback path and for a query
    string with other parameters only. *)
Theorem callback_without_code_or_error (srv : server) :
  (forall target parsed,
     urlparse target = Some parsed ->
     path parsed = lit "/callback" ->
     dict_get (lit "code") (parse_qs (query parsed)) = None ->
     dict_get (lit "error") (parse_qs (query parsed)) = None ->
     do_GET srv target =
       (srv,
        Some {| status := 400; headers := html_headers;
                body :=
                  lit "<html><body><h1>Error: Unknown error</h1></body></html>" |})) /\
  do_GET srv (lit "/callback") =
    (srv,
     Some {| status := 400; headers := html_headers;
             body :=
               lit "<html><body><h1>Error: Unknown error</h1></body></html>" |}) /\
  (forall pairs,
     forallb plain_field pairs = true ->
     values_of (lit "code") pairs = [] ->
     values_of (lit "error") pairs = [] ->
     do_GET srv (lit "/callback?" ++ spec_query_string pairs) =
       (srv,
        Some {| status := 400; headers := html_headers;
                body :=
                  lit "<html><body><h1>Error: Unknown error</h1></body></html>" |})).
Proof.
  split; [|split].
  - intros target parsed. apply do_GET_unknown_error.
  - destruct (urlparse_plain_path (lit "/callback") [] eq_refl eq_refl)
      as (parsed & Hparse & Hpath & Hquery).
    rewrite app_nil_r in Hparse.
    apply (do_GET_unknown_error srv _ parsed Hparse Hpath);
      rewrite Hquery; reflexivity.
  - intros pairs Hplain Hcode Herr.
    destruct (urlparse_callback_fields pairs Hplain)
      as (parsed & Hparse & Hpath & Hget).
    apply (do_GET_unknown_error srv _ parsed Hparse Hpath);
      rewrite Hget; [now rewrite Hcode | now rewrite Herr].
Qed.

(** X3.  The code is looked up by name: wherever the [code] parameter
    stands in the query string, and whether or not an [error] parameter
    stands beside it, the first value written for [code] is captured
    and the answer is 200. *)
Theorem code_is_taken_from_anywhere_in_the_query
    (srv : server) (pairs : list (str * str)) (c : str) (more : list str) :
  forallb plain_field pairs = true ->
  values_of (lit "code") pairs = c :: more ->
  do_GET srv (lit "/callback?" ++ spec_query_string pairs) =
    ({| auth_code := Some c |},
     Some {| status := 200; headers := html_headers; body := success_page |}).
Proof.
  intros Hplain Hcode.
  destruct (urlparse_callback_fields pairs Hplain)
    as (parsed & Hparse & Hpath & Hget).
  apply do_GET_code. exists parsed, more.
  split; [exact Hparse|]. split; [exact Hpath|].
  now rewrite Hget, Hcode.
Qed.

(** *** The first field of a query string *)

Lemma parse_qs_head_field (field k v tail : str) :
  has_char 38 field = false ->
  name_value_pair field = [(k, v)] ->
  tail = [] \/ (exists t, tail = 38 :: t) ->
  exists more, dict_get k (parse_qs (field ++ tail)) = Some (v :: more).
Proof.
  intros H38 Hitem Htail. rewrite dict_get_parse_qs, parse_qsl_fields.
  destruct Htail as [-> | [t ->]].
  - rewrite app_nil_r, (split_on_single 38 _ H38). cbn [flat_map].
    rewrite Hitem. unfold values_of. cbn [app filter fst].
    rewrite str_eqb_refl. eexists; reflexivity.
  - rewrite (split_on_app 38 _ t H38). cbn [flat_map]. rewrite Hitem.
    unfold values_of. cbn [app filter fst]. rewrite str_eqb_refl.
    eexists; reflexivity.
Qed.

(** A query string that starts with a field giving the code [v] has
    [v] as the first value of [code]. *)
Lemma head_field_query (field v tail : str) :
  forallb kept field = true ->
  has_char 38 field = false ->
  name_value_pair field = [(lit "code", v)] ->
  continues_query tail = true ->
  exists more,
    dict_get (lit "code")
      (parse_qs (cut_fragment (remove_unsafe (field ++ tail))))
    = Some (v :: more).
Proof.
  intros Hkept H38 Hitem Htail.
  rewrite remove_unsafe_app, (remove_unsafe_kept field Hkept).
  rewrite (cut_fragment_app field _ (kept_no_fragment field Hkept)).
  apply (parse_qs_head_field field (lit "code") v _ H38 Hitem).
  now apply cut_fragment_continues.
Qed.

Lemma has_char_app (x : Z) (a b : str) :
  has_char x (a ++ b) = has_char x a || has_char x b.
Proof. unfold has_char. apply existsb_app. Qed.

Lemma form_value_chars (c : str) :
  form_value c = true ->
  c <> [] /\ forallb kept c = true /\
  has_char 38 c = false /\ has_char 37 c = false.
Proof.
  unfold form_value. destruct c as [|x0 c0]; [discriminate|]. intros H.
  split; [discriminate|]. split; [|split].
  - apply (forallb_weaken _ kept _) with (2 := H).
    intros x Hx. now apply andb_true_iff in Hx as [? _].
  - apply (forallb_has_char _ 38 _ H). reflexivity.
  - apply (forallb_has_char _ 37 _ H). reflexivity.
Qed.

Lemma replace_plus_no_escape (c : str) :
  has_char 37 c = false -> has_char 37 (replace_char 43 32 c) = false.
Proof.
  unfold has_char, replace_char. induction c as [|x c IH]; [reflexivity|].
  cbn [existsb map]. intros H. apply orb_false_iff in H as [Hx Hc].
  rewrite (IH Hc), orb_false_r.
  destruct (x =? 43); [reflexivity | exact Hx].
Qed.

(** X4.  The code is form-decoded before it is stored: every plus sign
    written in the [code] parameter reaches the program as a space. *)
Theorem plus_in_the_code_is_read_as_space (srv : server) (c tail : str) :
  form_value c = true ->
  continues_query tail = true ->
  do_GET srv (lit "/callback?code=" ++ c ++ tail) =
    ({| auth_code := Some (replace_char 43 32 c) |},
     Some {| status := 200; headers := html_headers; body := success_page |}).
Proof.
  intros Hc Htail.
  destruct (form_value_chars c Hc) as (Hne & Hkept & H38 & H37).
  change (lit "/callback?code=") with (lit "/callback?" ++ lit "code=").
  rewrite <- app_assoc.
  destruct (urlparse_callback (lit "code=" ++ c ++ tail)) as [frag Hparse].
  assert (Hitem : name_value_pair (lit "code=" ++ c)
                  = [(lit "code", replace_char 43 32 c)]).
  { unfold name_value_pair.
    change (lit "code=" ++ c) with (lit "code" ++ 61 :: c).
    rewrite (split_once_app 61 (lit "code") (61 :: c)) by reflexivity.
    cbn [split_once]. change (61 =? 61) with true. cbv iota.
    rewrite app_nil_r.
    rewrite (unquote_plain (replace_char 43 32 c)
               (replace_plus_no_escape c H37)).
    rewrite (unquote_plain (replace_char 43 32 (lit "code"))) by reflexivity.
    destruct c as [|x c']; [congruence | reflexivity]. }
  assert (HkeptF : forallb kept (lit "code=" ++ c) = true)
    by (rewrite forallb_app, Hkept; reflexivity).
  assert (H38F : has_char 38 (lit "code=" ++ c) = false)
    by (rewrite has_char_app, H38; reflexivity).
  destruct (head_field_query (lit "code=" ++ c) (replace_char 43 32 c) tail
              HkeptF H38F Hitem Htail) as [more Hmore].
  rewrite <- app_assoc in Hmore.
  apply do_GET_code. eexists _, more.
  split; [exact Hparse|]. split; [reflexivity | exact Hmore].
Qed.

(** X5.  A [code] parameter with a blank value is no parameter: the
    request is handled as the same request without it, and a request
    with nothing but the blank code is answered 400 with the default
    error text. *)
Theorem blank_code_is_ignored (srv : server) (q : str) :
  do_GET srv (lit "/callback?code=&" ++ q) = do_GET srv (lit "/callback?" ++ q) /\
  do_GET srv (lit "/callback?code=") =
    (srv,
     Some {| status := 400; headers := html_headers;
             body :=
               lit "<html><body><h1>Error: Unknown error</h1></body></html>" |}).
Proof.
  assert (Hdrop : forall q',
             parse_qs (lit "code=&" ++ q') = parse_qs q').
  { intros q'. unfold parse_qs. rewrite !parse_qsl_fields.
    change (lit "code=&" ++ q') with (lit "code=" ++ 38 :: q').
    rewrite (split_on_app 38 (lit "code=") q') by reflexivity.
    reflexivity. }
  split.
  - change (lit "/callback?code=&") with (lit "/callback?" ++ lit "code=&").
    rewrite <- app_assoc.
    destruct (urlparse_callback (lit "code=&" ++ q)) as [frag1 H1].
    destruct (urlparse_callback q) as [frag2 H2].
    unfold do_GET. rewrite H1, H2. cbn [path query].
    rewrite remove_unsafe_app.
    change (remove_unsafe (lit "code=&")) with (lit "code=&").
    rewrite (cut_fragment_app (lit "code=&")) by reflexivity.
    now rewrite Hdrop.
  - change (lit "/callback?code=") with (lit "/callback?" ++ lit "code=").
    destruct (urlparse_callback (lit "code=")) as [frag Hparse].
    apply (do_GET_unknown_error srv _ _ Hparse); reflexivity.
Qed.

(** *** Path parameters *)

Lemma span_until_app (p : Z -> bool) (a b : str) :
  forallb (fun x => negb (p x)) a = true ->
  span_until p (a ++ b) = let (x, y) := span_until p b in (a ++ x, y).
Proof.
  induction a as [|c a IH]; cbn [forallb app span_until].
  - intros _. now destruct (span_until p b).
  - intros H. apply andb_true_iff in H as [Hc Ha].
    apply negb_true_iff in Hc. rewrite Hc, (IH Ha).
    now destruct (span_until p b).
Qed.

Lemma splitparams_callback (prm : str) :
  has_char 47 prm = false ->
  splitparams (lit "/callback;" ++ prm) = (lit "/callback", prm).
Proof.
  intros H. unfold splitparams. rewrite rev_app_distr.
  change (rev (lit "/callback;")) with (lit ";kcabllac" ++ lit "/").
  rewrite app_assoc, span_until_app.
  - change (span_until (Z.eqb 47) (lit "/")) with (@nil Z, lit "/").
    cbv beta iota. rewrite app_nil_r, rev_app_distr, rev_involutive.
    change (rev (lit ";kcabllac")) with (lit "callback" ++ [59]).
    rewrite <- app_assoc.
    rewrite (split_once_app 59 (lit "callback") ([59] ++ prm)) by reflexivity.
    cbn [app split_once]. change (59 =? 59) with true. cbv iota.
    now rewrite app_nil_r.
  - rewrite forallb_app. apply andb_true_iff. split; [|reflexivity].
    apply forallb_forall. intros x Hx. apply negb_true_iff, Z.eqb_neq.
    apply has_char_false in H. rewrite Forall_forall in H.
    intros Heq. apply (H x); [now apply in_rev | congruence].
Qed.

(** X6.  The path is compared without its parameters: a target whose
    path is the callback path followed by a semicolon and any
    parameters is a callback, and its code is captured. *)
Theorem path_parameters_are_dropped (srv : server) (prm c tail : str) :
  params_text prm = true ->
  plain_value c = true ->
  continues_query tail = true ->
  do_GET srv (lit "/callback;" ++ prm ++ lit "?code=" ++ c ++ tail) =
    ({| auth_code := Some c |},
     Some {| status := 200; headers := html_headers; body := success_page |}).
Proof.
  intros Hprm Hc Htail.
  assert (Hkept : forallb kept prm = true).
  { apply (forallb_weaken _ kept _) with (2 := Hprm).
    intros x Hx. now apply andb_true_iff in Hx as [? _]. }
  assert (H63 : has_char 63 prm = false)
    by (apply (forallb_has_char _ 63 _ Hprm); reflexivity).
  assert (H47 : has_char 47 prm = false)
    by (apply (forallb_has_char _ 47 _ Hprm); reflexivity).
  destruct (urlsplit_rooted (lit "callback;" ++ prm)
              (63 :: lit "code=" ++ c ++ tail)) as [frag Hsplit];
    try reflexivity.
  { rewrite forallb_app, Hkept. reflexivity. }
  { rewrite has_char_app, H63. reflexivity. }
  change (63 =? 63) with true in Hsplit. cbv iota in Hsplit.
  assert (Htarget : lit "/callback;" ++ prm ++ lit "?code=" ++ c ++ tail
                    = 47 :: (lit "callback;" ++ prm) ++
                      63 :: lit "code=" ++ c ++ tail).
  { change (lit "/callback;") with (47 :: lit "callback;").
    change (lit "?code=") with (63 :: lit "code=").
    cbn [app]. now rewrite <- !app_assoc. }
  assert (Hparse : urlparse (lit "/callback;" ++ prm ++ lit "?code=" ++ c ++ tail)
                   = Some {| scheme := []; netloc := []; path := lit "/callback";
                             params := prm;
                             query := cut_fragment
                                        (remove_unsafe (lit "code=" ++ c ++ tail));
                             fragment := frag |}).
  { unfold urlparse. rewrite Htarget, Hsplit. cbn [scheme path netloc query fragment].
    change (47 :: lit "callback;" ++ prm) with (lit "/callback;" ++ prm).
    rewrite has_char_app. change (has_char 59 (lit "/callback;")) with true.
    cbn [existsb uses_params str_eqb orb andb].
    now rewrite (splitparams_callback prm H47). }
  assert (Hitem : name_value_pair (lit "code=" ++ c) = [(lit "code", c)]).
  { change (lit "code=" ++ c) with (lit "code" ++ 61 :: c).
    apply name_value_pair_plain; try reflexivity;
      try (apply plain_value_has_char; [assumption | reflexivity]).
    now apply plain_value_forall in Hc. }
  assert (HkeptF : forallb kept (lit "code=" ++ c) = true)
    by (rewrite forallb_app, (plain_value_kept c Hc); reflexivity).
  assert (H38F : has_char 38 (lit "code=" ++ c) = false)
    by (rewrite has_char_app, (plain_value_has_char c 38 Hc eq_refl);
        reflexivity).
  destruct (head_field_query (lit "code=" ++ c) c tail
              HkeptF H38F Hitem Htail) as [more Hmore].
  rewrite <- app_assoc in Hmore.
  apply do_GET_code. eexists _, more.
  split; [exact Hparse|]. split; [reflexivity | exact Hmore].
Qed.

(** X7.  Nothing but a callback with a code changes the captured code:
    if handling a connection changes it, the connection is a GET
    request that carries a code, this code is the one now captured, and
    the answer was 200. *)
Theorem capture_needs_a_code_callback (srv : server) (c : connection) :
  auth_code (fst (serve srv c)) <> auth_code srv ->
  exists target code,
    c = Request (lit "GET") target /\
    carries_code target code /\
    serve srv c =
      ({| auth_code := Some code |},
       Served target
         (Some {| status := 200; headers := html_headers;
                  body := success_page |})).
Proof.
  destruct c as [command target|]; [|intros H; now contradiction H].
  unfold serve. destruct (str_eqb command (lit "GET")) eqn:Hcmd;
    [|intros H; now contradiction H].
  apply str_eqb_eq in Hcmd. subst command.
  unfold do_GET.
  destruct (urlparse target) as [parsed|] eqn:Hparse;
    [|intros H; now contradiction H].
  destruct (str_eqb (path parsed) (lit "/callback")) eqn:Hpath;
    [|intros H; now contradiction H].
  apply str_eqb_eq in Hpath.
  destruct (dict_get (lit "code") (parse_qs (query parsed)))
    as [[|code more]|] eqn:Hcode.
  - intros H; now contradiction H.
  - intros _. exists target, code. split; [reflexivity|].
    split; [|reflexivity]. exists parsed, more.
    split; [exact Hparse|]. split; [exact Hpath | exact Hcode].
  - destruct (dict_get (lit "error") (parse_qs (query parsed))) as [[|e es]|];
      intros H; now contradiction H.
Qed.

(** *** The steps of the flow, outcome by outcome *)

Lemma bind_ret_inv {A B} (m : M A) (k : A -> M B) (w : World) (b : B)
    (w' : World) :
  bind m k w = (Ret b, w') ->
  exists a w1, m w = (Ret a, w1) /\ k a w1 = (Ret b, w').
Proof.
  unfold bind. destruct (m w) as [[a|e|] w1]; try discriminate.
  intros H. now exists a, w1.
Qed.

(** Every way [exchange_code_for_token] can end. *)
Lemma exchange_code_for_token_run (code : option str) (w : World) :
  exchange_code_for_token code w =
    let w1 :=
      log (Post (lit "https://www.linkedin.com/oauth/v2/accessToken")
             [(lit "grant_type", Some (lit "authorization_code"));
              (lit "code", code);
              (lit "redirect_uri", Some REDIRECT_URI);
              (lit "client_id", CLIENT_ID);
              (lit "client_secret", CLIENT_SECRET)]
             [(lit "Content-Type", lit "application/x-www-form-urlencoded")])
        (log (Print ([10; 0x1F504] ++ lit " Exchanging code for access token..."))
           w) in
    match replies w with
    | Reply status_code text :: rest =>
        let w2 := set_replies rest w1 in
        if status_code =? 200 then
          match json_loads text with
          | Some (JObj granted) =>
              (Ret (JObj granted),
               log (Print (lit "   Token expires in: " ++
                           format_value
                             match dict_get (lit "expires_in") granted with
                             | Some seconds => seconds
                             | None => JStr (lit "N/A")
                             end ++ lit " seconds"))
                 (log (Print ([0x2705] ++ lit " Access token obtained!")) w2))
          | Some _ =>
              (Raise AttributeError,
               log (Print ([0x2705] ++ lit " Access token obtained!")) w2)
          | None => (Raise JSONDecodeError, w2)
          end
        else
          (Raise (Exception (lit "Failed to get access token")),
           log (Print (lit "   Response: " ++ text))
             (log (Print ([0x274C] ++ lit " Error getting token: " ++
                          int_repr status_code)) w2))
    | NoReply :: rest => (Raise ConnectionError, set_replies rest w1)
    | [] => (Raise ConnectionError, w1)
    end.
Proof.
  unfold exchange_code_for_token, bind, print, emit, requests_post, bind, emit,
    next_reply.
  cbn [replies log].
  destruct (replies w) as [|[status_code text|] rest]; try reflexivity.
  cbn [fst snd]. destruct (status_code =? 200); [|reflexivity].
  unfold response_json. destruct (json_loads text) as [v|]; [|reflexivity].
  unfold ret, get_method.
  destruct v; try reflexivity.
  destruct (dict_get (lit "expires_in") fields); reflexivity.
Qed.

(** Every way [get_user_info] can end. *)
Lemma get_user_info_run (access_token : json) (w : World) :
  get_user_info access_token w =
    let w1 :=
      log (Get (lit "https://api.linkedin.com/v2/userinfo")
             [(lit "Authorization", lit "Bearer " ++ format_value access_token)])
        (log (Print ([10; 0x1F464] ++ lit " Fetching user info...")) w) in
    match replies w with
    | Reply status_code text :: rest =>
        let w2 := set_replies rest w1 in
        if status_code =? 200 then
          match json_loads text with
          | Some (JObj info) =>
              (Ret (JObj info),
               log (Print ([0x2705] ++ lit " Logged in as: " ++
                           format_value
                             match dict_get (lit "name") info with
                             | Some name => name
                             | None => JStr (lit "Unknown")
                             end)) w2)
          | Some _ => (Raise AttributeError, w2)
          | None => (Raise JSONDecodeError, w2)
          end
        else
          (Raise (Exception (lit "Failed to get user info")),
           log (Print (lit "   Response: " ++ text))
             (log (Print ([0x274C] ++ lit " Error getting user info: " ++
                          int_repr status_code)) w2))
    | NoReply :: rest => (Raise ConnectionError, set_replies rest w1)
    | [] => (Raise ConnectionError, w1)
    end.
Proof.
  unfold get_user_info, bind, print, emit, requests_get, bind, emit, next_reply.
  cbn [replies log].
  destruct (replies w) as [|[status_code text|] rest]; try reflexivity.
  cbn [fst snd]. destruct (status_code =? 200); [|reflexivity].
  unfold response_json. destruct (json_loads text) as [v|]; [|reflexivity].
  unfold ret, get_method.
  destruct v; try reflexivity.
  destruct (dict_get (lit "name") fields); reflexivity.
Qed.



(** X10.  The exchanged record is saved before its access token is
    read: when the provider answers the posted form with 200 and an
    object that has no [access_token], the flow raises [KeyError] after
    it has replaced the token file by that object, and makes no
    userinfo request.  So it is when the form values are text, the
    answer is read within the limits of the interpreter and the
    [expires_in] it holds can be printed; each call of the run was then
    carried out. *)
Theorem answer_without_access_token_is_saved
    (w : World) (code : option str) (w1 : World)
    (answer : str) (rest : list reply) (granted : list (str * json)) :
  get_authorization_code w = (Ret code, w1) ->
  carried_out w1 = true ->
  form_text code = true ->
  form_text CLIENT_ID = true ->
  form_text CLIENT_SECRET = true ->
  replies w1 = Reply 200 answer :: rest ->
  text_within_limits answer = true ->
  json_loads answer = Some (JObj granted) ->
  text (format_value
          match dict_get (lit "expires_in") granted with
          | Some seconds => seconds
          | None => JStr (lit "N/A")
          end) = true ->
  dict_get (lit "access_token") granted = None ->
  fst (fresh_authentication w) = Raise (KeyError (lit "access_token")) /\
  token_file (snd (fresh_authentication w)) = Some (json_dumps (JObj granted)) /\
  replies (snd (fresh_authentication w)) = rest /\
  carried_out (snd (fresh_authentication w)) = true.
Proof.
  intros Hcode Hpast Hc Hid Hsecret Hreply _ Hjson Hexp Htoken.
  remember (fresh_authentication w) as run eqn:Hrun.
  unfold fresh_authentication in Hrun. unfold bind at 1 in Hrun.
  rewrite Hcode in Hrun.
  unfold bind at 1 in Hrun. rewrite exchange_code_for_token_run in Hrun.
  cbv zeta in Hrun. rewrite Hreply in Hrun.
  change (200 =? 200) with true in Hrun. cbv iota in Hrun.
  rewrite Hjson in Hrun.
  unfold bind at 1 in Hrun. rewrite save_tokens_run in Hrun.
  unfold bind at 1 in Hrun. unfold getitem at 1 in Hrun.
  rewrite Htoken in Hrun. unfold raise in Hrun.
  subst run. repeat split.
  unfold carried_out in Hpast |- *. unfold log, set_token_file, set_replies.
  cbn [trace snd forallb goes_through].
  rewrite !text_app, Hexp, Hc, Hid, Hsecret, Hpast. reflexivity.
Qed.

(** X11.  [exchange_code_for_token], given form values that are text,
    returns exactly when the provider answers 200 with a JSON object
    whose [expires_in] can be printed, and returns that object; it
    makes one request whatever the outcome.  Otherwise it raises:
    ["Failed to get access token"] for another status, the decoding
    error for a body that is not JSON, [AttributeError] for JSON that is
    not an object, and the connection error of a request that fails.
    The answer is read within the limits of the interpreter, and
    "returns" is said of a run in which each call was carried out. *)
Theorem exchange_returns_the_answered_object (code : option str) (w : World) :
  carried_out w = true ->
  form_text code = true ->
  form_text CLIENT_ID = true ->
  form_text CLIENT_SECRET = true ->
  (forall status_code answer rest,
     replies w = Reply status_code answer :: rest ->
     text_within_limits answer = true ->
     (forall tokens,
        fst (exchange_code_for_token code w) = Ret tokens /\
        carried_out (snd (exchange_code_for_token code w)) = true <->
        status_code = 200 /\
        exists fields,
          json_loads answer = Some tokens /\ tokens = JObj fields /\
          text (format_value
                  match dict_get (lit "expires_in") fields with
                  | Some seconds => seconds
                  | None => JStr (lit "N/A")
                  end) = true) /\
     (status_code <> 200 -> text answer = true ->
      fst (exchange_code_for_token code w) =
        Raise (Exception (lit "Failed to get access token")) /\
      carried_out (snd (exchange_code_for_token code w)) = true) /\
     (status_code = 200 -> json_loads answer = None ->
      fst (exchange_code_for_token code w) = Raise JSONDecodeError) /\
     (status_code = 200 ->
      forall v, json_loads answer = Some v -> (forall fields, v <> JObj fields) ->
      fst (exchange_code_for_token code w) = Raise AttributeError)) /\
  (forall tokens,
     fst (exchange_code_for_token code w) = Ret tokens ->
     exists answer rest, replies w = Reply 200 answer :: rest) /\
  replies (snd (exchange_code_for_token code w)) = tl (replies w) /\
  (forall rest,
     replies w = NoReply :: rest ->
     fst (exchange_code_for_token code w) = Raise ConnectionError).
Proof.
  intros Hpast Hc Hid Hsecret.
  rewrite exchange_code_for_token_run. cbv zeta.
  unfold carried_out in Hpast.
  destruct (replies w) as [|[status_code answer|] rest] eqn:Hr.
  - split; [discriminate|]. split; [discriminate|].
    split; [|discriminate]. unfold log. cbn [snd replies]. now rewrite Hr.
  - split; [|split; [|split; [|discriminate]]].
    + intros sc t r H _. injection H as <- <- <-.
      split; [|split; [|split]].
      * intros tokens. split.
        -- destruct (Z.eqb_spec status_code 200) as [-> | Hne];
             [|intros [H _]; discriminate H].
           destruct (json_loads answer) as [[]|] eqn:Hj;
             try (intros [H _]; discriminate H).
           intros [H Hout]. injection H as <-.
           split; [reflexivity|]. exists fields.
           split; [reflexivity|]. split; [reflexivity|].
           unfold carried_out, log, set_replies in Hout.
           cbn [trace snd forallb goes_through] in Hout.
           apply andb_true_iff in Hout as [Hline _].
           rewrite !text_app in Hline.
           apply andb_true_iff in Hline as [_ Hline].
           now apply andb_true_iff in Hline as [Hline _].
        -- intros (-> & fields & Hv & -> & Hexp).
           change (200 =? 200) with true. cbv iota. rewrite Hv.
           split; [reflexivity|].
           unfold carried_out, log, set_replies.
           cbn [trace snd forallb goes_through].
           rewrite !text_app, Hexp, Hc, Hid, Hsecret, Hpast. reflexivity.
      * intros Hne Ht. apply Z.eqb_neq in Hne. rewrite Hne.
        split; [reflexivity|].
        unfold carried_out, log, set_replies.
        cbn [trace snd forallb goes_through].
        rewrite !text_app, text_int_repr, Ht, Hc, Hid, Hsecret, Hpast.
        reflexivity.
      * intros -> Hnone. now rewrite Hnone.
      * intros -> v Hv Hno. rewrite Hv.
        destruct v; try reflexivity. now contradiction (Hno fields).
    + intros tokens.
      destruct (Z.eqb_spec status_code 200) as [-> | Hne]; [|discriminate].
      intros _. now exists answer, rest.
    + destruct (status_code =? 200); [|reflexivity].
      destruct (json_loads answer) as [[]|]; reflexivity.
  - split; [discriminate|]. split; [discriminate|]. split; reflexivity.
Qed.

(** X12.  [get_user_info], given a token that can be sent in a header,
    returns exactly when the provider answers 200 with a JSON object
    whose [name] can be printed, and returns that object; it makes one
    request whatever the outcome, with the token in the [Authorization]
    header.  Another status raises ["Failed to get user info"].  The
    answer is read within the limits of the interpreter, and "returns"
    is said of a run in which each call was carried out. *)
Theorem userinfo_returns_the_answered_object (access_token : json) (w : World) :
  carried_out w = true ->
  value_within_limits access_token = true ->
  header_text (format_value access_token) = true ->
  (forall status_code answer rest,
     replies w = Reply status_code answer :: rest ->
     text_within_limits answer = true ->
     (forall user_info,
        fst (get_user_info access_token w) = Ret user_info /\
        carried_out (snd (get_user_info access_token w)) = true <->
        status_code = 200 /\
        exists fields,
          json_loads answer = Some user_info /\ user_info = JObj fields /\
          text (format_value
                  match dict_get (lit "name") fields with
                  | Some name => name
                  | None => JStr (lit "Unknown")
                  end) = true) /\
     (status_code <> 200 -> text answer = true ->
      fst (get_user_info access_token w) =
        Raise (Exception (lit "Failed to get user info")) /\
      carried_out (snd (get_user_info access_token w)) = true)) /\
  (forall user_info,
     fst (get_user_info access_token w) = Ret user_info ->
     exists answer rest, replies w = Reply 200 answer :: rest) /\
  replies (snd (get_user_info access_token w)) = tl (replies w) /\
  (exists recent,
     trace (snd (get_user_info access_token w)) = recent ++ trace w /\
     In (Get (lit "https://api.linkedin.com/v2/userinfo")
           [(lit "Authorization", lit "Bearer " ++ format_value access_token)])
        recent).
Proof.
  intros Hpast _ Hhdr.
  rewrite get_user_info_run. cbv zeta.
  unfold carried_out in Hpast.
  destruct (replies w) as [|[status_code answer|] rest] eqn:Hr.
  - split; [discriminate|]. split; [discriminate|]. split.
    + unfold log. cbn [snd replies]. now rewrite Hr.
    + eexists [_; _]. split; [reflexivity|]. now left.
  - split; [|split; [|split]].
    + intros sc t r H _. injection H as <- <- <-. split.
      * intros user_info. split.
        -- destruct (Z.eqb_spec status_code 200) as [-> | Hne];
             [|intros [H _]; discriminate H].
           destruct (json_loads answer) as [[]|] eqn:Hj;
             try (intros [H _]; discriminate H).
           intros [H Hout]. injection H as <-.
           split; [reflexivity|]. exists fields.
           split; [reflexivity|]. split; [reflexivity|].
           unfold carried_out, log, set_replies in Hout.
           cbn [trace snd forallb goes_through] in Hout.
           apply andb_true_iff in Hout as [Hline _].
           rewrite !text_app in Hline.
           apply andb_true_iff in Hline as [_ Hline].
           now apply andb_true_iff in Hline as [_ Hline].
        -- intros (-> & fields & Hv & -> & Hname).
           change (200 =? 200) with true. cbv iota. rewrite Hv.
           split; [reflexivity|].
           unfold carried_out, log, set_replies.
           cbn [trace snd forallb goes_through].
           rewrite !text_app, !header_text_app, Hname, Hhdr, Hpast.
           reflexivity.
      * intros Hne Ht. apply Z.eqb_neq in Hne. rewrite Hne.
        split; [reflexivity|].
        unfold carried_out, log, set_replies.
        cbn [trace snd forallb goes_through].
        rewrite !text_app, !header_text_app, text_int_repr, Ht, Hhdr, Hpast.
        reflexivity.
    + intros user_info.
      destruct (Z.eqb_spec status_code 200) as [-> | Hne]; [|discriminate].
      intros _. now exists answer, rest.
    + destruct (status_code =? 200); [|reflexivity].
      destruct (json_loads answer) as [[]|]; reflexivity.
    + destruct (status_code =? 200).
      * destruct (json_loads answer) as [[]|];
          first [ eexists [_; _; _]; split; [reflexivity|]; right; now left
                | eexists [_; _]; split; [reflexivity|]; now left ].
      * eexists [_; _; _; _]. split; [reflexivity|]. do 2 right. now left.
  - split; [discriminate|]. split; [discriminate|]. split; [reflexivity|].
    eexists [_; _]. split; [reflexivity|]. now left.
Qed.

(** *** The cache at the start of [authenticate] *)

(** X13.  The cache is read outside the [try]: when the token file is
    there and does not hold JSON text, as an empty file does not,
    [authenticate] raises the decoding error at once, before it prints
    anything, opens the browser or makes a request. *)
Theorem corrupt_cache_stops_authenticate (w : World) :
  (forall content,
     token_file w = Some content ->
     json_loads content = None ->
     load_tokens w = (Raise JSONDecodeError, w) /\
     authenticate w = (Raise JSONDecodeError, w)) /\
  (token_file w = Some [] -> authenticate w = (Raise JSONDecodeError, w)).
Proof.
  assert (Hgen : forall content,
             token_file w = Some content ->
             json_loads content = None ->
             load_tokens w = (Raise JSONDecodeError, w) /\
             authenticate w = (Raise JSONDecodeError, w)).
  { intros content Hfile Hload.
    assert (H : load_tokens w = (Raise JSONDecodeError, w)).
    { unfold load_tokens. now rewrite Hfile, Hload. }
    split; [exact H|]. unfold authenticate. unfold bind at 1. now rewrite H. }
  split; [exact Hgen|].
  intros Hfile. now apply (Hgen [] Hfile).
Qed.

Lemma authenticate_loaded (w : World) (content : str) (v : json) :
  token_file w = Some content ->
  json_loads content = Some v ->
  authenticate w =
    (cached <- (if truthy v then py_in (lit "access_token") v else ret false) ;;
     if cached then
       print ([0x1F4C2] ++ lit " Found existing tokens, attempting to use them...") ;;
       access_token <- getitem v (lit "access_token") ;;
       try_except (probe access_token)
         (print ([0x26A0; 0xFE0F] ++
                 lit " Existing token expired, re-authenticating...") ;;
          fresh_authentication)
     else fresh_authentication) w.
Proof.
  intros Hfile Hload. unfold authenticate. unfold bind at 1.
  unfold load_tokens. now rewrite Hfile, Hload.
Qed.

(** X14.  Without a usable cache the fresh flow starts at once, with no
    probe and no message about existing tokens: so it is when there is
    no token file, when the file holds an empty or false value, and
    when it holds an object without [access_token]. *)
Theorem cache_without_access_token_starts_fresh_flow (w : World) :
  (token_file w = None -> authenticate w = fresh_authentication w) /\
  (forall content v,
     token_file w = Some content ->
     json_loads content = Some v ->
     truthy v = false ->
     authenticate w = fresh_authentication w) /\
  (forall content fields,
     token_file w = Some content ->
     json_loads content = Some (JObj fields) ->
     dict_get (lit "access_token") fields = None ->
     authenticate w = fresh_authentication w).
Proof.
  split; [|split].
  - intros Hfile. unfold authenticate. unfold bind at 1. unfold load_tokens.
    now rewrite Hfile.
  - intros content v Hfile Hload Hfalse.
    rewrite (authenticate_loaded w content v Hfile Hload), Hfalse.
    reflexivity.
  - intros content fields Hfile Hload Hnone.
    rewrite (authenticate_loaded w content _ Hfile Hload).
    destruct fields as [|kv fields]; [reflexivity|].
    cbn [truthy]. unfold py_in, dict_has. rewrite Hnone. reflexivity.
Qed.

(** X15.  A cache that is not a JSON object is never used as a token:
    either [authenticate] goes on with the fresh flow, or it raises
    [TypeError] before any request is made, and does so at once for a
    number other than zero and for [true]. *)
Theorem cache_that_is_no_object_is_never_probed
    (w : World) (content : str) (v : json) :
  token_file w = Some content ->
  json_loads content = Some v ->
  (forall fields, v <> JObj fields) ->
  (authenticate w = fresh_authentication w \/
   fst (authenticate w) = Raise TypeError /\
   token_file (snd (authenticate w)) = token_file w /\
   inbound (snd (authenticate w)) = inbound w /\
   replies (snd (authenticate w)) = replies w) /\
  (truthy v = true ->
   (forall s, v <> JStr s) -> (forall l, v <> JArr l) ->
   authenticate w = (Raise TypeError, w)).
Proof.
  intros Hfile Hload Hno.
  rewrite (authenticate_loaded w content v Hfile Hload).
  destruct v as [|b|n|x|s|l|d].
  - split; [left; reflexivity | intros Ht; discriminate Ht].
  - destruct b;
      (split; [|intros Ht _ _; first [reflexivity | discriminate Ht]]);
      [right; repeat split | left; reflexivity].
  - cbn [truthy]. destruct (negb (n =? 0));
      (split; [|intros Ht _ _; first [reflexivity | discriminate Ht]]);
      [right; repeat split | left; reflexivity].
  - cbn [truthy]. destruct (float_truthy x);
      (split; [|intros Ht _ _; first [reflexivity | discriminate Ht]]);
      [right; repeat split | left; reflexivity].
  - split; [|intros _ H; now contradiction (H s)].
    destruct s as [|c s]; [left; reflexivity|].
    cbn [truthy]. unfold py_in.
    destruct (str_contains (lit "access_token") (c :: s));
      [right; repeat split | left; reflexivity].
  - split; [|intros _ _ H; now contradiction (H l)].
    destruct l as [|x l]; [left; reflexivity|].
    cbn [truthy]. unfold py_in.
    destruct (existsb _ (x :: l)); [right; repeat split | left; reflexivity].
  - now contradiction (Hno d).
Qed.

(** *** What a flow that returns has done *)

Lemma getitem_ret_inv (v : json) (k : str) (w : World) (x : json) (w' : World) :
  getitem v k w = (Ret x, w') ->
  w' = w /\ exists d, v = JObj d /\ dict_get k d = Some x.
Proof.
  unfold getitem. destruct v; try discriminate.
  destruct (dict_get k fields) eqn:Hk; [|discriminate].
  intros H. injection H as <- <-. split; [reflexivity|]. now exists fields.
Qed.

Lemma get_method_ret_inv (v : json) (k : str) (default : json) (w : World)
    (x : json) (w' : World) :
  get_method v k default w = (Ret x, w') ->
  w' = w /\
  exists d, v = JObj d /\
            x = match dict_get k d with Some y => y | None => default end.
Proof.
  unfold get_method. destruct v; try discriminate.
  destruct (dict_get k fields) eqn:Hk; intros H; injection H as <- <-;
    (split; [reflexivity|]); exists fields; now rewrite Hk.
Qed.

Lemma setitem_ret_inv (v : json) (k : str) (x : json) (w : World)
    (t : json) (w' : World) :
  setitem v k x w = (Ret t, w') ->
  w' = w /\ exists d, v = JObj d /\ t = JObj (dict_set k x d).
Proof.
  unfold setitem. destruct v; try discriminate.
  intros H. injection H as <- <-. split; [reflexivity|]. now exists fields.
Qed.

(** The steps a fresh flow that returns has gone through. *)
Lemma fresh_authentication_inv (w : World) (access_token : json)
    (person_urn : str) (w' : World) :
  fresh_authentication w = (Ret (access_token, person_urn), w') ->
  exists code w1 granted w2 info w3 sub,
    get_authorization_code w = (Ret code, w1) /\
    exchange_code_for_token code w1 = (Ret (JObj granted), w2) /\
    dict_get (lit "access_token") granted = Some access_token /\
    get_user_info access_token (snd (save_tokens (JObj granted) w2))
      = (Ret (JObj info), w3) /\
    dict_get (lit "sub") info = Some sub /\
    person_urn = person_urn_of sub /\
    w' = snd (save_tokens
                (JObj (dict_set (lit "user_name")
                         match dict_get (lit "name") info with
                         | Some name => name
                         | None => JStr (lit "Unknown")
                         end
                         (dict_set (lit "person_urn") (JStr person_urn)
                            granted)))
                w3).
Proof.
  unfold fresh_authentication. intros H.
  apply bind_ret_inv in H as (code & w1 & H1 & H).
  apply bind_ret_inv in H as (tokens & w2 & H2 & H).
  apply bind_ret_inv in H as (u & w3 & H3 & H).
  apply bind_ret_inv in H as (tok & w4 & H4 & H).
  apply bind_ret_inv in H as (ui & w5 & H5 & H).
  apply bind_ret_inv in H as (sub & w6 & H6 & H).
  cbv zeta in H.
  apply bind_ret_inv in H as (tokens1 & w7 & H7 & H).
  apply bind_ret_inv in H as (name & w8 & H8 & H).
  apply bind_ret_inv in H as (tokens2 & w9 & H9 & H).
  apply bind_ret_inv in H as (u' & w10 & H10 & H).
  unfold ret in H. injection H as <- <- <-.
  apply getitem_ret_inv in H4 as (-> & granted & -> & Htok).
  apply getitem_ret_inv in H6 as (-> & info & -> & Hsub).
  apply setitem_ret_inv in H7 as (-> & g & Hg & ->). injection Hg as <-.
  apply get_method_ret_inv in H8 as (-> & i & Hi & ->). injection Hi as <-.
  apply setitem_ret_inv in H9 as (-> & g & Hg & ->). injection Hg as <-.
  destruct u, u'.
  rewrite save_tokens_run in H3. injection H3 as <-.
  rewrite save_tokens_run in H10. injection H10 as <-.
  exists code, w1, granted, w2, info, w5, sub.
  rewrite !save_tokens_run. cbn [snd].
  repeat (split; [first [assumption | reflexivity]|]).
  reflexivity.
Qed.

Lemma dict_get_set_same {V : Type} (k : str) (v : V) (d : list (str * V)) :
  dict_get k (dict_set k v d) = Some v.
Proof.
  induction d as [|[k' v'] d IH]; cbn [dict_set dict_get].
  - now rewrite str_eqb_refl.
  - destruct (str_eqb k k') eqn:Hk; cbn [dict_get]; now rewrite Hk.
Qed.

Lemma dict_get_set_other {V : Type} (k k2 : str) (v : V) (d : list (str * V)) :
  str_eqb k k2 = false -> dict_get k (dict_set k2 v d) = dict_get k d.
Proof.
  intros Hne. induction d as [|[k' v'] d IH]; cbn [dict_set dict_get].
  - now rewrite Hne.
  - destruct (str_eqb k2 k') eqn:Hk; cbn [dict_get].
    + apply str_eqb_eq in Hk. subst k'. now rewrite Hne.
    + now rewrite IH.
Qed.

(** X16.  A fresh flow that returns has saved what it returns: the
    token file holds a record whose [access_token] is the returned
    token and whose [person_urn] is the returned URN, with a
    [user_name] beside them, and [load_tokens] reads this record back
    when it is well formed. *)
Theorem fresh_flow_saves_what_it_returns
    (w : World) (access_token : json) (person_urn : str) (w' : World) :
  fresh_authentication w = (Ret (access_token, person_urn), w') ->
  exists record,
    token_file w' = Some (json_dumps (JObj record)) /\
    dict_get (lit "access_token") record = Some access_token /\
    dict_get (lit "person_urn") record = Some (JStr person_urn) /\
    (exists name, dict_get (lit "user_name") record = Some name) /\
    (well_formed (JObj record) = true ->
     load_tokens w' = (Ret (Some (JObj record)), w')).
Proof.
  intros H.
  apply fresh_authentication_inv in H
    as (code & w1 & granted & w2 & info & w3 & sub & _ & _ & Htok & _ & _ & _ & ->).
  eexists. rewrite save_tokens_run. cbn [snd].
  split; [reflexivity|]. split; [|split; [|split]].
  - rewrite !dict_get_set_other by reflexivity. exact Htok.
  - rewrite dict_get_set_other by reflexivity. apply dict_get_set_same.
  - eexists. apply dict_get_set_same.
  - intros Hwf. unfold load_tokens, log, set_token_file. cbn [token_file].
    now rewrite (json_loads_dumps _ Hwf).
Qed.

(** *** The trace only grows *)

Lemma grows_trace_ret {A} (a : A) : grows_trace (ret a).
Proof. intros w. now exists []. Qed.

Lemma grows_trace_emit (e : event) : grows_trace (emit e).
Proof. intros w. now exists [e]. Qed.

Lemma grows_trace_bind {A B} (m : M A) (k : A -> M B) :
  grows_trace m -> (forall a, grows_trace (k a)) -> grows_trace (bind m k).
Proof.
  intros Hm Hk w. unfold bind. destruct (Hm w) as [r1 H1].
  destruct (m w) as [[a|e|] w1]; cbn [snd] in H1 |- *;
    [|now exists r1|now exists r1].
  destruct (Hk a w1) as [r2 H2]. exists (r2 ++ r1).
  now rewrite H2, H1, app_assoc.
Qed.

Lemma grows_trace_handle_request (srv : server) :
  grows_trace (handle_request srv).
Proof.
  intros w. unfold handle_request. destruct (inbound w) as [|c rest];
    [now exists []|].
  destruct (serve srv c) as [srv' ev]. now exists [ev].
Qed.

Lemma grows_trace_wait_rounds (fuel : nat) :
  forall srv, grows_trace (wait_rounds fuel srv).
Proof.
  induction fuel as [|fuel IH]; intros srv; simpl;
    destruct (auth_code srv); try apply grows_trace_ret.
  - intros w. now exists [].
  - apply grows_trace_bind; [apply grows_trace_handle_request | apply IH].
Qed.

Lemma grows_trace_get_authorization_code : grows_trace get_authorization_code.
Proof.
  unfold get_authorization_code, print.
  repeat (apply grows_trace_bind; [apply grows_trace_emit | intros _]).
  apply grows_trace_bind.
  - intros w. unfold HTTPServer. destruct (port_free w); [|now exists []].
    now exists [Bind (lit "localhost") 8000].
  - intros srv. apply grows_trace_bind; [apply grows_trace_emit | intros _].
    apply grows_trace_bind.
    + intros w. apply grows_trace_wait_rounds.
    + intros srv'. apply grows_trace_bind; [apply grows_trace_emit | intros _].
      apply grows_trace_ret.
Qed.

Lemma grows_trace_exchange_code_for_token (code : option str) :
  grows_trace (exchange_code_for_token code).
Proof.
  intros w. rewrite exchange_code_for_token_run. cbv zeta.
  destruct (replies w) as [|[status_code text|] rest].
  - now eexists [_; _].
  - destruct (status_code =? 200); [|now eexists [_; _; _; _]].
    destruct (json_loads text) as [[]|];
      first [now eexists [_; _; _; _] | now eexists [_; _; _] | now eexists [_; _]].
  - now eexists [_; _].
Qed.

(** A [get_user_info] that returns has sent the token it was given. *)
Lemma get_user_info_sends_the_token (access_token : json) (w : World)
    (user_info : json) (w' : World) :
  get_user_info access_token w = (Ret user_info, w') ->
  exists recent,
    trace w' = recent ++ trace w /\
    In (Get (lit "https://api.linkedin.com/v2/userinfo")
          [(lit "Authorization", lit "Bearer " ++ format_value access_token)])
       recent.
Proof.
  rewrite get_user_info_run. cbv zeta.
  destruct (replies w) as [|[status_code text|] rest]; try discriminate.
  destruct (status_code =? 200); [|discriminate].
  destruct (json_loads text) as [[]|]; try discriminate.
  intros H. injection H as _ <-.
  eexists [_; _; _]. split; [reflexivity|]. right. now left.
Qed.

Lemma grows_trace_get_user_info (access_token : json) :
  grows_trace (get_user_info access_token).
Proof.
  intros w. rewrite get_user_info_run. cbv zeta.
  destruct (replies w) as [|[status_code text|] rest].
  - now eexists [_; _].
  - destruct (status_code =? 200); [|now eexists [_; _; _; _]].
    destruct (json_loads text) as [[]|];
      first [now eexists [_; _; _] | now eexists [_; _]].
  - now eexists [_; _].
Qed.

Lemma grows_trace_probe (access_token : json) : grows_trace (probe access_token).
Proof.
  unfold probe. apply grows_trace_bind; [apply grows_trace_get_user_info|].
  intros user_info w. unfold bind, getitem.
  destruct user_info; try (now exists []).
  destruct (dict_get (lit "sub") fields); now exists [].
Qed.

Lemma fresh_authentication_sends_the_token (w : World) (access_token : json)
    (person_urn : str) (w' : World) :
  fresh_authentication w = (Ret (access_token, person_urn), w') ->
  exists sub recent,
    person_urn = lit "urn:li:person:" ++ format_value sub /\
    trace w' = recent ++ trace w /\
    In (Get (lit "https://api.linkedin.com/v2/userinfo")
          [(lit "Authorization", lit "Bearer " ++ format_value access_token)])
       recent.
Proof.
  intros H.
  apply fresh_authentication_inv in H
    as (code & w1 & granted & w2 & info & w3 & sub
        & H1 & H2 & _ & H3 & _ & Hurn & ->).
  destruct (grows_trace_get_authorization_code w) as [r1 T1].
  rewrite H1 in T1. cbn [snd] in T1.
  destruct (grows_trace_exchange_code_for_token code w1) as [r2 T2].
  rewrite H2 in T2. cbn [snd] in T2.
  apply get_user_info_sends_the_token in H3 as (r3 & T3 & Hin).
  rewrite save_tokens_run in T3. unfold set_token_file in T3.
  cbn [snd log trace] in T3.
  exists sub. eexists (_ :: _ :: r3 ++ _ :: _ :: r2 ++ r1).
  split; [exact Hurn|]. split.
  - rewrite save_tokens_run. unfold set_token_file. cbn [snd log trace].
    rewrite T3, T2, T1. cbn [app]. rewrite <- !app_assoc. cbn [app].
    now rewrite <- !app_assoc.
  - right. right. apply in_or_app. now left.
Qed.

(** X17.  Whenever [authenticate] returns, the URN it returns is the
    person prefix followed by a subject, and the token it returns has
    been sent to the userinfo endpoint during this very call. *)
Theorem authenticate_returns_a_probed_token
    (w : World) (access_token : json) (person_urn : str) (w' : World) :
  authenticate w = (Ret (access_token, person_urn), w') ->
  exists sub recent,
    person_urn = lit "urn:li:person:" ++ format_value sub /\
    trace w' = recent ++ trace w /\
    In (Get (lit "https://api.linkedin.com/v2/userinfo")
          [(lit "Authorization", lit "Bearer " ++ format_value access_token)])
       recent.
Proof.
  unfold authenticate. intros H.
  apply bind_ret_inv in H as (loaded & w0 & Hload & H).
  assert (w0 = w) as ->.
  { unfold load_tokens in Hload. destruct (token_file w) as [content|];
      [destruct (json_loads content)|]; now injection Hload as _ <-. }
  destruct loaded as [tokens|];
    [|now apply fresh_authentication_sends_the_token].
  apply bind_ret_inv in H as (cached & w1 & Hcached & H).
  assert (w1 = w) as ->.
  { destruct (truthy tokens); [|now injection Hcached as _ <-].
    unfold py_in in Hcached.
    destruct tokens; try discriminate; now injection Hcached as _ <-. }
  destruct cached; [|now apply fresh_authentication_sends_the_token].
  apply bind_ret_inv in H as (u & w1 & Hprint & H).
  unfold print, emit in Hprint. injection Hprint as _ <-.
  apply bind_ret_inv in H as (tok & w2 & Htok & H).
  apply getitem_ret_inv in Htok as (-> & d & -> & Htok).
  unfold try_except in H.
  destruct (probe tok _) as [[r|e|] w3] eqn:Hprobe; [| |discriminate].
  - injection H as -> ->. unfold probe in Hprobe.
    apply bind_ret_inv in Hprobe as (ui & w4 & Hui & Hprobe).
    apply bind_ret_inv in Hprobe as (sub & w5 & Hsub & Hprobe).
    apply getitem_ret_inv in Hsub as (-> & info & -> & Hsub).
    unfold ret in Hprobe. injection Hprobe as <- <- <-.
    apply get_user_info_sends_the_token in Hui as (r & T & Hin).
    exists sub, (r ++ [Print ([0x1F4C2] ++
                   lit " Found existing tokens, attempting to use them...")]).
    split; [reflexivity|]. split.
    + rewrite T. cbn [log trace]. now rewrite <- app_assoc.
    + apply in_or_app. now left.
  - apply bind_ret_inv in H as (u' & w4 & Hprint & H).
    unfold print, emit in Hprint. injection Hprint as _ <-.
    apply fresh_authentication_sends_the_token in H
      as (sub & r & Hurn & T & Hin).
    assert (Tp : exists rp, trace w3 = rp ++ trace w).
    { match type of Hprobe with
      | probe tok ?w0 = _ => destruct (grows_trace_probe tok w0) as [rp Hrp]
      end.
      rewrite Hprobe in Hrp. cbn [snd log trace] in Hrp.
      eexists (rp ++ [_]). rewrite Hrp. now rewrite <- app_assoc. }
    destruct Tp as [rp Tp].
    exists sub, (r ++ Print ([0x26A0; 0xFE0F] ++
                   lit " Existing token expired, re-authenticating...") :: rp).
    split; [exact Hurn|]. split.
    + rewrite T. cbn [log trace]. rewrite Tp. now rewrite <- app_assoc.
    + apply in_or_app. now left.
Qed.

(** *** The program *)

(** X18.  An empty credential is a missing one: when either variable
    is set to the empty string the program prints the configuration
    error and stops, as it does for a variable that is not set. *)
Theorem empty_credentials_count_as_missing (w : World) :
  CLIENT_ID = Some [] \/ CLIENT_SECRET = Some [] ->
  fst (main w) = Ret tt /\
  token_file (snd (main w)) = token_file w /\
  inbound (snd (main w)) = inbound w /\
  replies (snd (main w)) = replies w /\
  exists report,
    trace (snd (main w)) = report ++ trace w /\
    forallb is_print report = true /\
    In (Print ([10; 0x274C] ++ lit " ERROR: LinkedIn credentials not found!"))
       report.
Proof.
  intros H.
  assert (Hu : unset CLIENT_ID || unset CLIENT_SECRET = true).
  { destruct H as [-> | ->]; simpl; [reflexivity | apply orb_true_r]. }
  rewrite (main_without_credentials w Hu).
  cbn [fst snd token_file inbound replies trace].
  do 4 (split; [reflexivity|]).
  eexists. split; [reflexivity|]. split; [reflexivity|].
  cbn [rev map app In]. do 6 right. left. reflexivity.
Qed.

(** X19.  With both credentials set, the program prints its
    announcement and runs [authenticate]; the closing lines are printed
    when [authenticate] has returned, and only then: an exception of
    [authenticate] ends the program as it is, with nothing printed
    after it. *)
Theorem main_runs_authenticate_with_credentials (w : World) :
  unset CLIENT_ID = false ->
  unset CLIENT_SECRET = false ->
  main w =
    match authenticate (printed announcement w) with
    | (Ret _, w1) => (Ret tt, printed completion w1)
    | (Raise e, w1) => (Raise e, w1)
    | (Blocked, w1) => (Blocked, w1)
    end /\
  (forall e,
     fst (authenticate (printed announcement w)) = Raise e ->
     main w = (Raise e, snd (authenticate (printed announcement w)))) /\
  ((exists r, fst (authenticate (printed announcement w)) = Ret r) <->
   fst (main w) = Ret tt).
Proof.
  intros Hid Hsecret.
  assert (Hmain : main w =
            match authenticate (printed announcement w) with
            | (Ret _, w1) => (Ret tt, printed completion w1)
            | (Raise e, w1) => (Raise e, w1)
            | (Blocked, w1) => (Blocked, w1)
            end).
  { unfold main. rewrite Hid, Hsecret. cbn [orb].
    unfold bind, print, emit, printed, announcement, completion.
    cbn [fold_left].
    destruct (authenticate _) as [[r|e|] w1]; reflexivity. }
  split; [exact Hmain|]. rewrite Hmain.
  destruct (authenticate (printed announcement w)) as [[r|e|] w1];
    cbn [fst snd]; split.
  - intros e H. discriminate H.
  - split; [reflexivity | intros _; now exists r].
  - intros e' H. now injection H as ->.
  - split; [intros [r H]; discriminate H | discriminate].
  - intros e H. discriminate H.
  - split; [intros [r H]; discriminate H | discriminate].
Qed.

(** *** The text of the token file *)

Lemma float_free_arr (l : list json) :
  float_free (JArr l) = forallb float_free l.
Proof.
  cbn [float_free]. induction l as [|x l IH]; [reflexivity|].
  cbn [forallb]. now rewrite IH.
Qed.

Lemma float_free_obj (d : list (str * json)) :
  float_free (JObj d) = forallb (fun kv => float_free (snd kv)) d.
Proof.
  cbn [float_free]. induction d as [|[k x] d IH]; [reflexivity|].
  cbn [forallb snd]. now rewrite IH.
Qed.

Lemma hexdigit_ascii (d : Z) : 0 <= d < 16 -> ascii_char (hexdigit d) = true.
Proof.
  intros H. unfold hexdigit, ascii_char. apply orb_true_iff. right.
  destruct (Z.ltb_spec d 10); apply andb_true_iff; split; apply Z.leb_le; lia.
Qed.

Lemma hex4_ascii (n : Z) : forallb ascii_char (hex4 n) = true.
Proof.
  unfold hex4. cbn [forallb].
  rewrite !hexdigit_ascii; [reflexivity | | | |];
    apply Z.mod_pos_bound; reflexivity.
Qed.

Lemma escape_char_ascii (c : Z) : forallb ascii_char (escape_char c) = true.
Proof.
  unfold escape_char.
  destruct (c =? 92); [reflexivity|]. destruct (c =? 34); [reflexivity|].
  destruct (c =? 8); [reflexivity|]. destruct (c =? 12); [reflexivity|].
  destruct (c =? 10); [reflexivity|]. destruct (c =? 13); [reflexivity|].
  destruct (c =? 9); [reflexivity|].
  destruct ((32 <=? c) && (c <=? 126)) eqn:Hprint.
  - cbn [forallb]. unfold ascii_char. rewrite Hprint. now rewrite orb_true_r.
  - destruct (c <? 65536).
    + cbn [forallb]. now rewrite hex4_ascii.
    + cbv zeta. rewrite forallb_app. cbn [forallb]. now rewrite !hex4_ascii.
Qed.

Lemma encode_basestring_ascii_ascii (s : str) :
  forallb ascii_char (encode_basestring_ascii s) = true.
Proof.
  unfold encode_basestring_ascii. cbn [forallb].
  rewrite forallb_app. cbn [forallb]. rewrite andb_true_r.
  change (ascii_char 34) with true. cbn [andb].
  induction s as [|c s IH]; [reflexivity|].
  cbn [flat_map]. now rewrite forallb_app, escape_char_ascii, IH.
Qed.

Lemma int_repr_ascii (n : Z) : forallb ascii_char (int_repr n) = true.
Proof.
  assert (Hd : forall u, forallb ascii_char (digits_of_uint u) = true).
  { intros u. apply (forallb_weaken is_digit ascii_char);
      [|apply digits_of_uint_digits].
    intros x Hx. unfold is_digit in Hx. apply andb_true_iff in Hx as [H1 H2].
    apply Z.leb_le in H1, H2. unfold ascii_char. apply orb_true_iff. right.
    apply andb_true_iff. split; apply Z.leb_le; lia. }
  unfold int_repr. destruct (Z.to_int n); [apply Hd|].
  cbn [forallb]. now rewrite Hd.
Qed.

Lemma newline_indent_ascii (level : nat) :
  forallb ascii_char (newline_indent level) = true.
Proof.
  unfold newline_indent. cbn [forallb]. change (ascii_char 10) with true.
  cbn [andb]. apply forallb_forall. intros x Hx.
  apply repeat_spec in Hx. now subst x.
Qed.

(** Whatever text the strings of a value hold, [json.dump] writes it in
    ASCII. *)
Lemma iterencode_ascii (v : json) :
  float_free v = true ->
  forall level, forallb ascii_char (iterencode level v) = true.
Proof.
  induction v using json_nested_ind; intros Hff level.
  - reflexivity.
  - destruct b; reflexivity.
  - apply int_repr_ascii.
  - discriminate.
  - apply encode_basestring_ascii_ascii.
  - rewrite float_free_arr in Hff. destruct l as [|x xs]; [reflexivity|].
    cbn [forallb] in Hff. apply andb_true_iff in Hff as [Hx Hxs].
    inversion H as [|? ? Px Pxs]; subst.
    assert (Hel : forallb ascii_char (elements level xs) = true).
    { clear Px Hx H. unfold elements.
      induction Pxs as [|y ys Py _ IH]; [reflexivity|].
      cbn [forallb] in Hxs. apply andb_true_iff in Hxs as [Hy Hys].
      cbn [flat_map].
      rewrite !forallb_app, newline_indent_ascii, (Py Hy), (IH Hys).
      reflexivity. }
    rewrite iterencode_arr, !forallb_app, !newline_indent_ascii, (Px Hx), Hel.
    reflexivity.
  - rewrite float_free_obj in Hff. destruct d as [|[k x] kvs]; [reflexivity|].
    cbn [forallb snd] in Hff. apply andb_true_iff in Hff as [Hx Hxs].
    inversion H as [|? ? Px Pxs]; subst. cbn [snd] in Px.
    assert (Hel : forallb ascii_char (members level kvs) = true).
    { clear Px Hx H. unfold members.
      induction Pxs as [|[k' y] ys Py _ IH]; [reflexivity|].
      cbn [forallb snd] in Hxs. apply andb_true_iff in Hxs as [Hy Hys].
      cbn [snd] in Py. cbn [flat_map fst snd].
      rewrite !forallb_app, newline_indent_ascii,
        encode_basestring_ascii_ascii, (Py Hy), (IH Hys).
      reflexivity. }
    rewrite iterencode_obj, !forallb_app, !newline_indent_ascii,
      encode_basestring_ascii_ascii, (Px Hx), Hel.
    reflexivity.
Qed.

(** X20.  The token file is written in ASCII: whatever characters the
    strings of the record hold, a record without floats is saved as
    printable ASCII characters and line feeds, which every locale
    encoding writes alike. *)
Theorem token_file_is_ascii (tokens : json) (w : World) :
  float_free tokens = true ->
  exists content,
    token_file (snd (save_tokens tokens w)) = Some content /\
    forallb ascii_char content = true.
Proof.
  intros Hff. exists (json_dumps tokens). rewrite save_tokens_run.
  split; [reflexivity|]. now apply iterencode_ascii.
Qed.

(** *** The first run *)

(** A token exchange that returns has posted the code it was given. *)
Lemma exchange_posts_the_code (code : option str) (w : World) (tokens : json)
    (w' : World) :
  exchange_code_for_token code w = (Ret tokens, w') ->
  exists recent,
    trace w' = recent ++ trace w /\
    In (Post (lit "https://www.linkedin.com/oauth/v2/accessToken")
          [(lit "grant_type", Some (lit "authorization_code"));
           (lit "code", code);
           (lit "redirect_uri", Some REDIRECT_URI);
           (lit "client_id", CLIENT_ID);
           (lit "client_secret", CLIENT_SECRET)]
          [(lit "Content-Type", lit "application/x-www-form-urlencoded")])
       recent.
Proof.
  rewrite exchange_code_for_token_run. cbv zeta.
  destruct (replies w) as [|[status_code text|] rest]; try discriminate.
  destruct (status_code =? 200); [|discriminate].
  destruct (json_loads text) as [[]|]; try discriminate.
  intros H. injection H as _ <-.
  eexists [_; _; _; _]. split; [reflexivity|]. do 2 right. now left.
Qed.

(** A fresh flow that returns has posted the code that
    [get_authorization_code] returned. *)
Lemma fresh_authentication_posts_the_code (w : World) (r : json * str)
    (w' : World) :
  fresh_authentication w = (Ret r, w') ->
  exists code w1,
    get_authorization_code w = (Ret code, w1) /\
    In (Post (lit "https://www.linkedin.com/oauth/v2/accessToken")
          [(lit "grant_type", Some (lit "authorization_code"));
           (lit "code", code);
           (lit "redirect_uri", Some REDIRECT_URI);
           (lit "client_id", CLIENT_ID);
           (lit "client_secret", CLIENT_SECRET)]
          [(lit "Content-Type", lit "application/x-www-form-urlencoded")])
       (trace w').
Proof.
  destruct r as [access_token person_urn]. intros H.
  apply fresh_authentication_inv in H
    as (code & w1 & granted & w2 & info & w3 & sub
        & H1 & H2 & _ & H3 & _ & _ & ->).
  exists code, w1. split; [exact H1|].
  apply exchange_posts_the_code in H2 as (r2 & T2 & Hin).
  destruct (grows_trace_get_user_info access_token
              (snd (save_tokens (JObj granted) w2))) as [r3 T3].
  rewrite H3 in T3. rewrite save_tokens_run in T3.
  unfold set_token_file in T3. cbn [snd log trace] in T3.
  rewrite save_tokens_run. unfold set_token_file. cbn [snd log trace].
  rewrite T3, T2. do 2 right. apply in_or_app. right. do 2 right.
  apply in_or_app. now left.
Qed.



(** X21.  The first run: with no token file, a callback that brings a
    code and a provider that answers the exchange and the userinfo
    request, [authenticate] returns the exchanged token with the URN of
    the fetched subject, having posted the very code the callback
    brought, and leaves the completed record in the token file.  So it
    is when the credentials and the code are text, the answers are read
    within the limits of the interpreter, and what they hold can be
    printed and sent in a header; each call of the run was then carried
    out. *)
Theorem first_run_authenticates
    (w : World) (pre : list connection) (target code : str)
    (post : list connection) (token_text info_text : str) (rest : list reply)
    (granted info : list (str * json)) (new_token : json) (sub : str) :
  token_file w = None ->
  carried_out w = true ->
  form_text CLIENT_ID = true ->
  form_text CLIENT_SECRET = true ->
  port_free w = true ->
  inbound w = pre ++ Request (lit "GET") target :: post ->
  Forall no_capture pre ->
  carries_code target code ->
  text code = true ->
  replies w = Reply 200 token_text :: Reply 200 info_text :: rest ->
  text_within_limits token_text = true ->
  json_loads token_text = Some (JObj granted) ->
  text (format_value
          match dict_get (lit "expires_in") granted with
          | Some seconds => seconds
          | None => JStr (lit "N/A")
          end) = true ->
  dict_get (lit "access_token") granted = Some new_token ->
  header_text (format_value new_token) = true ->
  text_within_limits info_text = true ->
  json_loads info_text = Some (JObj info) ->
  text (format_value
          match dict_get (lit "name") info with
          | Some name => name
          | None => JStr (lit "Unknown")
          end) = true ->
  dict_get (lit "sub") info = Some (JStr sub) ->
  exists w',
    authenticate w = (Ret (new_token, lit "urn:li:person:" ++ sub), w') /\
    token_file w' =
      Some (json_dumps
              (JObj (dict_set (lit "user_name")
                       match dict_get (lit "name") info with
                       | Some name => name
                       | None => JStr (lit "Unknown")
                       end
                       (dict_set (lit "person_urn")
                          (JStr (lit "urn:li:person:" ++ sub)) granted)))) /\
    inbound w' = post /\
    replies w' = rest /\
    In (Post (lit "https://www.linkedin.com/oauth/v2/accessToken")
          [(lit "grant_type", Some (lit "authorization_code"));
           (lit "code", Some code);
           (lit "redirect_uri", Some REDIRECT_URI);
           (lit "client_id", CLIENT_ID);
           (lit "client_secret", CLIENT_SECRET)]
          [(lit "Content-Type", lit "application/x-www-form-urlencoded")])
       (trace w') /\
    carried_out w' = true.
Proof.
  intros Hfile Hpast Hid Hsecret Hport Hin Hpre Hcode Hc Hreplies _ Hgranted
         Hexp Hnew Hhdr _ Hinfo Hname Hsub.
  assert (Hfresh : authenticate w = fresh_authentication w).
  { unfold authenticate. unfold bind at 1. unfold load_tokens.
    now rewrite Hfile. }
  rewrite Hfresh.
  destruct (fresh_authentication_returns w pre target code post token_text
              info_text rest granted info new_token sub)
    as (w' & Hrun & Hsaved & Hpost & Hrest & Hout); try assumption.
  exists w'. repeat (split; [assumption|]).
  split; [|now apply Hout].
  destruct (fresh_authentication_posts_the_code w _ w' Hrun)
    as (code' & w1 & Hcode' & Hin').
  rewrite (get_authorization_code_ok w pre _ post code Hport Hin Hpre
             (carries_code_captures target code Hcode)) in Hcode'.
  injection Hcode' as <- _. exact Hin'.
Qed.

(** *** Nothing reads the trace *)

























(** *** The cache from one run to the next *)

Lemma probe_ok (access_token : json) (w : World) (text : str)
    (rest : list reply) (info : list (str * json)) (sub : str) :
  replies w = Reply 200 text :: rest ->
  json_loads text = Some (JObj info) ->
  dict_get (lit "sub") info = Some (JStr sub) ->
  probe access_token w =
    (Ret (access_token, lit "urn:li:person:" ++ sub),
     snd (get_user_info access_token w)).
Proof.
  intros Hreply Hjson Hsub. unfold probe. unfold bind at 1.
  rewrite (get_user_info_ok access_token w text rest info Hreply Hjson).
  unfold bind, getitem, ret. now rewrite Hsub.
Qed.

(** X22.  A record that has been saved is found by the next run: after
    [save_tokens] has written a well-formed record with an
    [access_token], [authenticate] probes this token and, when the
    probe succeeds, returns it with the URN of the probed subject,
    without starting the authorization flow and without writing the
    file again.  So it is for a record within the limits of the
    interpreter whose token can be sent in a header, and an answer that
    is read within those limits and holds a name that can be printed;
    each call of the run was then carried out. *)
Theorem saved_record_is_reused
    (record : list (str * json)) (access_token : json) (w : World)
    (answer : str) (rest : list reply) (info : list (str * json)) (sub : str) :
  well_formed (JObj record) = true ->
  value_within_limits (JObj record) = true ->
  dict_get (lit "access_token") record = Some access_token ->
  header_text (format_value access_token) = true ->
  replies w = Reply 200 answer :: rest ->
  text_within_limits answer = true ->
  json_loads answer = Some (JObj info) ->
  dict_get (lit "sub") info = Some (JStr sub) ->
  text (format_value
          match dict_get (lit "name") info with
          | Some name => name
          | None => JStr (lit "Unknown")
          end) = true ->
  carried_out w = true ->
  let saved := snd (save_tokens (JObj record) w) in
  fst (authenticate saved) = Ret (access_token, lit "urn:li:person:" ++ sub) /\
  token_file (snd (authenticate saved)) = Some (json_dumps (JObj record)) /\
  inbound (snd (authenticate saved)) = inbound w /\
  replies (snd (authenticate saved)) = rest /\
  carried_out (snd (authenticate saved)) = true.
Proof.
  intros Hwf _ Htoken Hhdr Hreply _ Hjson Hsub Hname Hpast saved.
  assert (Hfile : token_file saved = Some (json_dumps (JObj record)))
    by reflexivity.
  assert (Hin : inbound saved = inbound w) by reflexivity.
  assert (Hrep : replies saved = Reply 200 answer :: rest) by exact Hreply.
  assert (Hout : forallb goes_through (trace saved) = true) by exact Hpast.
  clearbody saved.
  remember (authenticate saved) as run eqn:Hrun.
  rewrite (authenticate_loaded saved _ (JObj record) Hfile
             (json_loads_dumps _ Hwf)) in Hrun.
  assert (Htruthy : truthy (JObj record) = true).
  { destruct record; [discriminate Htoken | reflexivity]. }
  rewrite Htruthy in Hrun.
  unfold bind, py_in, dict_has, print, emit, getitem, try_except in Hrun.
  rewrite Htoken in Hrun. unfold ret in Hrun. cbv beta iota in Hrun.
  match type of Hrun with
  | context [probe access_token ?w0] =>
      rewrite (probe_ok access_token w0 answer rest info sub Hrep Hjson Hsub)
        in Hrun;
      rewrite (get_user_info_ok access_token w0 answer rest info Hrep Hjson)
        in Hrun
  end.
  subst run. cbn [fst snd token_file inbound replies log].
  repeat (split; [first [assumption | reflexivity]|]).
  unfold carried_out, log. cbn [trace]. rewrite forallb_app.
  cbn [trace forallb goes_through snd].
  rewrite !text_app, !header_text_app, Hname, Hhdr, Hout. reflexivity.
Qed.

(** *** The cache is never deleted *)

Lemma keeps_file_keeps_cache {A} (m : M A) : keeps_file m -> keeps_cache m.
Proof. intros H w Hw. now rewrite H. Qed.

Lemma keeps_cache_bind {A B} (m : M A) (k : A -> M B) :
  keeps_cache m -> (forall a, keeps_cache (k a)) -> keeps_cache (bind m k).
Proof.
  intros Hm Hk w Hw. unfold bind. specialize (Hm w Hw).
  destruct (m w) as [[a|e|] w1]; cbn [snd] in Hm |- *; try assumption.
  now apply Hk.
Qed.

Lemma keeps_cache_try_except {A} (m h : M A) :
  keeps_cache m -> keeps_cache h -> keeps_cache (try_except m h).
Proof.
  intros Hm Hh w Hw. unfold try_except. specialize (Hm w Hw).
  destruct (m w) as [[a|e|] w1]; cbn [snd] in Hm |- *; try assumption.
  now apply Hh.
Qed.

Lemma keeps_cache_save_tokens (tokens : json) : keeps_cache (save_tokens tokens).
Proof. intros w _. rewrite save_tokens_run. discriminate. Qed.

Lemma keeps_cache_fresh_authentication : keeps_cache fresh_authentication.
Proof.
  unfold fresh_authentication.
  apply keeps_cache_bind;
    [apply keeps_file_keeps_cache, keeps_file_get_authorization_code
    | intros code].
  apply keeps_cache_bind;
    [apply keeps_file_keeps_cache, keeps_file_exchange_code_for_token
    | intros tokens].
  apply keeps_cache_bind; [apply keeps_cache_save_tokens | intros _].
  apply keeps_cache_bind;
    [apply keeps_file_keeps_cache, keeps_file_getitem | intros access_token].
  apply keeps_cache_bind;
    [apply keeps_file_keeps_cache, keeps_file_get_user_info | intros user_info].
  apply keeps_cache_bind;
    [apply keeps_file_keeps_cache, keeps_file_getitem | intros sub].
  cbv zeta.
  apply keeps_cache_bind;
    [apply keeps_file_keeps_cache, keeps_file_setitem | intros tokens1].
  apply keeps_cache_bind;
    [apply keeps_file_keeps_cache, keeps_file_get_method | intros name].
  apply keeps_cache_bind;
    [apply keeps_file_keeps_cache, keeps_file_setitem | intros tokens2].
  apply keeps_cache_bind; [apply keeps_cache_save_tokens | intros _].
  apply keeps_file_keeps_cache, keeps_file_ret.
Qed.

Lemma keeps_cache_authenticate : keeps_cache authenticate.
Proof.
  unfold authenticate. apply keeps_cache_bind.
  { apply keeps_file_keeps_cache. intros w. unfold load_tokens.
    destruct (token_file w) as [content|] eqn:Hf;
      [destruct (json_loads content)|]; exact Hf. }
  intros [tokens|]; [|apply keeps_cache_fresh_authentication].
  apply keeps_cache_bind.
  { apply keeps_file_keeps_cache. destruct (truthy tokens);
      [|apply keeps_file_ret].
    unfold py_in.
    destruct tokens; first [apply keeps_file_ret | apply keeps_file_raise]. }
  intros cached. destruct cached; [|apply keeps_cache_fresh_authentication].
  apply keeps_cache_bind;
    [apply keeps_file_keeps_cache, keeps_file_emit | intros _].
  apply keeps_cache_bind;
    [apply keeps_file_keeps_cache, keeps_file_getitem | intros access_token].
  apply keeps_cache_try_except;
    [apply keeps_file_keeps_cache, keeps_file_probe|].
  apply keeps_cache_bind;
    [apply keeps_file_keeps_cache, keeps_file_emit | intros _].
  apply keeps_cache_fresh_authentication.
Qed.

(** X23.  The program never deletes the token file: where there is one
    when [authenticate] or the program starts, there is one when it
    stops, however it stops. *)
Theorem token_file_is_never_deleted (w : World) (content : str) :
  token_file w = Some content ->
  (exists content', token_file (snd (authenticate w)) = Some content') /\
  (exists content', token_file (snd (main w)) = Some content').
Proof.
  intros Hfile.
  assert (Hw : token_file w <> None) by (rewrite Hfile; discriminate).
  assert (Hmain : keeps_cache main).
  { unfold main, print. destruct (unset CLIENT_ID || unset CLIENT_SECRET).
    - apply keeps_file_keeps_cache. keeps_file.
    - do 12 (apply keeps_cache_bind;
             [apply keeps_file_keeps_cache, keeps_file_emit | intros _]).
      apply keeps_cache_bind; [apply keeps_cache_authenticate | intros _].
      apply keeps_file_keeps_cache. keeps_file. }
  split.
  - pose proof (keeps_cache_authenticate w Hw) as H.
    destruct (token_file (snd (authenticate w))) as [c|];
      [now exists c | now contradiction H].
  - pose proof (Hmain w Hw) as H.
    destruct (token_file (snd (main w))) as [c|];
      [now exists c | now contradiction H].
Qed.

(** *** Absolute request targets *)

Lemma split_scheme_http (rest : str) :
  split_scheme (lit "http:" ++ rest) = (lit "http", rest).
Proof.
  unfold split_scheme. change (lit "http:" ++ rest) with (lit "http" ++ 58 :: rest).
  rewrite (split_once_app 58 (lit "http") (58 :: rest)) by reflexivity.
  cbn [split_once]. change (58 =? 58) with true. cbv iota.
  now rewrite app_nil_r.
Qed.

Lemma split_netloc_authority (host rest : str) :
  authority_text host = true ->
  split_netloc (lit "//" ++ host ++ 47 :: rest) = (host, 47 :: rest).
Proof.
  intros H. unfold split_netloc.
  change (startswith [47; 47] (lit "//" ++ host ++ 47 :: rest)) with true.
  cbv iota. change (skipn 2 (lit "//" ++ host ++ 47 :: rest))
    with (host ++ 47 :: rest).
  rewrite span_until_app.
  - cbn [span_until]. change (47 =? 47) with true. cbn [orb].
    now rewrite app_nil_r.
  - apply (forallb_weaken _ _ host) with (2 := H). intros x Hx.
    apply andb_true_iff in Hx as [Hk Hx]. unfold kept in Hk.
    apply negb_true_iff in Hk. apply negb_true_iff in Hx.
    repeat (apply orb_false_iff in Hk as [Hk ?]).
    apply orb_false_iff in Hx as [H63 H47].
    apply negb_true_iff. now rewrite H47, H63, Hk.
Qed.

(** How [urlparse] reads an absolute target addressed to the callback
    path of any host. *)
Lemma urlparse_absolute_callback (host q : str) :
  authority_text host = true ->
  netloc_rejected host = false ->
  exists frag,
    urlparse (lit "http://" ++ host ++ lit "/callback?" ++ q) =
      Some {| scheme := lit "http"; netloc := host; path := lit "/callback";
              params := [];
              query := cut_fragment (remove_unsafe q); fragment := frag |}.
Proof.
  intros Hhost Hloc.
  assert (Hkept : forallb kept host = true).
  { apply (forallb_weaken _ kept host) with (2 := Hhost).
    intros x Hx. now apply andb_true_iff in Hx as [? _]. }
  unfold urlparse, urlsplit.
  change (lit "http://") with (104 :: lit "ttp://").
  cbn [app lstrip_c0]. change ((0 <=? 104) && (104 <=? 32)) with false.
  cbv iota.
  change (104 :: lit "ttp://" ++ host ++ lit "/callback?" ++ q)
    with (lit "http://" ++ host ++ lit "/callback?" ++ q).
  rewrite !remove_unsafe_app, (remove_unsafe_kept host Hkept).
  change (remove_unsafe (lit "http://")) with (lit "http:" ++ lit "//").
  change (remove_unsafe (lit "/callback?")) with (47 :: lit "callback?").
  rewrite <- app_assoc, split_scheme_http.
  cbn [app]. change (47 :: 47 :: host ++ 47 :: lit "callback?" ++ remove_unsafe q)
    with (lit "//" ++ host ++ 47 :: lit "callback?" ++ remove_unsafe q).
  rewrite (split_netloc_authority host _ Hhost). rewrite Hloc.
  change (47 :: lit "callback?" ++ remove_unsafe q)
    with ((lit "/callback" ++ [63]) ++ remove_unsafe q).
  assert (Hq : forall u, split_once 63 ((lit "/callback" ++ [63]) ++ u)
                         = Some (lit "/callback", u)).
  { intros u. rewrite <- app_assoc.
    rewrite (split_once_app 63 (lit "/callback") ([63] ++ u)) by reflexivity.
    change (split_once 63 ([63] ++ u)) with (Some (@nil Z, u)).
    cbv iota. now rewrite app_nil_r. }
  rewrite (split_once_app 35 (lit "/callback" ++ [63]) (remove_unsafe q))
    by reflexivity.
  unfold cut_fragment.
  destruct (split_once 35 (remove_unsafe q)) as [[a b]|]; rewrite Hq;
    cbn [scheme path]; eexists; reflexivity.
Qed.

(** X25.  Only the path of the request target is compared: a target
    written in absolute form is a callback whatever host it names, and
    its code is captured. *)
Theorem host_of_the_target_is_ignored (srv : server) (host c tail : str) :
  authority_text host = true ->
  netloc_rejected host = false ->
  plain_value c = true ->
  continues_query tail = true ->
  do_GET srv (lit "http://" ++ host ++ lit "/callback?code=" ++ c ++ tail) =
    ({| auth_code := Some c |},
     Some {| status := 200; headers := html_headers; body := success_page |}).
Proof.
  intros Hhost Hloc Hc Htail.
  change (lit "/callback?code=") with (lit "/callback?" ++ lit "code=").
  rewrite <- (app_assoc (lit "/callback?")).
  destruct (urlparse_absolute_callback host (lit "code=" ++ c ++ tail)
              Hhost Hloc) as [frag Hparse].
  assert (Hitem : name_value_pair (lit "code=" ++ c) = [(lit "code", c)]).
  { change (lit "code=" ++ c) with (lit "code" ++ 61 :: c).
    apply name_value_pair_plain; try reflexivity;
      try (apply plain_value_has_char; [assumption | reflexivity]).
    now apply plain_value_forall in Hc. }
  assert (HkeptF : forallb kept (lit "code=" ++ c) = true)
    by (rewrite forallb_app, (plain_value_kept c Hc); reflexivity).
  assert (H38F : has_char 38 (lit "code=" ++ c) = false)
    by (rewrite has_char_app, (plain_value_has_char c 38 Hc eq_refl);
        reflexivity).
  destruct (head_field_query (lit "code=" ++ c) c tail
              HkeptF H38F Hitem Htail) as [more Hmore].
  rewrite <- app_assoc in Hmore.
  apply do_GET_code. eexists _, more.
  split; [exact Hparse|]. split; [reflexivity | exact Hmore].
Qed.

(** *** Where the authorization code comes from *)

Lemma captured_code_is_carried (c : connection) (code : str) :
  auth_code (fst (serve waiting c)) = Some code ->
  exists target, c = Request (lit "GET") target /\ carries_code target code.
Proof.
  destruct c as [command target|]; [|discriminate].
  unfold serve. destruct (str_eqb command (lit "GET")) eqn:Hcmd;
    [|discriminate].
  apply str_eqb_eq in Hcmd. subst command. unfold do_GET.
  destruct (urlparse target) as [parsed|] eqn:Hparse; [|discriminate].
  destruct (str_eqb (path parsed) (lit "/callback")) eqn:Hpath;
    [|discriminate].
  apply str_eqb_eq in Hpath.
  destruct (dict_get (lit "code") (parse_qs (query parsed)))
    as [[|code' more]|] eqn:Hcode.
  - discriminate.
  - cbn [fst auth_code]. intros H. injection H as <-.
    exists target. split; [reflexivity|]. now exists parsed, more.
  - destruct (dict_get (lit "error") (parse_qs (query parsed))) as [[|e es]|];
      discriminate.
Qed.

(** X26.  The code [get_authorization_code] returns is the [code]
    parameter of a GET callback the listener has received: the
    connections before it captured nothing, those after it are left
    unhandled, and the function never returns without a code. *)
Theorem authorization_code_comes_from_a_callback
    (w : World) (code : option str) (w' : World) :
  get_authorization_code w = (Ret code, w') ->
  exists pre target c post,
    inbound w = pre ++ Request (lit "GET") target :: post /\
    Forall no_capture pre /\
    carries_code target c /\
    code = Some c /\
    inbound w' = post /\
    port_free w = true.
Proof.
  unfold get_authorization_code, print. cbv zeta. intros H.
  apply bind_ret_inv in H as (u1 & w1 & E1 & H).
  apply bind_ret_inv in H as (u2 & w2 & E2 & H).
  apply bind_ret_inv in H as (u3 & w3 & E3 & H).
  apply bind_ret_inv in H as (u4 & w4 & E4 & H).
  apply bind_ret_inv in H as (u5 & w5 & E5 & H).
  apply bind_ret_inv in H as (srv & w6 & HS & H).
  apply bind_ret_inv in H as (u7 & w7 & E7 & H).
  apply bind_ret_inv in H as (srv' & w8 & HW & H).
  apply bind_ret_inv in H as (u9 & w9 & E9 & H).
  unfold ret in H. injection H as <- <-.
  unfold emit in E1, E2, E3, E4, E5, E7, E9.
  injection E1 as _ <-. injection E2 as _ <-. injection E3 as _ <-.
  injection E4 as _ <-. injection E5 as _ <-.
  unfold HTTPServer in HS. cbn [port_free log] in HS.
  destruct (port_free w) eqn:Hport; [|discriminate HS].
  unfold bind, emit, ret in HS. injection HS as <- <-.
  injection E7 as _ <-. injection E9 as _ <-.
  fold waiting in HW. unfold wait_for_callback in HW.
  match type of HW with
  | wait_rounds _ waiting ?w0 = _ =>
      assert (Hin0 : inbound w0 = inbound w) by reflexivity;
      remember w0 as start eqn:Hstart
  end.
  destruct (first_capture (inbound start))
    as [Hall | (pre & c & post & code0 & Hin & Hpre & Hc)].
  - rewrite (wait_rounds_blocked (inbound start) Hall _ start eq_refl) in HW.
    discriminate HW.
  - rewrite (wait_rounds_returns pre c post code0 Hpre Hc _ start Hin) in HW
      by (rewrite Hin, length_app; simpl; lia).
    injection HW as <- <-.
    destruct (captured_code_is_carried c code0 Hc) as (target & -> & Hcarried).
    exists pre, target, code0, post. rewrite <- Hin0.
    repeat split; try assumption; reflexivity.
Qed.

End Script.

(** ** The client secret

    The secret enters the program at two places: the test of the
    [__main__] block and the form of the token exchange.  Two runs that
    are given different secrets go the same way. *)

Section Secret.

Variable unquote : str -> str.
Variable netloc_rejected : str -> bool.
Variable py_repr : json -> str.
Variable float_json : str -> str.
Variable float_truthy : str -> bool.
Variable CLIENT_ID : option str.
Variables secret1 secret2 : option str.





End Secret.

(** ** The properties on the sample inputs *)

Lemma unquote_ascii_plain (s : str) :
  has_char 37 s = false -> unquote_ascii s = s.
Proof.
  induction s as [|c r IH]; [reflexivity|].
  unfold has_char. cbn [existsb]. intros H.
  apply orb_false_iff in H as [Hc Hr]. rewrite Z.eqb_sym in Hc.
  assert (Hstep : unquote_ascii (c :: r) = c :: unquote_ascii r).
  { destruct r as [|h1 [|h2 r']]; cbn [unquote_ascii]; rewrite ?Hc;
      reflexivity. }
  rewrite Hstep. f_equal. now apply IH.
Qed.

Lemma sample_code_request_carries_code :
  carries_code unquote_ascii unbalanced_brackets
    (lit "/callback?code=ABC123&state=linkedin_post_state") (lit "ABC123").
Proof.
  eexists _, _. split; [vm_compute; reflexivity|].
  split; vm_compute; reflexivity.
Qed.

Lemma sample_error_request_no_capture :
  no_capture unquote_ascii unbalanced_brackets error_request.
Proof. vm_compute. reflexivity. Qed.

(** The cached token is returned with the URN of the probed subject. *)
Lemma cached_token_is_reused_sample :
  fst (authenticate unquote_ascii unbalanced_brackets opaque_repr lexeme_repr
         lexeme_truthy (Some (lit "id")) (Some (lit "secret")) reuse_world)
  = Ret (JStr (lit "OLD"), lit "urn:li:person:u42") /\
  carried_out
    (snd (authenticate unquote_ascii unbalanced_brackets opaque_repr
            lexeme_repr lexeme_truthy (Some (lit "id")) (Some (lit "secret"))
            reuse_world))
  = true.
Proof.
  destruct (cached_token_is_reused unquote_ascii unbalanced_brackets opaque_repr
              lexeme_repr lexeme_truthy (Some (lit "id")) (Some (lit "secret"))
              reuse_world cached_text
              [(lit "access_token", JStr (lit "OLD"));
               (lit "person_urn", JStr (lit "urn:li:person:u42"))]
              (JStr (lit "OLD")) profile_text []
              [(lit "sub", JStr (lit "u42")); (lit "name", JStr (lit "Ann"))]
              (lit "u42"))
    as [Hrun Hout].
  all: try (split; [rewrite Hrun; reflexivity | exact Hout]).
  all: vm_compute; reflexivity.
Defined.

(** The refused token leads to a new exchange, after one denied and one
    granted authorization. *)
Lemma failed_probe_starts_fresh_flow_sample :
  fst (authenticate unquote_ascii unbalanced_brackets opaque_repr lexeme_repr
         lexeme_truthy (Some (lit "id")) (Some (lit "secret")) stale_world)
  = Ret (JStr (lit "NEW"), lit "urn:li:person:u42") /\
  carried_out
    (snd (authenticate unquote_ascii unbalanced_brackets opaque_repr
            lexeme_repr lexeme_truthy (Some (lit "id")) (Some (lit "secret"))
            stale_world))
  = true.
Proof.
  destruct (failed_probe_starts_fresh_flow unquote_ascii unbalanced_brackets
              opaque_repr lexeme_repr lexeme_truthy
              (Some (lit "id")) (Some (lit "secret"))
              stale_world cached_text
              [(lit "access_token", JStr (lit "OLD"));
               (lit "person_urn", JStr (lit "urn:li:person:u42"))]
              (JStr (lit "OLD"))
              (Exception (lit "Failed to get user info"))
              (snd (probe opaque_repr (JStr (lit "OLD"))
                      (log (Print ([0x1F4C2] ++
                              lit " Found existing tokens, attempting to use them..."))
                         stale_world)))
              [error_request]
              (lit "/callback?code=ABC123&state=linkedin_post_state")
              (lit "ABC123") [] granted_text profile_text []
              [(lit "access_token", JStr (lit "NEW"));
               (lit "expires_in", JInt 5184000)]
              [(lit "sub", JStr (lit "u42")); (lit "name", JStr (lit "Ann"))]
              (JStr (lit "NEW")) (lit "u42"))
    as (_ & _ & w' & Hrun & _ & _ & _ & Hout).
  all: try (rewrite Hrun; split; [reflexivity | exact Hout]).
  all: try (vm_compute; reflexivity).
  - constructor; [exact sample_error_request_no_capture | constructor].
  - exact sample_code_request_carries_code.
Defined.

(** The claim of C3 fails on [broken_world]: the flow raises at the
    userinfo request, and the token file, which is no longer the cached
    one, holds the exchanged record without [person_urn] and
    [user_name]. *)
Lemma fresh_flow_failure_rewrites_the_file :
  let run :=
    fresh_authentication unquote_ascii unbalanced_brackets opaque_repr
      lexeme_repr (Some (lit "id")) (Some (lit "secret")) broken_world in
  fst run = Raise (Exception (lit "Failed to get user info")) /\
  token_file (snd run) <> token_file broken_world /\
  option_map json_loads (token_file (snd run))
  = Some (Some (JObj [(lit "access_token", JStr (lit "NEW"));
                      (lit "expires_in", JInt 5184000)])).
Proof.
  vm_compute. split; [reflexivity|]. split; [discriminate | reflexivity].
Qed.

(** On [broken_world] the file is left with the exchanged record. *)
Lemma failed_fresh_flow_keeps_exchanged_record_sample :
  token_file
    (snd (fresh_authentication unquote_ascii unbalanced_brackets opaque_repr
            lexeme_repr (Some (lit "id")) (Some (lit "secret")) broken_world))
  = Some (json_dumps lexeme_repr
            (JObj [(lit "access_token", JStr (lit "NEW"));
                   (lit "expires_in", JInt 5184000)])).
Proof.
  rewrite (failed_fresh_flow_keeps_exchanged_record unquote_ascii
             unbalanced_brackets opaque_repr lexeme_repr
             (Some (lit "id")) (Some (lit "secret")) broken_world).
  - vm_compute. reflexivity.
  - intros r. vm_compute. discriminate.
Defined.

Lemma callback_with_code_is_captured_sample :
  do_GET unquote_ascii unbalanced_brackets waiting
    (lit "/callback?code=" ++ lit "ABC123" ++ [])
  = ({| auth_code := Some (lit "ABC123") |},
     Some {| status := 200; headers := html_headers; body := success_page |}).
Proof.
  apply (proj2 (callback_with_code_is_captured unquote_ascii unbalanced_brackets
                  unquote_ascii_plain eq_refl waiting));
    reflexivity.
Defined.

Lemma callback_with_error_is_refused_sample :
  do_GET unquote_ascii unbalanced_brackets waiting
    (lit "/callback?error=" ++ lit "access_denied")
  = (waiting,
     Some {| status := 400; headers := html_headers;
             body := lit "<html><body><h1>Error: " ++ lit "access_denied" ++
                     lit "</h1></body></html>" |}).
Proof.
  apply (proj2 (callback_with_error_is_refused unquote_ascii
                  unbalanced_brackets unquote_ascii_plain eq_refl waiting));
    reflexivity.
Defined.

(** A blank [code=] is no code parameter for [parse_qs]: the request is
    answered as one without code. *)
Lemma blank_code_is_no_parameter :
  do_GET unquote_ascii unbalanced_brackets waiting (lit "/callback?code=")
  = (waiting,
     Some {| status := 400; headers := html_headers;
             body := lit "<html><body><h1>Error: Unknown error</h1></body></html>" |}).
Proof. vm_compute. reflexivity. Qed.

(** Two denied authorizations leave the wait blocked. *)
Lemma wait_ends_only_on_a_code_sample :
  fst (wait_for_callback unquote_ascii unbalanced_brackets waiting denied_world)
  = Blocked.
Proof.
  rewrite (proj1 (wait_ends_only_on_a_code unquote_ascii unbalanced_brackets
                    denied_world)).
  - reflexivity.
  - repeat constructor; exact sample_error_request_no_capture.
Defined.

Lemma authorization_url_is_fixed_text_sample :
  parse_qsl unquote_ascii
    (spec_query_string
       [(lit "response_type", lit "code");
        (lit "client_id", lit "86abcxyz");
        (lit "redirect_uri", REDIRECT_URI);
        (lit "scope", SCOPES);
        (lit "state", lit "linkedin_post_state")])
  = [(lit "response_type", lit "code");
     (lit "client_id", lit "86abcxyz");
     (lit "redirect_uri", REDIRECT_URI);
     (lit "scope", SCOPES);
     (lit "state", lit "linkedin_post_state")].
Proof.
  apply (proj2 (authorization_url_is_fixed_text unquote_ascii
                  unquote_ascii_plain (Some (lit "86abcxyz")))).
  reflexivity.
Defined.

Lemma token_cache_round_trip_sample :
  fst (load_tokens
         (snd (save_tokens lexeme_repr
                 (JObj [(lit "access_token", JStr (lit "NEW"));
                        (lit "expires_in", JInt 5184000);
                        (lit "person_urn", JStr (lit "urn:li:person:u42"));
                        (lit "user_name", JStr [65; 110; 110; 233; 128512])])
                 broken_world)))
  = Ret (Some (JObj [(lit "access_token", JStr (lit "NEW"));
                     (lit "expires_in", JInt 5184000);
                     (lit "person_urn", JStr (lit "urn:li:person:u42"));
                     (lit "user_name", JStr [65; 110; 110; 233; 128512])])).
Proof.
  apply (proj1 (proj2 (token_cache_round_trip lexeme_repr)));
    vm_compute; reflexivity.
Defined.


Lemma callback_ignores_state_sample :
  do_GET unquote_ascii unbalanced_brackets waiting
    (lit "/callback?code=ABC123" ++ lit "&state=" ++ lit "linkedin_post_state")
  = do_GET unquote_ascii unbalanced_brackets waiting
      (lit "/callback?code=ABC123" ++ lit "&state=" ++ lit "forged").
Proof.
  apply (proj1 (proj2 (callback_ignores_state unquote_ascii unbalanced_brackets
                         unquote_ascii_plain eq_refl waiting)
                  (lit "ABC123") (lit "linkedin_post_state") (lit "forged")
                  eq_refl)).
Defined.

(** The limit on the digits of an integer lies between 4300 and 4301
    digits, for the integers [json.dump] writes and for the texts
    [json.loads] reads. *)
Lemma digit_limit_boundary :
  int_fits (10 ^ 4300 - 1) = true /\
  int_fits (10 ^ 4300) = false /\
  text_within_limits (repeat 57 4300) = true /\
  text_within_limits (repeat 57 4301) = false.
Proof. vm_compute. repeat split. Qed.

(** A name that is a lone surrogate: [json.loads] reads it from its
    escape, the line that greets the user is not text, and the run in
    which the script above prints this line is not one that was carried
    out. *)
Lemma surrogate_name_is_not_printed :
  json_loads surrogate_text
  = Some (JObj [(lit "sub", JStr (lit "u42")); (lit "name", JStr [55296])]) /\
  text (format_value opaque_repr (JStr [55296])) = false /\
  carried_out
    (snd (authenticate unquote_ascii unbalanced_brackets opaque_repr
            lexeme_repr lexeme_truthy (Some (lit "id")) (Some (lit "secret"))
            surrogate_world))
  = false.
Proof. vm_compute. repeat split. Qed.

(** ** The further properties on the sample inputs *)

(** A code sent to a path that merely starts like the callback path is
    not captured. *)
Lemma other_paths_are_not_found_sample :
  do_GET unquote_ascii unbalanced_brackets waiting
    (lit "/callback/" ++ lit "?code=ABC123")
  = (waiting, Some {| status := 404; headers := []; body := [] |}).
Proof.
  apply (proj2 (other_paths_are_not_found unquote_ascii unbalanced_brackets
                  eq_refl waiting));
    [reflexivity | reflexivity | intros H; vm_compute in H; discriminate H].
Defined.

Lemma callback_without_code_or_error_sample :
  do_GET unquote_ascii unbalanced_brackets waiting
    (lit "/callback?" ++
     spec_query_string [(lit "state", lit "linkedin_post_state")])
  = (waiting,
     Some {| status := 400; headers := html_headers;
             body :=
               lit "<html><body><h1>Error: Unknown error</h1></body></html>" |}).
Proof.
  apply (proj2 (proj2 (callback_without_code_or_error unquote_ascii
                         unbalanced_brackets unquote_ascii_plain eq_refl
                         waiting)));
    reflexivity.
Defined.

(** The code stands after the state and an error, and is given twice. *)
Lemma code_is_taken_from_anywhere_in_the_query_sample :
  do_GET unquote_ascii unbalanced_brackets waiting
    (lit "/callback?" ++
     spec_query_string
       [(lit "state", lit "linkedin_post_state");
        (lit "error", lit "access_denied");
        (lit "code", lit "ABC123");
        (lit "code", lit "XYZ789")])
  = ({| auth_code := Some (lit "ABC123") |},
     Some {| status := 200; headers := html_headers; body := success_page |}).
Proof.
  apply (code_is_taken_from_anywhere_in_the_query unquote_ascii
           unbalanced_brackets unquote_ascii_plain eq_refl waiting _
           (lit "ABC123") [lit "XYZ789"]);
    reflexivity.
Defined.

Lemma plus_in_the_code_is_read_as_space_sample :
  do_GET unquote_ascii unbalanced_brackets waiting
    (lit "/callback?code=" ++ lit "AQ+7x" ++ lit "&state=linkedin_post_state")
  = ({| auth_code := Some (replace_char 43 32 (lit "AQ+7x")) |},
     Some {| status := 200; headers := html_headers; body := success_page |}).
Proof.
  apply (plus_in_the_code_is_read_as_space unquote_ascii unbalanced_brackets
           unquote_ascii_plain eq_refl waiting);
    reflexivity.
Defined.

Lemma blank_code_is_ignored_sample :
  do_GET unquote_ascii unbalanced_brackets waiting
    (lit "/callback?code=&" ++ lit "error=access_denied")
  = do_GET unquote_ascii unbalanced_brackets waiting
      (lit "/callback?" ++ lit "error=access_denied").
Proof.
  apply (proj1 (blank_code_is_ignored unquote_ascii unbalanced_brackets
                  eq_refl waiting (lit "error=access_denied"))).
Defined.

Lemma path_parameters_are_dropped_sample :
  do_GET unquote_ascii unbalanced_brackets waiting
    (lit "/callback;" ++ lit "jsessionid=1" ++ lit "?code=" ++ lit "ABC123" ++ [])
  = ({| auth_code := Some (lit "ABC123") |},
     Some {| status := 200; headers := html_headers; body := success_page |}).
Proof.
  apply (path_parameters_are_dropped unquote_ascii unbalanced_brackets
           unquote_ascii_plain eq_refl waiting);
    reflexivity.
Defined.

Lemma capture_needs_a_code_callback_sample :
  exists target code,
    code_request = Request (lit "GET") target /\
    carries_code unquote_ascii unbalanced_brackets target code /\
    serve unquote_ascii unbalanced_brackets waiting code_request =
      ({| auth_code := Some code |},
       Served target
         (Some {| status := 200; headers := html_headers;
                  body := success_page |})).
Proof.
  apply (capture_needs_a_code_callback unquote_ascii unbalanced_brackets
           waiting code_request).
  vm_compute. discriminate.
Defined.



Lemma answer_without_access_token_is_saved_sample :
  token_file
    (snd (fresh_authentication unquote_ascii unbalanced_brackets opaque_repr
            lexeme_repr (Some (lit "id")) (Some (lit "secret")) tokenless_world))
  = Some (json_dumps lexeme_repr
            (JObj [(lit "error", JStr (lit "invalid_grant"))])) /\
  carried_out
    (snd (fresh_authentication unquote_ascii unbalanced_brackets opaque_repr
            lexeme_repr (Some (lit "id")) (Some (lit "secret")) tokenless_world))
  = true.
Proof.
  destruct (answer_without_access_token_is_saved unquote_ascii
              unbalanced_brackets opaque_repr lexeme_repr
              (Some (lit "id")) (Some (lit "secret")) tokenless_world
              (Some (lit "ABC123"))
              (snd (get_authorization_code unquote_ascii unbalanced_brackets
                      (Some (lit "id")) tokenless_world))
              tokenless_text [Reply 200 profile_text]
              [(lit "error", JStr (lit "invalid_grant"))])
    as (_ & Hfile & _ & Hout).
  all: try (split; [exact Hfile | exact Hout]).
  all: vm_compute; reflexivity.
Defined.

(** The exchange is refused on [refused_world] and answered on
    [first_run_world]. *)
Lemma exchange_returns_the_answered_object_sample :
  fst (exchange_code_for_token opaque_repr (Some (lit "id"))
         (Some (lit "secret")) (Some (lit "ABC123")) refused_world)
  = Raise (Exception (lit "Failed to get access token")) /\
  fst (exchange_code_for_token opaque_repr (Some (lit "id"))
         (Some (lit "secret")) (Some (lit "ABC123")) first_run_world)
  = Ret (JObj [(lit "access_token", JStr (lit "NEW"));
               (lit "expires_in", JInt 5184000)]).
Proof.
  split.
  - destruct (exchange_returns_the_answered_object opaque_repr (Some (lit "id"))
                (Some (lit "secret")) (Some (lit "ABC123")) refused_world
                eq_refl eq_refl eq_refl eq_refl)
      as (Hreply & _).
    destruct (Hreply 400 (lit "invalid_request") [] eq_refl eq_refl)
      as (_ & Hrefused & _).
    apply Hrefused; [discriminate | reflexivity].
  - destruct (exchange_returns_the_answered_object opaque_repr (Some (lit "id"))
                (Some (lit "secret")) (Some (lit "ABC123")) first_run_world
                eq_refl eq_refl eq_refl eq_refl)
      as (Hreply & _).
    destruct (Hreply 200 granted_text [Reply 200 profile_text] eq_refl eq_refl)
      as (Hret & _).
    apply (Hret (JObj [(lit "access_token", JStr (lit "NEW"));
                       (lit "expires_in", JInt 5184000)])).
    split; [reflexivity|].
    eexists. split; [vm_compute; reflexivity|].
    split; [reflexivity | vm_compute; reflexivity].
Defined.

Lemma userinfo_returns_the_answered_object_sample :
  fst (get_user_info opaque_repr (JStr (lit "OLD")) reuse_world)
  = Ret (JObj [(lit "sub", JStr (lit "u42")); (lit "name", JStr (lit "Ann"))]).
Proof.
  destruct (userinfo_returns_the_answered_object opaque_repr (JStr (lit "OLD"))
              reuse_world eq_refl eq_refl eq_refl)
    as (Hreply & _).
  destruct (Hreply 200 profile_text [] eq_refl eq_refl) as (Hret & _).
  apply (Hret (JObj [(lit "sub", JStr (lit "u42"));
                     (lit "name", JStr (lit "Ann"))])).
  split; [reflexivity|].
  eexists. split; [vm_compute; reflexivity|].
  split; [reflexivity | vm_compute; reflexivity].
Defined.

Lemma corrupt_cache_stops_authenticate_sample :
  authenticate unquote_ascii unbalanced_brackets opaque_repr lexeme_repr
    lexeme_truthy (Some (lit "id")) (Some (lit "secret")) corrupt_world
  = (Raise JSONDecodeError, corrupt_world).
Proof.
  apply (proj1 (corrupt_cache_stops_authenticate unquote_ascii
                  unbalanced_brackets opaque_repr lexeme_repr lexeme_truthy
                  (Some (lit "id")) (Some (lit "secret")) corrupt_world)
           (lit "{"));
    reflexivity.
Defined.

Lemma cache_without_access_token_starts_fresh_flow_sample :
  authenticate unquote_ascii unbalanced_brackets opaque_repr lexeme_repr
    lexeme_truthy (Some (lit "id")) (Some (lit "secret")) first_run_world
  = fresh_authentication unquote_ascii unbalanced_brackets opaque_repr
      lexeme_repr (Some (lit "id")) (Some (lit "secret")) first_run_world.
Proof.
  apply (proj1 (cache_without_access_token_starts_fresh_flow unquote_ascii
                  unbalanced_brackets opaque_repr lexeme_repr lexeme_truthy
                  (Some (lit "id")) (Some (lit "secret")) first_run_world)).
  reflexivity.
Defined.

Lemma cache_that_is_no_object_is_never_probed_sample :
  authenticate unquote_ascii unbalanced_brackets opaque_repr lexeme_repr
    lexeme_truthy (Some (lit "id")) (Some (lit "secret")) numeric_world
  = (Raise TypeError, numeric_world).
Proof.
  apply (proj2 (cache_that_is_no_object_is_never_probed unquote_ascii
                  unbalanced_brackets opaque_repr lexeme_repr lexeme_truthy
                  (Some (lit "id")) (Some (lit "secret")) numeric_world
                  (lit "42") (JInt 42) eq_refl eq_refl
                  (fun fields H => ltac:(discriminate H))));
    [reflexivity | discriminate | discriminate].
Defined.

(** The first run saves the token and the URN it returns. *)
Lemma fresh_flow_saves_what_it_returns_sample :
  exists record,
    token_file
      (snd (fresh_authentication unquote_ascii unbalanced_brackets opaque_repr
              lexeme_repr (Some (lit "id")) (Some (lit "secret"))
              first_run_world))
    = Some (json_dumps lexeme_repr (JObj record)) /\
    dict_get (lit "access_token") record = Some (JStr (lit "NEW")) /\
    dict_get (lit "person_urn") record = Some (JStr (lit "urn:li:person:u42")).
Proof.
  destruct (fresh_flow_saves_what_it_returns unquote_ascii unbalanced_brackets
              opaque_repr lexeme_repr (Some (lit "id")) (Some (lit "secret"))
              first_run_world (JStr (lit "NEW")) (lit "urn:li:person:u42")
              (snd (fresh_authentication unquote_ascii unbalanced_brackets
                      opaque_repr lexeme_repr (Some (lit "id"))
                      (Some (lit "secret")) first_run_world)))
    as (record & Hfile & Htoken & Hurn & _).
  - vm_compute. reflexivity.
  - exists record. split; [exact Hfile|]. split; [exact Htoken | exact Hurn].
Defined.

Lemma authenticate_returns_a_probed_token_sample :
  exists sub recent,
    lit "urn:li:person:u42" = lit "urn:li:person:" ++ format_value opaque_repr sub /\
    trace
      (snd (authenticate unquote_ascii unbalanced_brackets opaque_repr
              lexeme_repr lexeme_truthy (Some (lit "id")) (Some (lit "secret"))
              reuse_world))
    = recent ++ trace reuse_world /\
    In (Get (lit "https://api.linkedin.com/v2/userinfo")
          [(lit "Authorization",
            lit "Bearer " ++ format_value opaque_repr (JStr (lit "OLD")))])
       recent.
Proof.
  apply (authenticate_returns_a_probed_token unquote_ascii unbalanced_brackets
           opaque_repr lexeme_repr lexeme_truthy (Some (lit "id"))
           (Some (lit "secret")) reuse_world (JStr (lit "OLD"))
           (lit "urn:li:person:u42")).
  vm_compute. reflexivity.
Defined.

Lemma empty_credentials_count_as_missing_sample :
  fst (main unquote_ascii unbalanced_brackets opaque_repr lexeme_repr
         lexeme_truthy (Some []) (Some (lit "secret")) stale_world) = Ret tt.
Proof.
  destruct (empty_credentials_count_as_missing unquote_ascii
              unbalanced_brackets opaque_repr lexeme_repr lexeme_truthy
              (Some []) (Some (lit "secret")) stale_world (or_introl eq_refl))
    as (H & _).
  exact H.
Defined.

Lemma main_runs_authenticate_with_credentials_sample :
  fst (main unquote_ascii unbalanced_brackets opaque_repr lexeme_repr
         lexeme_truthy (Some (lit "id")) (Some (lit "secret")) reuse_world)
  = Ret tt.
Proof.
  destruct (main_runs_authenticate_with_credentials unquote_ascii
              unbalanced_brackets opaque_repr lexeme_repr lexeme_truthy
              (Some (lit "id")) (Some (lit "secret")) reuse_world
              eq_refl eq_refl)
    as (_ & _ & H).
  apply (proj1 H). eexists. vm_compute. reflexivity.
Defined.

(** A user name with an accent and an emoji is written in ASCII. *)
Lemma token_file_is_ascii_sample :
  exists content,
    token_file
      (snd (save_tokens lexeme_repr
              (JObj [(lit "access_token", JStr (lit "NEW"));
                     (lit "user_name", JStr [65; 110; 110; 233; 128512])])
              first_run_world))
    = Some content /\
    forallb ascii_char content = true.
Proof.
  apply (token_file_is_ascii lexeme_repr). reflexivity.
Defined.

(** No cache: the first run ends with the new token. *)
Lemma first_run_authenticates_sample :
  fst (authenticate unquote_ascii unbalanced_brackets opaque_repr lexeme_repr
         lexeme_truthy (Some (lit "id")) (Some (lit "secret")) first_run_world)
  = Ret (JStr (lit "NEW"), lit "urn:li:person:u42") /\
  carried_out
    (snd (authenticate unquote_ascii unbalanced_brackets opaque_repr
            lexeme_repr lexeme_truthy (Some (lit "id")) (Some (lit "secret"))
            first_run_world))
  = true.
Proof.
  destruct (first_run_authenticates unquote_ascii unbalanced_brackets
              opaque_repr lexeme_repr lexeme_truthy
              (Some (lit "id")) (Some (lit "secret"))
              first_run_world []
              (lit "/callback?code=ABC123&state=linkedin_post_state")
              (lit "ABC123") [] granted_text profile_text []
              [(lit "access_token", JStr (lit "NEW"));
               (lit "expires_in", JInt 5184000)]
              [(lit "sub", JStr (lit "u42")); (lit "name", JStr (lit "Ann"))]
              (JStr (lit "NEW")) (lit "u42"))
    as (w' & Hrun & _ & _ & _ & _ & Hout).
  all: try (rewrite Hrun; split; [reflexivity | exact Hout]).
  all: try (vm_compute; reflexivity).
  - constructor.
  - exact sample_code_request_carries_code.
Defined.


Lemma saved_record_is_reused_sample :
  fst (authenticate unquote_ascii unbalanced_brackets opaque_repr lexeme_repr
         lexeme_truthy (Some (lit "id")) (Some (lit "secret"))
         (snd (save_tokens lexeme_repr
                 (JObj [(lit "access_token", JStr (lit "NEW"));
                        (lit "person_urn", JStr (lit "urn:li:person:u42"))])
                 reuse_world)))
  = Ret (JStr (lit "NEW"), lit "urn:li:person:" ++ lit "u42") /\
  carried_out
    (snd (authenticate unquote_ascii unbalanced_brackets opaque_repr
            lexeme_repr lexeme_truthy (Some (lit "id")) (Some (lit "secret"))
            (snd (save_tokens lexeme_repr
                    (JObj [(lit "access_token", JStr (lit "NEW"));
                           (lit "person_urn", JStr (lit "urn:li:person:u42"))])
                    reuse_world))))
  = true.
Proof.
  destruct (saved_record_is_reused unquote_ascii unbalanced_brackets opaque_repr
              lexeme_repr lexeme_truthy (Some (lit "id")) (Some (lit "secret"))
              [(lit "access_token", JStr (lit "NEW"));
               (lit "person_urn", JStr (lit "urn:li:person:u42"))]
              (JStr (lit "NEW")) reuse_world profile_text []
              [(lit "sub", JStr (lit "u42")); (lit "name", JStr (lit "Ann"))]
              (lit "u42"))
    as (Hret & _ & _ & _ & Hout).
  all: try (split; [exact Hret | exact Hout]).
  all: vm_compute; reflexivity.
Defined.

(** A flow that fails after the exchange still leaves a token file. *)
Lemma token_file_is_never_deleted_sample :
  exists content,
    token_file
      (snd (authenticate unquote_ascii unbalanced_brackets opaque_repr
              lexeme_repr lexeme_truthy (Some (lit "id")) (Some (lit "secret"))
              refused_world))
    = Some content.
Proof.
  apply (proj1 (token_file_is_never_deleted unquote_ascii unbalanced_brackets
                  opaque_repr lexeme_repr lexeme_truthy (Some (lit "id"))
                  (Some (lit "secret")) refused_world cached_text eq_refl)).
Defined.

Lemma host_of_the_target_is_ignored_sample :
  do_GET unquote_ascii unbalanced_brackets waiting
    (lit "http://" ++ lit "elsewhere.example:9" ++ lit "/callback?code=" ++
     lit "ABC123" ++ [])
  = ({| auth_code := Some (lit "ABC123") |},
     Some {| status := 200; headers := html_headers; body := success_page |}).
Proof.
  apply (host_of_the_target_is_ignored unquote_ascii unbalanced_brackets
           unquote_ascii_plain waiting);
    reflexivity.
Defined.

(** The user first denies, then grants: the code is the granted one. *)
Lemma authorization_code_comes_from_a_callback_sample :
  exists pre target c post,
    inbound stale_world = pre ++ Request (lit "GET") target :: post /\
    Forall (no_capture unquote_ascii unbalanced_brackets) pre /\
    carries_code unquote_ascii unbalanced_brackets target c /\
    Some (lit "ABC123") = Some c /\
    inbound
      (snd (get_authorization_code unquote_ascii unbalanced_brackets
              (Some (lit "id")) stale_world)) = post /\
    port_free stale_world = true.
Proof.
  apply (authorization_code_comes_from_a_callback unquote_ascii
           unbalanced_brackets (Some (lit "id")) stale_world
           (Some (lit "ABC123"))).
  vm_compute. reflexivity.
Defined.
